(** * Fantasy Football Central: the platform adapter and normalization layer

    A shallow embedding of [src/services/espnApi.ts] (ESPN adapter),
    [yahooApi.ts] (Yahoo adapter), [sleeperApi.ts] (Sleeper adapter) and
    [src/services/unifiedApi.ts] (the dispatcher), with the statements of
    the specification proved or refuted against it.

    Conventions of the embedding:
    - a JavaScript string is a [string]: a sequence of code units, each
      below 256;
    - a JavaScript number that carries points is a binary64 [float]
      (the kernel's primitive floats), so [+] and [x || 0] are the
      operations the program runs; identifiers and weeks, which the
      program only compares or prints, are integers ([Z]);
    - [undefined] and [null] in an optional field are [None];
    - an object used as a dictionary is an association list that keeps
      insertion order, as [Object.values] does for keys that are not
      array indices;
    - a thrown exception is the [Throw] outcome of a [result];
    - what the network answers is an argument of the function that
      awaits it. *)

From Stdlib Require Import ZArith List String Ascii Bool Lia Floats.
From Stdlib Require Import DecimalString.
Import ListNotations.

Set Warnings "-inexact-float".

Local Open Scope list_scope.
Local Open Scope string_scope.

(* ================================================================== *)
(** * Part I. The program                                               *)
(* ================================================================== *)

(** ** JavaScript values and built-ins used by the adapters *)

Module JS.

(** The double quote, which the sources use inside patterns. *)
Definition dquote : string := String (ascii_of_nat 34) EmptyString.

(** *** Errors and outcomes *)

(** An [Error] object: its [name] ("Error", "TypeError", "AxiosError")
    and its [message]. *)
Record error := Error_ { err_name : string; err_message : string }.

(** [new Error(message)]. *)
Definition mkError (message : string) : error := Error_ "Error" message.

(** [String(error)], what a template literal interpolates:
    Error.prototype.toString. *)
Definition error_toString (e : error) : string :=
  match err_name e, err_message e with
  | EmptyString, m => m
  | n, EmptyString => n
  | n, m => n ++ ": " ++ m
  end.

(** The outcome of running a function body: a returned value or a
    thrown exception. *)
Inductive result (A : Type) : Type :=
| Ok (a : A)
| Throw (e : error).
Arguments Ok {A} a.
Arguments Throw {A} e.

Definition bind {A B} (r : result A) (k : A -> result B) : result B :=
  match r with
  | Ok a => k a
  | Throw e => Throw e
  end.

(** [try { body } catch (error) { handler }]. *)
Definition try_catch {A} (body : result A) (handler : error -> result A)
  : result A :=
  match body with
  | Ok a => Ok a
  | Throw e => handler e
  end.

(** *** Numbers *)

(** ToBoolean on a number is false for [+0], [-0] and [NaN]. *)
Definition number_falsy (x : float) : bool :=
  PrimFloat.eqb x 0%float || PrimFloat.is_nan x.

(** [x || 0] where [x] is an optional number ([undefined] and [null]
    are falsy as well). *)
Definition or_zero (x : option float) : float :=
  match x with
  | Some v => if number_falsy v then 0%float else v
  | None => 0%float
  end.

(** The number whose value is the integer [z], rounded to nearest
    even when [z] needs more than 53 bits. *)
Definition number_of_Z (z : Z) : float :=
  SF2Prim (binary_normalize prec emax z 0 false).

(** [String(n)] and [n.toString()] for an integer [n] in plain
    decimal, as JavaScript prints an integer that is an exact number
    below 10^21 (from there on it prints in exponent form). *)
Definition Z_toString (z : Z) : string :=
  NilZero.string_of_int (Z.to_int z).

(** [parseInt(s)] with no radix (ECMA-262 19.2.5): leading white
    space is skipped, then an optional sign, then an optional [0x]
    prefix that selects radix 16; the longest run of digits is read and
    the rest ignored; no digit at all gives [NaN]. The integer read is
    rounded to the nearest number. *)
Definition is_white_space (c : ascii) : bool :=
  let n := nat_of_ascii c in
  (((9 <=? n) && (n <=? 13)) || (n =? 32) || (n =? 160))%nat.

Fixpoint skip_white_space (s : string) : string :=
  match s with
  | String c rest => if is_white_space c then skip_white_space rest else s
  | EmptyString => s
  end.

Definition digit_value (radix : Z) (c : ascii) : option Z :=
  let n := Z.of_nat (nat_of_ascii c) in
  let d :=
    (if (48 <=? n) && (n <=? 57) then n - 48
     else if (97 <=? n) && (n <=? 122) then n - 87
     else if (65 <=? n) && (n <=? 90) then n - 55
     else 36)%Z in
  if (d <? radix)%Z then Some d else None.

(** The digits at the front of [s], most significant first: the value
    read so far and whether a digit was seen. *)
Fixpoint read_digits (radix : Z) (s : string) (acc : Z) (seen : bool)
  : Z * bool :=
  match s with
  | String c rest =>
      match digit_value radix c with
      | Some d => read_digits radix rest (acc * radix + d)%Z true
      | None => (acc, seen)
      end
  | EmptyString => (acc, seen)
  end.

Definition parseInt (input : string) : float :=
  let s := skip_white_space input in
  let '(negative, s) :=
    match s with
    | String "-" rest => (true, rest)
    | String "+" rest => (false, rest)
    | _ => (false, s)
    end in
  let '(radix, s) :=
    match s with
    | String "0" (String "x" rest) => (16%Z, rest)
    | String "0" (String "X" rest) => (16%Z, rest)
    | _ => (10%Z, s)
    end in
  match read_digits radix s 0%Z false with
  | (_, false) => PrimFloat.nan
  | (n, true) =>
      if negative then (- number_of_Z n)%float else number_of_Z n
  end.

(** [x || 0] for a number. *)
Definition number_or_zero (x : float) : float :=
  if number_falsy x then 0%float else x.

(** *** Property lookup on an object literal *)

(** What [table[key]] can evaluate to when [table] is an object
    literal with string values: an own string, a property inherited
    from [Object.prototype], or [undefined]. [VNull] is the [null] the
    sources put in place of a missing slot. *)
Inductive value :=
| VUndefined
| VNull
| VString (s : string)
| VNative (name : string).

(** The properties every object literal inherits from
    [Object.prototype] (ECMA-262 20.1.3 and B.2.2): functions, and for
    [__proto__] the prototype object itself. All of them are truthy. *)
Definition object_prototype_keys : list string :=
  [ "constructor"; "hasOwnProperty"; "isPrototypeOf";
    "propertyIsEnumerable"; "toLocaleString"; "toString"; "valueOf";
    "__proto__"; "__defineGetter__"; "__defineSetter__";
    "__lookupGetter__"; "__lookupSetter__" ].

Fixpoint own_property (table : list (string * string)) (key : string)
  : option string :=
  match table with
  | [] => None
  | (k, v) :: rest => if String.eqb k key then Some v else own_property rest key
  end.

Definition inherited (key : string) : bool :=
  existsb (String.eqb key) object_prototype_keys.

(** [table[key]]: the own property if there is one, otherwise the
    prototype chain. *)
Definition lookup (table : list (string * string)) (key : string) : value :=
  match own_property table key with
  | Some v => VString v
  | None => if inherited key then VNative key else VUndefined
  end.

(** ToBoolean. *)
Definition truthy (v : value) : bool :=
  match v with
  | VUndefined | VNull => false
  | VString EmptyString => false
  | VString _ => true
  | VNative _ => true
  end.

(** [a || b]. *)
Definition or_else (a b : value) : value := if truthy a then a else b.

(** [table[key]] for a table whose keys are integers and a key that is
    an integer: the key's string form is a decimal numeral, which names
    no inherited property, so the own properties decide. *)
Fixpoint lookup_num (table : list (Z * string)) (key : Z) : option string :=
  match table with
  | [] => None
  | (k, v) :: rest => if Z.eqb k key then Some v else lookup_num rest key
  end.

(** The property key an optional string turns into: ToString of
    [undefined] is ["undefined"]. *)
Definition key_of_optional (s : option string) : string :=
  match s with
  | Some k => k
  | None => "undefined"
  end.

(** [s || d] for an optional string. *)
Definition string_or (s : option string) (d : string) : string :=
  match s with
  | Some EmptyString | None => d
  | Some v => v
  end.

(** ToString of a [value], as a template literal or a property access
    applies it. A built-in function prints as its native source text
    (the form V8 and JavaScriptCore use); [Object.prototype] prints as
    a plain object. *)
Definition value_toString (v : value) : string :=
  match v with
  | VUndefined => "undefined"
  | VNull => "null"
  | VString s => s
  | VNative name =>
      if String.eqb name "__proto__" then "[object Object]"
      else if String.eqb name "constructor"
           then "function Object() { [native code] }"
           else "function " ++ name ++ "() { [native code] }"
  end.

(** *** Objects as dictionaries, in insertion order *)

Section Obj.
Context {V : Type}.

Definition obj := list (string * V).

(** [o[key]] for an own property. *)
Fixpoint obj_get (o : obj) (key : string) : option V :=
  match o with
  | [] => None
  | (k, v) :: rest => if String.eqb k key then Some v else obj_get rest key
  end.

(** [o[key] = v]: an existing key keeps its place, a new key goes
    last. (This is JavaScript's order for keys that are not array
    indices, which it lists first.) *)
Fixpoint obj_set (o : obj) (key : string) (v : V) : obj :=
  match o with
  | [] => [(key, v)]
  | (k, w) :: rest =>
      if String.eqb k key then (k, v) :: rest
      else (k, w) :: obj_set rest key v
  end.

(** [Object.values(o)]. *)
Definition obj_values (o : obj) : list V := map snd o.

(** [Object.keys(o)]. *)
Definition obj_keys (o : obj) : list string := map fst o.

End Obj.
Arguments obj V : clear implicits.

End JS.

(** ** Strings and regular expressions *)

Module Str.

(** [s.substring(0, n)]. *)
Fixpoint take (n : nat) (s : string) : string :=
  match n, s with
  | S n', String c rest => String c (take n' rest)
  | _, _ => EmptyString
  end.

(** [s.substring(n)]. *)
Fixpoint drop (n : nat) (s : string) : string :=
  match n, s with
  | S n', String c rest => drop n' rest
  | _, _ => s
  end.

(** [s.startsWith(p)]. *)
Fixpoint startsWith (p s : string) : bool :=
  match p, s with
  | EmptyString, _ => true
  | String a p', String b s' => Ascii.eqb a b && startsWith p' s'
  | String _ _, EmptyString => false
  end.

(** [s.includes(p)]. *)
Fixpoint includes (p s : string) : bool :=
  startsWith p s
  || match s with
     | String _ s' => includes p s'
     | EmptyString => false
     end.

(** [s.split(sep)] for a separator of one character. *)
Fixpoint split (sep : ascii) (s : string) : list string :=
  match s with
  | EmptyString => [EmptyString]
  | String c rest =>
      if Ascii.eqb c sep then EmptyString :: split sep rest
      else match split sep rest with
           | piece :: pieces => String c piece :: pieces
           | [] => [String c EmptyString]
           end
  end.

(** The first occurrence of [sep] cuts [s] in two. *)
Fixpoint cut (sep : ascii) (s : string) : string * option string :=
  match s with
  | EmptyString => (EmptyString, None)
  | String c rest =>
      if Ascii.eqb c sep then (EmptyString, Some rest)
      else let '(a, b) := cut sep rest in (String c a, b)
  end.

(** [s.replace(p, r)] for a string pattern: the first occurrence. *)
Fixpoint replace (p r s : string) : string :=
  if startsWith p s then r ++ drop (String.length p) s
  else match s with
       | String c rest => String c (replace p r rest)
       | EmptyString => EmptyString
       end.

(** White space and line terminators among the code units below 256
    ([\s] and what [trim] removes). *)
Definition is_space (c : ascii) : bool := JS.is_white_space c.

Fixpoint trimStart (s : string) : string :=
  match s with
  | String c rest => if is_space c then trimStart rest else s
  | EmptyString => s
  end.

Fixpoint trimEnd (s : string) : string :=
  match s with
  | EmptyString => EmptyString
  | String c rest =>
      match trimEnd rest with
      | EmptyString => if is_space c then EmptyString else String c EmptyString
      | rest' => String c rest'
      end
  end.

(** [s.trim()]. *)
Definition trim (s : string) : string := trimEnd (trimStart s).

(** Case mapping on code units below 256. *)
Definition lower (c : ascii) : ascii :=
  let n := nat_of_ascii c in
  if (((65 <=? n) && (n <=? 90))
      || ((192 <=? n) && (n <=? 222) && negb (n =? 215)))%nat
  then ascii_of_nat (n + 32) else c.

(** The canonical form a case-insensitive pattern compares: the upper
    case letter where it is again a single code unit below 256. *)
Definition canonical (c : ascii) : ascii :=
  let n := nat_of_ascii c in
  if (((97 <=? n) && (n <=? 122))
      || ((224 <=? n) && (n <=? 254) && negb (n =? 247)))%nat
  then ascii_of_nat (n - 32) else c.

(** [s.toLowerCase()]. *)
Fixpoint toLowerCase (s : string) : string :=
  match s with
  | String c rest => String (lower c) (toLowerCase rest)
  | EmptyString => EmptyString
  end.

End Str.

(** Regular expressions with the backtracking semantics of ECMA-262
    22.2.2: alternatives are tried left to right, a greedy quantifier
    tries one more iteration before it tries to stop, a lazy one the
    other way round, and the first success is the result. *)

Module Regex.

Inductive re :=
| Eps
| Chr (p : ascii -> bool)
| Cat (r1 r2 : re)
| Alt (r1 r2 : re)
| Rep (greedy : bool) (lo : nat) (hi : option nat) (r : re)
| Grp (i : nat) (r : re)
| Bol
| Eol.

(** The text each capturing group matched, latest first. *)
Definition captures := list (nat * string).

Fixpoint capture (c : captures) (i : nat) : option string :=
  match c with
  | [] => None
  | (j, s) :: rest => if Nat.eqb j i then Some s else capture rest i
  end.

Definition below (hi : option nat) (n : nat) : bool :=
  match hi with
  | Some h => Nat.ltb n h
  | None => true
  end.

Section Run.
Context {R : Type}.

(** What remains to be matched: given the index of the next
    character, the input from there on and the captures so far, it
    gives the result of the whole match, if any. *)
Definition continuation : Type := nat -> string -> captures -> option R.

Definition matcher : Type := nat -> string -> captures -> continuation -> option R.

(** The repetition of [m], after [n] iterations. An iteration that
    matched nothing ends the repetition once [lo] is reached, so that
    every further iteration consumes input: [fuel] above
    [lo - n + length s] is never used up. *)
Fixpoint repeat_matcher (m : matcher) (greedy : bool) (lo : nat)
    (hi : option nat) (k : continuation) (fuel n pos : nat) (s : string)
    (c : captures) {struct fuel} : option R :=
  match fuel with
  | O => None
  | S fuel' =>
      let again (_ : unit) :=
        if below hi n then
          m pos s c
            (fun pos' s' c' =>
               if Nat.eqb pos' pos && Nat.leb lo n then None
               else repeat_matcher m greedy lo hi k fuel' (S n) pos' s' c')
        else None in
      let stop (_ : unit) :=
        if Nat.leb lo n then k pos s c else None in
      if greedy
      then match again tt with
           | Some x => Some x
           | None => stop tt
           end
      else match stop tt with
           | Some x => Some x
           | None => again tt
           end
  end.

Fixpoint run (r : re) {struct r} : matcher :=
  match r with
  | Eps => fun pos s c k => k pos s c
  | Chr p =>
      fun pos s c k =>
        match s with
        | String a rest => if p a then k (S pos) rest c else None
        | EmptyString => None
        end
  | Cat r1 r2 =>
      fun pos s c k =>
        run r1 pos s c (fun pos' s' c' => run r2 pos' s' c' k)
  | Alt r1 r2 =>
      fun pos s c k =>
        match run r1 pos s c k with
        | Some x => Some x
        | None => run r2 pos s c k
        end
  | Rep greedy lo hi r1 =>
      fun pos s c k =>
        repeat_matcher (run r1) greedy lo hi k (S (lo + String.length s))
                       O pos s c
  | Grp i r1 =>
      fun pos s c k =>
        run r1 pos s c
            (fun pos' s' c' => k pos' s' ((i, Str.take (pos' - pos) s) :: c'))
  | Bol => fun pos s c k => if Nat.eqb pos 0 then k pos s c else None
  | Eol =>
      fun pos s c k =>
        match s with
        | EmptyString => k pos s c
        | String _ _ => None
        end
  end.

End Run.

(** The result of a successful match: where it starts and ends, and
    the captures. *)
Record found := { start : nat; stop : nat; groups : captures }.

(** The leftmost match in [s], which is the input from index [pos]
    on. *)
Fixpoint search (r : re) (pos : nat) (s : string) : option found :=
  match run r pos s [] (fun e _ c => Some (e, c)) with
  | Some (e, c) => Some {| start := pos; stop := e; groups := c |}
  | None =>
      match s with
      | String _ rest => search r (S pos) rest
      | EmptyString => None
      end
  end.

(** [r.exec(s)] for a pattern without the [g] flag. *)
Definition exec (r : re) (s : string) : option found := search r 0 s.

(** [match[0]]. *)
Definition matched (s : string) (m : found) : string :=
  Str.take (stop m - start m) (Str.drop (start m) s).

(** [match[i]]: [None] is [undefined]. *)
Definition group (m : found) (i : nat) : option string :=
  capture (groups m) i.

(** [s.match(r)] for a pattern with the [g] flag: every match, left
    to right, without overlap; [[]] stands for [null]. *)
Fixpoint matchAll_from (fuel : nat) (r : re) (whole : string) (pos : nat)
  : list string :=
  match fuel with
  | O => []
  | S fuel' =>
      match search r pos (Str.drop pos whole) with
      | None => []
      | Some m =>
          matched whole m
          :: (if Nat.eqb (stop m) (start m)
              then if Nat.ltb (stop m) (String.length whole)
                   then matchAll_from fuel' r whole (S (stop m))
                   else []
              else matchAll_from fuel' r whole (stop m))
      end
  end.

Definition matchAll (r : re) (s : string) : list string :=
  matchAll_from (S (String.length s)) r s 0.

(** [s.replace(r, by)] for a pattern without the [g] flag and a
    replacement without [$]. *)
Definition replace (r : re) (by_ : string) (s : string) : string :=
  match exec r s with
  | None => s
  | Some m => Str.take (start m) s ++ by_ ++ Str.drop (stop m) s
  end.

(** The number of capturing groups, so that [match.length] is one
    more. *)
Fixpoint group_count (r : re) : nat :=
  match r with
  | Eps | Chr _ | Bol | Eol => 0
  | Cat r1 r2 | Alt r1 r2 => group_count r1 + group_count r2
  | Rep _ _ _ r1 => group_count r1
  | Grp _ r1 => S (group_count r1)
  end.

(** *** Pattern syntax *)

(** A character, compared as written. *)
Definition chr (a : ascii) : re := Chr (Ascii.eqb a).

(** A character of a pattern with the [i] flag. *)
Definition chr_i (a : ascii) : re :=
  Chr (fun b => Ascii.eqb (Str.canonical a) (Str.canonical b)).

Fixpoint lit (s : string) : re :=
  match s with
  | EmptyString => Eps
  | String a EmptyString => chr a
  | String a rest => Cat (chr a) (lit rest)
  end.

Fixpoint lit_i (s : string) : re :=
  match s with
  | EmptyString => Eps
  | String a EmptyString => chr_i a
  | String a rest => Cat (chr_i a) (lit_i rest)
  end.

Fixpoint seq (rs : list re) : re :=
  match rs with
  | [] => Eps
  | [r] => r
  | r :: rest => Cat r (seq rest)
  end.

Fixpoint alt (rs : list re) : re :=
  match rs with
  | [] => Chr (fun _ => false)
  | [r] => r
  | r :: rest => Alt r (alt rest)
  end.

Definition star (r : re) : re := Rep true 0 None r.
Definition plus (r : re) : re := Rep true 1 None r.
Definition opt (r : re) : re := Rep true 0 (Some 1) r.
Definition star_lazy (r : re) : re := Rep false 0 None r.
Definition between (lo hi : nat) (r : re) : re := Rep true lo (Some hi) r.

(** [[^c]]. *)
Definition none_of (a : ascii) : re := Chr (fun b => negb (Ascii.eqb a b)).

(** [.] without the [s] flag: anything but a line terminator. *)
Definition dot : re :=
  Chr (fun b => negb (Ascii.eqb b "010" || Ascii.eqb b "013")).

(** [.] with the [s] flag. *)
Definition dot_all : re := Chr (fun _ => true).

(** [\s]. *)
Definition space : re := Chr Str.is_space.

(** [\d]. *)
Definition digit : re :=
  Chr (fun b => let n := nat_of_ascii b in (48 <=? n)%nat && (n <=? 57)%nat).

(** [[A-Z]] in a pattern without the [i] flag. *)
Definition upper : re :=
  Chr (fun b => let n := nat_of_ascii b in (65 <=? n)%nat && (n <=? 90)%nat).

End Regex.

(** ** [parseFloat], [JSON.parse], URLs *)

Module Web.
Import JS.

(** *** [parseFloat] *)

Fixpoint take_digits (s : string) : string * string :=
  match s with
  | String c rest =>
      match digit_value 10 c with
      | Some _ => let '(d, r) := take_digits rest in (String c d, r)
      | None => (EmptyString, s)
      end
  | EmptyString => (EmptyString, EmptyString)
  end.

Definition digits_value (d : string) : Z := fst (read_digits 10 d 0%Z false).

(** The number nearest to [m * 10^e], for [m >= 0]: one correctly
    rounded operation on exact integers. *)
Definition decimal_to_number (m e : Z) : float :=
  if (m =? 0)%Z then 0%float
  else if (0 <=? e)%Z then number_of_Z (m * 10 ^ e)
  else SF2Prim (SFdiv prec emax
                  (S754_finite false (Z.to_pos m) 0)
                  (S754_finite false (Z.to_pos (10 ^ (- e))) 0)).

(** The exponent part [e[+-]digits], if there is one. *)
Definition exponent_part (s : string) : Z :=
  match s with
  | String c rest =>
      if Ascii.eqb c "e" || Ascii.eqb c "E" then
        let '(negative, rest) :=
          match rest with
          | String "-" r => (true, r)
          | String "+" r => (false, r)
          | _ => (false, rest)
          end in
        let '(d, _) := take_digits rest in
        match d with
        | EmptyString => 0%Z
        | _ => if negative then (- digits_value d)%Z else digits_value d
        end
      else 0%Z
  | EmptyString => 0%Z
  end.

(** [parseFloat(s)] (ECMA-262 19.2.4): the longest prefix of the
    trimmed input that is a decimal literal; [NaN] when there is
    none. *)
Definition parseFloat (input : string) : float :=
  let s := skip_white_space input in
  let '(negative, s) :=
    match s with
    | String "-" rest => (true, rest)
    | String "+" rest => (false, rest)
    | _ => (false, s)
    end in
  let magnitude :=
    if Str.startsWith "Infinity" s then PrimFloat.infinity
    else
      let '(whole, rest) := take_digits s in
      let '(fraction, rest) :=
        match rest with
        | String "." r => take_digits r
        | _ => (EmptyString, rest)
        end in
      match whole ++ fraction with
      | EmptyString => PrimFloat.nan
      | all =>
          decimal_to_number
            (digits_value all)
            (exponent_part rest - Z.of_nat (String.length fraction))
      end in
  if negative then (- magnitude)%float else magnitude.

(** *** [JSON.parse], as far as the adapter uses it: does the text
    parse? *)

Definition json_space (c : ascii) : bool :=
  Ascii.eqb c " " || Ascii.eqb c "009" || Ascii.eqb c "010"
  || Ascii.eqb c "013".

Fixpoint json_skip (s : string) : string :=
  match s with
  | String c rest => if json_space c then json_skip rest else s
  | EmptyString => s
  end.

Definition is_hex (c : ascii) : bool :=
  match digit_value 16 c with
  | Some _ => true
  | None => false
  end.

(** The rest of the input after a string literal whose opening quote
    has been read. *)
Fixpoint json_string (s : string) : option string :=
  match s with
  | EmptyString => None
  | String c rest =>
      if Ascii.eqb c (ascii_of_nat 34) then Some rest
      else if Ascii.eqb c "\" then
        match rest with
        | String e rest' =>
            if Ascii.eqb e "u" then
              match rest' with
              | String h1 (String h2 (String h3 (String h4 rest''))) =>
                  if is_hex h1 && is_hex h2 && is_hex h3 && is_hex h4
                  then json_string rest'' else None
              | _ => None
              end
            else if existsb (Ascii.eqb e)
                      [ascii_of_nat 34; "\"; "/"; "b"; "f"; "n"; "r"; "t"]%char
            then json_string rest' else None
        | EmptyString => None
        end
      else if (nat_of_ascii c <? 32)%nat then None
      else json_string rest
  end.

(** The rest of the input after a number. *)
Definition json_number (s : string) : option string :=
  let s := match s with String "-" r => r | _ => s end in
  let '(whole, rest) := take_digits s in
  match whole with
  | EmptyString => None
  | String "0" (String _ _) => None
  | _ =>
      let after_fraction :=
        match rest with
        | String "." r =>
            match take_digits r with
            | (EmptyString, _) => None
            | (_, r') => Some r'
            end
        | _ => Some rest
        end in
      match after_fraction with
      | None => None
      | Some rest =>
          match rest with
          | String c r =>
              if Ascii.eqb c "e" || Ascii.eqb c "E" then
                let r := match r with
                         | String "-" r' | String "+" r' => r'
                         | _ => r
                         end in
                match take_digits r with
                | (EmptyString, _) => None
                | (_, r') => Some r'
                end
              else Some rest
          | EmptyString => Some rest
          end
      end
  end.

(** The rest of the input after one JSON value, after the members of
    an object whose brace has been read, and after the elements of an
    array whose bracket has been read. *)
Fixpoint json_value (fuel : nat) (s : string) {struct fuel} : option string :=
  match fuel with
  | O => None
  | S fuel' =>
      match s with
      | String "{" rest =>
          match json_skip rest with
          | String "}" rest' => Some rest'
          | rest' => json_members fuel' rest'
          end
      | String "[" rest =>
          match json_skip rest with
          | String "]" rest' => Some rest'
          | rest' => json_elements fuel' rest'
          end
      | String c rest =>
          if Ascii.eqb c (ascii_of_nat 34) then json_string rest
          else if Str.startsWith "true" s then Some (Str.drop 4 s)
          else if Str.startsWith "false" s then Some (Str.drop 5 s)
          else if Str.startsWith "null" s then Some (Str.drop 4 s)
          else json_number s
      | EmptyString => None
      end
  end
with json_members (fuel : nat) (s : string) {struct fuel} : option string :=
  match fuel with
  | O => None
  | S fuel' =>
      match s with
      | String c rest =>
          if Ascii.eqb c (ascii_of_nat 34) then
            match json_string rest with
            | Some rest1 =>
                match json_skip rest1 with
                | String ":" rest2 =>
                    match json_value fuel' (json_skip rest2) with
                    | Some rest3 =>
                        match json_skip rest3 with
                        | String "," rest4 =>
                            json_members fuel' (json_skip rest4)
                        | String "}" rest4 => Some rest4
                        | _ => None
                        end
                    | None => None
                    end
                | _ => None
                end
            | None => None
            end
          else None
      | EmptyString => None
      end
  end
with json_elements (fuel : nat) (s : string) {struct fuel} : option string :=
  match fuel with
  | O => None
  | S fuel' =>
      match json_value fuel' s with
      | Some rest =>
          match json_skip rest with
          | String "," rest' => json_elements fuel' (json_skip rest')
          | String "]" rest' => Some rest'
          | _ => None
          end
      | None => None
      end
  end.

(** [JSON.parse(text)] returns (here: the text) or throws a
    [SyntaxError]. *)
Definition JSON_parse (text : string) : result string :=
  match json_value (2 * String.length text + 2) (json_skip text) with
  | Some rest =>
      match json_skip rest with
      | EmptyString => Ok text
      | _ => Throw (Error_ "SyntaxError" "Unexpected token in JSON")
      end
  | None => Throw (Error_ "SyntaxError" "Unexpected token in JSON")
  end.

(** *** URLs *)

Definition hex_digit (n : nat) : ascii :=
  if (n <? 10)%nat then ascii_of_nat (48 + n) else ascii_of_nat (55 + n).

Definition percent (n : nat) : string :=
  String "%" (String (hex_digit (n / 16)) (String (hex_digit (n mod 16))
                                                  EmptyString)).

Definition unreserved (c : ascii) : bool :=
  let n := nat_of_ascii c in
  (((48 <=? n) && (n <=? 57)) || ((65 <=? n) && (n <=? 90))
   || ((97 <=? n) && (n <=? 122)))%nat
  || existsb (Ascii.eqb c) ["-"; "_"; "."; "!"; "~"; "*"; "'"; "("; ")"]%char.

(** [encodeURIComponent(s)]: every other code unit is written as the
    bytes of its UTF-8 form. *)
Fixpoint encodeURIComponent (s : string) : string :=
  match s with
  | EmptyString => EmptyString
  | String c rest =>
      let n := nat_of_ascii c in
      (if unreserved c then String c EmptyString
       else if (n <? 128)%nat then percent n
       else percent (192 + n / 64) ++ percent (128 + n mod 64))
      ++ encodeURIComponent rest
  end.

(** Percent-decoding of the form-urlencoded parser; [+] is a space.
    (Bytes above 127 are kept as code units, where the parser decodes
    them as UTF-8: this is the parser on ASCII text.) *)
Fixpoint form_decode (s : string) : string :=
  match s with
  | EmptyString => EmptyString
  | String "+" rest => String " " (form_decode rest)
  | String "%" ((String h1 (String h2 rest)) as rest0) =>
      match digit_value 16 h1, digit_value 16 h2 with
      | Some a, Some b =>
          String (ascii_of_nat (Z.to_nat (16 * a + b))) (form_decode rest)
      | _, _ => String "%" (form_decode rest0)
      end
  | String c rest => String c (form_decode rest)
  end.

(** [new URLSearchParams(init)]: the name-value pairs in order. An
    [undefined] argument gives no pair. *)
Definition URLSearchParams (init : option string) : list (string * string) :=
  match init with
  | None => []
  | Some query =>
      let query := match query with String "?" q => q | _ => query end in
      flat_map (fun piece =>
                  match piece with
                  | EmptyString => []
                  | _ =>
                      let '(n, v) := Str.cut "=" piece in
                      [(form_decode n,
                        form_decode (match v with Some v => v | None => "" end))]
                  end)
               (Str.split "&" query)
  end.

(** [params.get(name)]: the first value, [None] for [null]. *)
Fixpoint params_get (params : list (string * string)) (name : string)
  : option string :=
  match params with
  | [] => None
  | (n, v) :: rest => if String.eqb n name then Some v else params_get rest name
  end.

End Web.

(** ** The canonical model (the [types] module the adapters import) *)

Module Model.
Import JS.

(** A [Player] as the adapters build it. [position] and [injuryStatus]
    hold whatever the mapping functions returned. *)
Record Player := {
  id : string;
  name : string;
  position : value;
  team : string;
  injuryStatus : value;
  projectedPoints : option float;
  actualPoints : option float
}.

(** A value of [Lineup.players]: one player in a starting slot, or the
    array under [BENCH]. *)
Inductive SlotValue :=
| Single (p : Player)
| Many (ps : list Player).

(** [Array.isArray]. *)
Definition isArray (v : SlotValue) : bool :=
  match v with
  | Single _ => false
  | Many _ => true
  end.

Record Lineup := {
  lineup_id : string;
  teamId : string;
  week : Z;
  season : float;
  players : obj SlotValue;
  totalProjectedPoints : float;
  lastUpdated : Z
}.

(** The aggregate each adapter computes:
[[
  Object.values(players)
    .filter(player => !Array.isArray(player))
    .reduce((sum, player) => sum + (player.projectedPoints || 0), 0)
]] *)
Definition projectedOf (v : SlotValue) : option float :=
  match v with
  | Single p => projectedPoints p
  | Many _ => None
  end.

Definition sumProjected (ps : obj SlotValue) : float :=
  fold_left (fun sum player => (sum + or_zero (projectedOf player))%float)
            (filter (fun player => negb (isArray player)) (obj_values ps))
            0%float.

Record TeamRecord := { wins : float; losses : float; ties : float }.

End Model.

(** ** The ESPN adapter: REST part ([ESPNApiService]) *)

Module ESPN.
Import JS Model.

(** The part of ESPN's league response ([view=mRoster]) the adapter
    reads. *)
Record Stat := {
  statSourceId : Z;
  statSplitTypeId : Z;
  appliedTotal : option float
}.

Record RawPlayer := {
  player_id : Z;
  fullName : string;
  defaultPositionId : Z;
  proTeamId : Z;
  player_injuryStatus : option string;
  stats : option (list Stat)
}.

Record Entry := {
  playerId : Z;
  lineupSlotId : Z;
  playerPoolEntry_player : RawPlayer
}.

Record RawTeam := {
  team_id : Z;
  team_name : string;
  owners_displayName : list string;
  record_overall : TeamRecord;
  roster_entries : list Entry
}.

Record LeagueData := {
  league_id : Z;
  league_name : string;
  seasonId : float;
  scoringPeriodId : float;
  teams : list RawTeam
}.

(** The adapter's own league shape ([ESPNLeague], [ESPNTeam],
    [ESPNPlayer]); [position] and [team] keep ESPN's numeric ids. *)
Record ESPNPlayer := {
  ep_id : string;
  ep_name : string;
  ep_position : Z;
  ep_team : Z;
  ep_injuryStatus : option string;
  ep_projectedPoints : option float;
  ep_actualPoints : option float
}.

Record ESPNTeam := {
  et_id : string;
  et_name : string;
  et_owners : list string;
  et_record : TeamRecord;
  et_roster : list ESPNPlayer
}.

Record ESPNLeague := {
  el_id : string;
  el_name : string;
  el_season : float;
  el_scoringPeriodId : float;
  el_teams : list ESPNTeam
}.

(** [mapESPNPosition]. *)
Definition positionMap : list (Z * string) :=
  [ (1, "QB"); (2, "RB"); (3, "WR"); (4, "TE"); (5, "K"); (16, "DEF") ]%Z.

Definition mapESPNPosition (positionId : Z) : string :=
  string_or (lookup_num positionMap positionId) "UNKNOWN".

(** [mapESPNLineupPosition]: [slotMap[slotId] || null]. *)
Definition slotMap : list (Z * string) :=
  [ (0, "QB"); (1, "RB1"); (2, "RB2"); (3, "WR1"); (4, "WR2"); (5, "TE");
    (6, "FLEX"); (7, "K"); (8, "DEF"); (20, "BENCH") ]%Z.

Definition mapESPNLineupPosition (slotId : Z) : option string :=
  match lookup_num slotMap slotId with
  | Some EmptyString | None => None
  | Some v => Some v
  end.

(** [mapESPNTeam]. *)
Definition teamMap : list (Z * string) :=
  [ (1, "ATL"); (2, "BUF"); (3, "CHI"); (4, "CIN"); (5, "CLE"); (6, "DAL");
    (7, "DEN"); (8, "DET"); (9, "GB"); (10, "TEN"); (11, "IND"); (12, "KC");
    (13, "LV"); (14, "LAR"); (15, "MIA"); (16, "MIN"); (17, "NE"); (18, "NO");
    (19, "NYG"); (20, "NYJ"); (21, "PHI"); (22, "ARI"); (23, "PIT");
    (24, "LAC"); (25, "SF"); (26, "SEA"); (27, "TB"); (28, "WSH");
    (29, "CAR"); (30, "JAX"); (33, "BAL"); (34, "HOU") ]%Z.

Definition mapESPNTeam (teamId : Z) : string :=
  string_or (lookup_num teamMap teamId) "UNK".

(** [mapESPNInjuryStatus]: [statusMap[status] || 'healthy']. *)
Definition statusMap : list (string * string) :=
  [ ("ACTIVE", "healthy"); ("QUESTIONABLE", "questionable");
    ("DOUBTFUL", "doubtful"); ("OUT", "out") ].

Definition mapESPNInjuryStatus (status : string) : value :=
  or_else (lookup statusMap status) (VString "healthy").

(** [stats?.find(stat => stat.statSourceId === source &&
    stat.statSplitTypeId === 1)?.appliedTotal]. *)
Definition appliedTotalOf (source : Z) (p : RawPlayer) : option float :=
  match stats p with
  | None => None
  | Some l =>
      match find (fun stat => (statSourceId stat =? source)%Z
                              && (statSplitTypeId stat =? 1)%Z) l with
      | Some stat => appliedTotal stat
      | None => None
      end
  end.

(** The object literal both loops of [getTeamLineup] build for an
    entry. *)
Definition playerOf (entry : Entry) : Player :=
  let player := playerPoolEntry_player entry in
  {| id := Z_toString (player_id player);
     name := fullName player;
     position := VString (mapESPNPosition (defaultPositionId player));
     team := mapESPNTeam (proTeamId player);
     injuryStatus :=
       mapESPNInjuryStatus (key_of_optional (player_injuryStatus player));
     projectedPoints := appliedTotalOf 1 player;
     actualPoints := appliedTotalOf 0 player |}.

(** The body of [roster.forEach(...)]. *)
Definition placeEntry (players : obj SlotValue) (entry : Entry)
  : obj SlotValue :=
  match mapESPNLineupPosition (lineupSlotId entry) with
  | Some lineupPosition =>
      if negb (String.eqb lineupPosition "BENCH")
      then obj_set players lineupPosition (Single (playerOf entry))
      else players
  | None => players
  end.

Definition benchPlayers (roster : list Entry) : list Player :=
  map playerOf (filter (fun entry => (lineupSlotId entry =? 20)%Z) roster).

(** [players] as it stands when the total is computed. *)
Definition lineupPlayers (roster : list Entry) : obj SlotValue :=
  let players := fold_left placeEntry roster [] in
  match benchPlayers roster with
  | [] => players
  | bench => obj_set players "BENCH" (Many bench)
  end.

(** [getTeamLineup(leagueId, teamId, week, season)]; [response] is the
    outcome of the awaited [this.api.get(...)] and [now] the instant
    [new Date()] gives. *)
Definition getTeamLineup (response : result LeagueData) (now : Z)
    (leagueId teamId : string) (week : Z) (season : float) : result Lineup :=
  try_catch
    (bind response (fun data =>
       match find (fun t => String.eqb (Z_toString (team_id t)) teamId)
                  (teams data) with
       | None =>
           Throw (mkError ("Team " ++ teamId ++ " not found in league "
                           ++ leagueId))
       | Some team =>
           let players := lineupPlayers (roster_entries team) in
           Ok {| lineup_id := "espn-" ++ teamId ++ "-" ++ Z_toString week;
                 teamId := teamId;
                 week := week;
                 season := season;
                 players := players;
                 totalProjectedPoints := sumProjected players;
                 lastUpdated := now |}
       end))
    (fun error =>
       Throw (mkError ("Failed to fetch lineup for team " ++ teamId ++ ": "
                       ++ error_toString error))).

(** [updateLineup]: not implemented, always [false]. *)
Definition updateLineup (leagueId teamId : string) (week : Z)
    (lineup : option (obj SlotValue)) : result bool :=
  Ok false.

(** [getLeague(leagueId, season)]; [response] is the outcome of the
    awaited [this.api.get(...)]. *)
Definition getLeague (response : result LeagueData) (leagueId : string)
  : result ESPNLeague :=
  try_catch
    (bind response (fun data =>
       Ok {| el_id := Z_toString (league_id data);
             el_name := league_name data;
             el_season := seasonId data;
             el_scoringPeriodId := scoringPeriodId data;
             el_teams :=
               map (fun team =>
                      {| et_id := Z_toString (team_id team);
                         et_name := team_name team;
                         et_owners := owners_displayName team;
                         et_record := record_overall team;
                         et_roster :=
                           map (fun entry =>
                                  let player := playerPoolEntry_player entry in
                                  {| ep_id := Z_toString (playerId entry);
                                     ep_name := fullName player;
                                     ep_position := defaultPositionId player;
                                     ep_team := proTeamId player;
                                     ep_injuryStatus :=
                                       player_injuryStatus player;
                                     ep_projectedPoints :=
                                       appliedTotalOf 1 player;
                                     ep_actualPoints :=
                                       appliedTotalOf 0 player |})
                               (roster_entries team) |})
                   (teams data) |}))
    (fun error =>
       Throw (mkError ("Failed to fetch league " ++ leagueId ++ ": "
                       ++ error_toString error))).

End ESPN.

(** ** The Yahoo adapter ([YahooApiService]) *)

Module Yahoo.
Import JS Model.

(** [player.player[0]] of the roster response. *)
Record RawPlayer := {
  player_id : string;
  name_full : string;
  display_position : string;
  selected_position : string;
  editorial_team_abbr : string;
  injury_status : option string;
  projected_points_total : option float;
  points_total : option float
}.

(** [mapYahooPosition]: [positionMap[position] || position]. *)
Definition positionMap : list (string * string) :=
  [ ("QB", "QB"); ("RB", "RB"); ("WR", "WR"); ("TE", "TE"); ("K", "K");
    ("DEF", "DEF") ].

Definition mapYahooPosition (position : string) : value :=
  or_else (lookup positionMap position) (VString position).

(** [mapYahooLineupPosition]: [positionMap[position] || null]. *)
Definition lineupPositionMap : list (string * string) :=
  [ ("QB", "QB"); ("RB", "RB1"); ("WR", "WR1"); ("TE", "TE"); ("K", "K");
    ("DEF", "DEF"); ("W/R/T", "FLEX"); ("BN", "BENCH") ].

Definition mapYahooLineupPosition (position : string) : value :=
  or_else (lookup lineupPositionMap position) VNull.

(** [mapYahooLineupPositionReverse]. *)
Definition lineupPositionReverseMap : list (string * string) :=
  [ ("QB", "QB"); ("RB1", "RB"); ("RB2", "RB"); ("WR1", "WR"); ("WR2", "WR");
    ("TE", "TE"); ("FLEX", "W/R/T"); ("K", "K"); ("DEF", "DEF") ].

Definition mapYahooLineupPositionReverse (position : string) : value :=
  or_else (lookup lineupPositionReverseMap position) (VString position).

(** [mapYahooInjuryStatus]: [statusMap[status] || 'healthy']. *)
Definition statusMap : list (string * string) :=
  [ ("", "healthy"); ("Q", "questionable"); ("D", "doubtful"); ("O", "out") ].

Definition mapYahooInjuryStatus (status : string) : value :=
  or_else (lookup statusMap status) (VString "healthy").

Definition playerOf (playerData : RawPlayer) : Player :=
  {| id := player_id playerData;
     name := name_full playerData;
     position := mapYahooPosition (display_position playerData);
     team := editorial_team_abbr playerData;
     injuryStatus :=
       mapYahooInjuryStatus (key_of_optional (injury_status playerData));
     projectedPoints := projected_points_total playerData;
     actualPoints := points_total playerData |}.

(** [lineupPosition !== 'BN'] on the mapped value. *)
Definition is_BN (v : value) : bool :=
  match v with
  | VString s => String.eqb s "BN"
  | _ => false
  end.

(** The body of [roster.forEach(...)]. *)
Definition placeEntry (players : obj SlotValue) (playerData : RawPlayer)
  : obj SlotValue :=
  let lineupPosition :=
    mapYahooLineupPosition (selected_position playerData) in
  if truthy lineupPosition && negb (is_BN lineupPosition)
  then obj_set players (value_toString lineupPosition)
               (Single (playerOf playerData))
  else players.

Definition benchPlayers (roster : list RawPlayer) : list Player :=
  map playerOf
      (filter (fun p => String.eqb (selected_position p) "BN") roster).

Definition lineupPlayers (roster : list RawPlayer) : obj SlotValue :=
  let players := fold_left placeEntry roster [] in
  match benchPlayers roster with
  | [] => players
  | bench => obj_set players "BENCH" (Many bench)
  end.

(** [getTeamLineup(leagueId, teamId, week, season)]; [response] is the
    outcome of the awaited roster request, reduced to
    [data.fantasy_content.league[1].teams[0].team[1].roster[0].players]. *)
Definition getTeamLineup (response : result (list RawPlayer)) (now : Z)
    (leagueId teamId : string) (week : Z) (season : float) : result Lineup :=
  try_catch
    (bind response (fun roster =>
       let players := lineupPlayers roster in
       Ok {| lineup_id := "yahoo-" ++ teamId ++ "-" ++ Z_toString week;
             teamId := teamId;
             week := week;
             season := season;
             players := players;
             totalProjectedPoints := sumProjected players;
             lastUpdated := now |}))
    (fun error =>
       Throw (mkError ("Failed to fetch lineup for team " ++ teamId ++ ": "
                       ++ error_toString error))).

(** The request body of [updateLineup]: one entry per non-array value
    of [lineup.players]. *)
Definition rosterUpdates (players : obj SlotValue)
  : list (string * value) :=
  flat_map (fun '(position, player) =>
              match player with
              | Many _ => []
              | Single p => [(id p, mapYahooLineupPositionReverse position)]
              end) players.

(** [lineup.players || {}]. *)
Definition playersOf (lineup : option (obj SlotValue)) : obj SlotValue :=
  match lineup with
  | Some ps => ps
  | None => []
  end.

(** [updateLineup]; [put] is the awaited [this.api.put(...)], giving
    the response status. *)
Definition updateLineup (put : list (string * value) -> result Z)
    (leagueId teamId : string) (week : Z) (lineup : option (obj SlotValue))
  : result bool :=
  try_catch
    (bind (put (rosterUpdates (playersOf lineup)))
          (fun status => Ok (status =? 200)%Z))
    (fun _ => Ok false).

(** The leagues response, reduced to what [getUserLeagues] reads. *)
Record RawTeam := {
  raw_team_id : string;
  raw_team_name : string;
  managers_nickname : list string;
  outcome_wins : string;
  outcome_losses : string;
  outcome_ties : string
}.

Record RawLeague := {
  raw_league_id : string;
  raw_league_name : string;
  raw_teams : list RawTeam
}.

Record YahooTeam := {
  yt_team_id : string;
  yt_name : string;
  yt_owners : list string;
  yt_record : TeamRecord;
  yt_roster : list RawPlayer
}.

Record YahooLeague := {
  yl_league_id : string;
  yl_name : string;
  yl_season : float;
  yl_teams : list YahooTeam
}.

(** [getUserLeagues(season)]; [response] is the outcome of the awaited
    request. Whatever fails, the error thrown is the same. *)
Definition getUserLeagues (response : result (list RawLeague))
    (season : float) : result (list YahooLeague) :=
  try_catch
    (bind response (fun leagues =>
       Ok (map (fun league =>
                  {| yl_league_id := raw_league_id league;
                     yl_name := raw_league_name league;
                     yl_season := season;
                     yl_teams :=
                       map (fun team =>
                              {| yt_team_id := raw_team_id team;
                                 yt_name := raw_team_name team;
                                 yt_owners := managers_nickname team;
                                 yt_record :=
                                   {| wins := parseInt (outcome_wins team);
                                      losses := parseInt (outcome_losses team);
                                      ties := parseInt (outcome_ties team) |};
                                 yt_roster := [] |})
                           (raw_teams league) |})
               leagues)))
    (fun _ => Throw (mkError "Failed to fetch Yahoo leagues")).

End Yahoo.

(** ** The Sleeper adapter ([SleeperApiService]) *)

Module Sleeper.
Import JS Model.

(** An entry of the [/players/nfl] dictionary. *)
Record RawPlayer := {
  full_name : string;
  raw_position : string;
  raw_team : string;
  raw_injury_status : option string
}.

Record Roster := {
  roster_id : string;
  owner_id : string;
  settings_wins : option float;
  settings_losses : option float;
  settings_ties : option float;
  roster_players : list string
}.

Record User := {
  user_id : string;
  display_name : option string;
  user_username : option string
}.

Record Matchup := {
  matchup_roster_id : string;
  starters : list string;
  starters_points : list float
}.

Record League := { league_name : string; league_season : string }.

(** The adapter's own league shape. *)
Record SleeperPlayer := {
  pl_player_id : string;
  pl_name : string;
  pl_position : value;
  pl_team : string;
  pl_injuryStatus : value;
  pl_projectedPoints : float;
  pl_actualPoints : float
}.

Record SleeperTeam := {
  tm_team_id : string;
  tm_name : option string;
  tm_owners : list string;
  tm_record : TeamRecord;
  tm_roster : list SleeperPlayer
}.

Record SleeperLeague := {
  lg_league_id : string;
  lg_name : string;
  lg_season : string;
  lg_teams : list SleeperTeam
}.

(** [mapSleeperPosition]: [positionMap[position] || position]. *)
Definition positionMap : list (string * string) :=
  [ ("QB", "QB"); ("RB", "RB"); ("WR", "WR"); ("TE", "TE"); ("K", "K");
    ("DEF", "DEF") ].

Definition mapSleeperPosition (position : string) : value :=
  or_else (lookup positionMap position) (VString position).

(** [mapSleeperInjuryStatus]: [statusMap[status] || 'healthy']. *)
Definition statusMap : list (string * string) :=
  [ ("", "healthy"); ("Questionable", "questionable");
    ("Doubtful", "doubtful"); ("Out", "out") ].

Definition mapSleeperInjuryStatus (status : string) : value :=
  or_else (lookup statusMap status) (VString "healthy").

Definition lineupPositions : list string :=
  [ "QB"; "RB1"; "RB2"; "WR1"; "WR2"; "TE"; "FLEX"; "K"; "DEF" ].

(** [playerId && playerId !== '0']. *)
Definition isPlayerId (playerId : string) : bool :=
  negb (String.eqb playerId "") && negb (String.eqb playerId "0").

Section Lineup.

(** [allPlayers[playerId]], [None] when the dictionary has no (truthy)
    entry. *)
Variable allPlayers : string -> option RawPlayer.

Definition starterOf (matchup : Matchup) (index : nat) (playerId : string)
    (player : RawPlayer) : Player :=
  {| id := playerId;
     name := full_name player;
     position := mapSleeperPosition (raw_position player);
     team := raw_team player;
     injuryStatus :=
       mapSleeperInjuryStatus (key_of_optional (raw_injury_status player));
     projectedPoints := Some 0%float;
     actualPoints :=
       Some (or_zero (nth_error (starters_points matchup) index)) |}.

Definition benchOf (playerId : string) (player : RawPlayer) : Player :=
  {| id := playerId;
     name := full_name player;
     position := mapSleeperPosition (raw_position player);
     team := raw_team player;
     injuryStatus :=
       mapSleeperInjuryStatus (key_of_optional (raw_injury_status player));
     projectedPoints := Some 0%float;
     actualPoints := Some 0%float |}.

(** The body of [lineupPositions.forEach((position, index) => ...)]. *)
Definition placeStarter (matchup : Matchup) (players : obj SlotValue)
    (position_index : string * nat) : obj SlotValue :=
  let '(position, index) := position_index in
  match nth_error (starters matchup) index with
  | Some playerId =>
      if isPlayerId playerId then
        match allPlayers playerId with
        | Some player =>
            obj_set players position
                    (Single (starterOf matchup index playerId player))
        | None => players
        end
      else players
  | None => players
  end.

(** [matchup.starters.slice(9).filter(...).map(...).filter(Boolean)]. *)
Definition benchPlayers (matchup : Matchup) : list Player :=
  flat_map (fun playerId =>
              match allPlayers playerId with
              | Some player => [benchOf playerId player]
              | None => []
              end)
           (filter isPlayerId (skipn 9 (starters matchup))).

Definition lineupPlayers (matchup : option Matchup) : obj SlotValue :=
  match matchup with
  | None => []
  | Some m =>
      let players :=
        fold_left (placeStarter m)
                  (combine lineupPositions (seq 0 (List.length lineupPositions)))
                  [] in
      match benchPlayers m with
      | [] => players
      | bench => obj_set players "BENCH" (Many bench)
      end
  end.

End Lineup.

(** [getTeamLineup(leagueId, teamId, week)]. The three awaits are, in
    order: [Promise.all] of the rosters and league requests, the
    matchups request, and the players dictionary. *)
Definition getTeamLineup
    (rosters_league : result (list Roster * League))
    (matchups : result (list Matchup))
    (players_nfl : result (string -> option RawPlayer)) (now : Z)
    (leagueId teamId : string) (week : Z) : result Lineup :=
  try_catch
    (bind rosters_league (fun '(rosters, league) =>
       match find (fun r => String.eqb (roster_id r) teamId) rosters with
       | None =>
           Throw (mkError ("Team " ++ teamId ++ " not found in league "
                           ++ leagueId))
       | Some roster =>
           bind matchups (fun matchups =>
           let matchup :=
             find (fun m => String.eqb (matchup_roster_id m) teamId)
                  matchups in
           bind players_nfl (fun allPlayers =>
           let players := lineupPlayers allPlayers matchup in
           Ok {| lineup_id := "sleeper-" ++ teamId ++ "-" ++ Z_toString week;
                 teamId := teamId;
                 week := week;
                 season := parseInt (league_season league);
                 players := players;
                 totalProjectedPoints := sumProjected players;
                 lastUpdated := now |}))
       end))
    (fun error =>
       Throw (mkError ("Failed to fetch lineup for team " ++ teamId ++ ": "
                       ++ error_toString error))).

(** The [starters] that [updateLineup] sends. *)
Definition startersOf (players : obj SlotValue) : list string :=
  flat_map (fun '(position, player) =>
              match player with
              | Single p =>
                  if negb (String.eqb position "BENCH")
                     && negb (String.eqb (id p) "")
                  then [id p] else []
              | Many _ => []
              end) players.

(** [updateLineup]; [put] is the awaited [this.api.put(...)]. *)
Definition updateLineup (put : list string -> result Z)
    (leagueId teamId : string) (week : Z) (lineup : option (obj SlotValue))
  : result bool :=
  try_catch
    (bind (put (startersOf (match lineup with Some ps => ps | None => [] end)))
          (fun status => Ok (status =? 200)%Z))
    (fun _ => Ok false).

(** [a || b] for optional strings, the empty string being falsy. *)
Definition first_truthy (a b : option string) : option string :=
  match a with
  | Some (String _ _) => a
  | _ => b
  end.

(** [getLeague(leagueId)]; the two awaits are [Promise.all] of the
    league, rosters and users requests, and the players dictionary. *)
Definition getLeague
    (league_rosters_users : result (League * list Roster * list User))
    (players_nfl : result (string -> option RawPlayer))
    (leagueId : string) : result SleeperLeague :=
  try_catch
    (bind league_rosters_users (fun '(league, rosters, users) =>
     bind players_nfl (fun allPlayers =>
       Ok {| lg_league_id := leagueId;
             lg_name := league_name league;
             lg_season := league_season league;
             lg_teams :=
               map (fun roster =>
                      let user :=
                        find (fun u => String.eqb (user_id u) (owner_id roster))
                             users in
                      {| tm_team_id := roster_id roster;
                         tm_name :=
                           match user with
                           | Some u =>
                               first_truthy (display_name u) (user_username u)
                           | None => Some ("Team " ++ roster_id roster)
                           end;
                         tm_owners :=
                           [ match user with
                             | Some u =>
                                 string_or
                                   (first_truthy (display_name u)
                                                 (user_username u))
                                   "Unknown"
                             | None => "Unknown"
                             end ];
                         tm_record :=
                           {| wins := or_zero (settings_wins roster);
                              losses := or_zero (settings_losses roster);
                              ties := or_zero (settings_ties roster) |};
                         tm_roster :=
                           flat_map
                             (fun playerId =>
                                match allPlayers playerId with
                                | Some player =>
                                    [ {| pl_player_id := playerId;
                                         pl_name := full_name player;
                                         pl_position :=
                                           mapSleeperPosition
                                             (raw_position player);
                                         pl_team := raw_team player;
                                         pl_injuryStatus :=
                                           mapSleeperInjuryStatus
                                             (key_of_optional
                                                (raw_injury_status player));
                                         pl_projectedPoints := 0;
                                         pl_actualPoints := 0 |} ]
                                | None => []
                                end)
                             (roster_players roster) |})
                   rosters |})))
    (fun error =>
       Throw (mkError ("Failed to fetch league " ++ leagueId ++ ": "
                       ++ error_toString error))).

End Sleeper.

(** ** Vocabulary of the specification *)

Module Spec.
Import JS Model.

(** The canonical positions of section 4.1. *)
Definition canonical_positions : list string :=
  [ "QB"; "RB"; "WR"; "TE"; "K"; "DEF"; "FLEX" ].

Definition is_canonical_position (v : value) : Prop :=
  exists s, v = VString s /\ In s canonical_positions.

(** The canonical injury statuses of section 4.1. *)
Definition canonical_statuses : list string :=
  [ "healthy"; "questionable"; "doubtful"; "out" ].

Definition is_canonical_status (v : value) : Prop :=
  exists s, v = VString s /\ In s canonical_statuses.

(** The starting slots of a lineup, selected by slot name: every entry
    of [players] except the one under [BENCH]. *)
Definition startingSlots (ps : obj SlotValue) : obj SlotValue :=
  filter (fun kv => negb (String.eqb (fst kv) "BENCH")) ps.

Definition playersIn (v : SlotValue) : list Player :=
  match v with
  | Single p => [p]
  | Many ps => ps
  end.

(** The players in starting slots, in slot order. *)
Definition startingPlayers (ps : obj SlotValue) : list Player :=
  flat_map (fun kv => playersIn (snd kv)) (startingSlots ps).

(** The sum of [projectedPoints], a missing value counting as 0, over
    the players in starting slots. *)
Definition sumOfStarting (ps : obj SlotValue) : float :=
  fold_left (fun sum p => (sum + or_zero (projectedPoints p))%float)
            (startingPlayers ps) 0%float.

(** In a lineup the arrays are exactly the values under [BENCH], so
    that excluding by type and excluding by slot name agree. *)
Definition benchIsTheArray (ps : obj SlotValue) : Prop :=
  forall k v, In (k, v) ps -> (isArray v = true <-> k = "BENCH").

End Spec.

(** ** Sample upstream data *)

Module Samples.
Import JS Model.

(** An ESPN league with one team (id 7): a quarterback, a running
    back, one bench player, a flex player without projection and one
    player on injured reserve (slot 21). *)
Definition espnPlayer (pid : Z) (nm : string) (pos team : Z)
    (projected : option float) : ESPN.RawPlayer :=
  {| ESPN.player_id := pid;
     ESPN.fullName := nm;
     ESPN.defaultPositionId := pos;
     ESPN.proTeamId := team;
     ESPN.player_injuryStatus := Some "ACTIVE";
     ESPN.stats :=
       match projected with
       | Some x =>
           Some [ {| ESPN.statSourceId := 0; ESPN.statSplitTypeId := 1;
                     ESPN.appliedTotal := Some 3%float |};
                  {| ESPN.statSourceId := 1; ESPN.statSplitTypeId := 1;
                     ESPN.appliedTotal := Some x |} ]
       | None => None
       end |}.

Definition espnRoster : list ESPN.Entry :=
  [ {| ESPN.playerId := 101; ESPN.lineupSlotId := 0;
       ESPN.playerPoolEntry_player :=
         espnPlayer 101 "Jalen Hurts" 1 21 (Some 22.5%float) |};
    {| ESPN.playerId := 102; ESPN.lineupSlotId := 1;
       ESPN.playerPoolEntry_player :=
         espnPlayer 102 "Kyren Williams" 2 14 (Some 16.25%float) |};
    {| ESPN.playerId := 103; ESPN.lineupSlotId := 20;
       ESPN.playerPoolEntry_player :=
         espnPlayer 103 "David Montgomery" 2 8 (Some 9.5%float) |};
    {| ESPN.playerId := 104; ESPN.lineupSlotId := 6;
       ESPN.playerPoolEntry_player :=
         espnPlayer 104 "Ladd McConkey" 3 24 None |};
    {| ESPN.playerId := 105; ESPN.lineupSlotId := 21;
       ESPN.playerPoolEntry_player :=
         espnPlayer 105 "Mark Andrews" 4 33 (Some 7.75%float) |} ]%Z.

Definition espnData : ESPN.LeagueData :=
  {| ESPN.league_id := 1;
     ESPN.league_name := "Sunday League";
     ESPN.seasonId := 2025;
     ESPN.scoringPeriodId := 3;
     ESPN.teams :=
       [ {| ESPN.team_id := 7;
            ESPN.team_name := "Gridiron Gang";
            ESPN.owners_displayName := ["manager"];
            ESPN.record_overall := {| wins := 5; losses := 2; ties := 0 |};
            ESPN.roster_entries := espnRoster |} ] |}.

(** A Yahoo roster with two starting running backs, a quarterback and
    a bench player. *)
Definition yahooPlayer (pid nm display selected : string)
    (projected : option float) : Yahoo.RawPlayer :=
  {| Yahoo.player_id := pid;
     Yahoo.name_full := nm;
     Yahoo.display_position := display;
     Yahoo.selected_position := selected;
     Yahoo.editorial_team_abbr := "PHI";
     Yahoo.injury_status := None;
     Yahoo.projected_points_total := projected;
     Yahoo.points_total := None |}.

Definition yahooRB1 : Yahoo.RawPlayer :=
  yahooPlayer "31" "Kyren Williams" "RB" "RB" (Some 16.25%float).

Definition yahooRB2 : Yahoo.RawPlayer :=
  yahooPlayer "32" "Jonathan Taylor" "RB" "RB" (Some 14.5%float).

Definition yahooQB : Yahoo.RawPlayer :=
  yahooPlayer "30" "Jalen Hurts" "QB" "QB" (Some 22.5%float).

Definition yahooBN : Yahoo.RawPlayer :=
  yahooPlayer "33" "David Montgomery" "RB" "BN" (Some 9.5%float).

(** A third running back, projected far above the others. *)
Definition yahooRB3 : Yahoo.RawPlayer :=
  yahooPlayer "34" "Christian McCaffrey" "RB" "RB" (Some 99.5%float).

Definition yahooRoster : list Yahoo.RawPlayer :=
  [ yahooRB1; yahooQB; yahooRB2; yahooBN ].

(** A Sleeper league: one roster, a matchup with nine starters (the
    kicker slot empty) and two bench players. *)
Definition sleeperPlayers (playerId : string) : option Sleeper.RawPlayer :=
  if String.eqb playerId "4046" then
    Some {| Sleeper.full_name := "Jalen Hurts"; Sleeper.raw_position := "QB";
            Sleeper.raw_team := "PHI"; Sleeper.raw_injury_status := None |}
  else if String.eqb playerId "9509" then
    Some {| Sleeper.full_name := "Kyren Williams"; Sleeper.raw_position := "RB";
            Sleeper.raw_team := "LAR";
            Sleeper.raw_injury_status := Some "Questionable" |}
  else if String.eqb playerId "DET" then
    Some {| Sleeper.full_name := "Lions"; Sleeper.raw_position := "DEF";
            Sleeper.raw_team := "DET"; Sleeper.raw_injury_status := None |}
  else if String.eqb playerId "7000" then
    Some {| Sleeper.full_name := "Mark Andrews"; Sleeper.raw_position := "TE";
            Sleeper.raw_team := "BAL"; Sleeper.raw_injury_status := Some "Out" |}
  else None.

Definition sleeperMatchup : Sleeper.Matchup :=
  {| Sleeper.matchup_roster_id := "1";
     Sleeper.starters :=
       [ "4046"; "9509"; "0"; "0"; "0"; "0"; "0"; "0"; "DET"; "7000"; "0" ];
     Sleeper.starters_points :=
       [ 24.5%float; 11.25%float; 0%float; 0%float; 0%float; 0%float;
         0%float; 0%float; 6%float ] |}.

Definition sleeperRostersLeague : list Sleeper.Roster * Sleeper.League :=
  ([ {| Sleeper.roster_id := "1"; Sleeper.owner_id := "u1";
        Sleeper.settings_wins := Some 5%float;
        Sleeper.settings_losses := Some 2%float;
        Sleeper.settings_ties := None;
        Sleeper.roster_players := [ "4046"; "9509"; "DET"; "7000" ] |};
      {| Sleeper.roster_id := "2"; Sleeper.owner_id := "u2";
        Sleeper.settings_wins := None;
        Sleeper.settings_losses := None;
        Sleeper.settings_ties := None;
        Sleeper.roster_players := [] |} ],
   {| Sleeper.league_name := "Sunday League";
      Sleeper.league_season := "2025" |}).

End Samples.

(** ** More vocabulary of the specification *)

Module SpecLineup.
Import JS Model Spec.

(** Every player a lineup holds, starters and bench. *)
Definition allPlayersOf (ps : obj SlotValue) : list Player :=
  flat_map (fun kv => playersIn (snd kv)) ps.

(** The slot the Yahoo adapter writes a selected position to. *)
Definition yahooSlot (selected : string) : string :=
  value_toString (Yahoo.mapYahooLineupPosition selected).

End SpecLineup.

(** ** Relations used in the proofs *)

Module Invariants.
Import JS Model.

(** Two dictionaries with the same keys in the same order that agree
    everywhere except, possibly, at the first entry under [K]. *)
Inductive differ_at {V : Type} (K : string) : obj V -> obj V -> Prop :=
| differ_same o : differ_at K o o
| differ_here v1 v2 o : differ_at K ((K, v1) :: o) ((K, v2) :: o)
| differ_later k v o1 o2 :
    k <> K -> differ_at K o1 o2 -> differ_at K ((k, v) :: o1) ((k, v) :: o2).

(** From index [pos] with input [s] a matcher has moved on to index
    [pos'] with input [s']. *)
Definition forward (pos : nat) (s : string) (pos' : nat) (s' : string)
  : Prop :=
  pos <= pos' /\ String.length s' + (pos' - pos) = String.length s.

(** A matcher that looks at its continuation only where it has moved
    on to. *)
Definition local {R : Type} (m : @Regex.matcher R) : Prop :=
  forall pos s c k1 k2,
    (forall pos' s' c', forward pos s pos' s' -> k1 pos' s' c' = k2 pos' s' c') ->
    m pos s c k1 = m pos s c k2.

(** An entry is an array exactly when it sits under [BENCH]. *)
Definition slot_typed (kv : string * SlotValue) : Prop :=
  isArray (snd kv) = String.eqb (fst kv) "BENCH".

Definition is_single (kv : string * SlotValue) : Prop :=
  isArray (snd kv) = false.

(** Every player of an entry is projected 0. *)
Definition zero_projected (kv : string * SlotValue) : Prop :=
  forall p, In p (Spec.playersIn (snd kv)) -> projectedPoints p = Some 0%float.

(** The Yahoo loop writes roster entry [e] under key [K]. *)
Definition yahoo_writes (e : Yahoo.RawPlayer) (K : string) : Prop :=
  let lineupPosition :=
    Yahoo.mapYahooLineupPosition (Yahoo.selected_position e) in
  truthy lineupPosition && negb (Yahoo.is_BN lineupPosition) = true
  /\ value_toString lineupPosition = K.

End Invariants.

(** ** The ESPN adapter: authenticated page scraping ([ESPNApiService]) *)

Module ESPNWeb.
Import JS Model Regex Web.

(** *** State and effects *)

Record ESPNAuthSession := {
  session_isAuthenticated : bool;
  cookies : string;
  expiresAt : Z;
  username : option string
}.

(** What the service does to the outside, in order: the requests it
    sends and the storage entries it removes. *)
Inductive event :=
| HttpGet (url : string) (headers : list (string * string)) (timeout : Z)
| StorageRemove (key : string).

Definition is_request (e : event) : bool :=
  match e with
  | HttpGet _ _ _ => true
  | StorageRemove _ => false
  end.

(** The service object with its surroundings: [this.authSession],
    the browser's [localStorage], how often the clock has been read,
    and the trace of effects. *)
Record World := {
  authSession : option ESPNAuthSession;
  localStorage : obj string;
  ticks : nat;
  trace : list event
}.

Record Response := { status : Z; data : string }.

(** What the environment answers: the clock at its n-th reading (in
    milliseconds), the calendar year of an instant in the local time
    zone, and the outcome of a GET request. *)
Record Env := {
  clock : nat -> Z;
  fullYear : Z -> Z;
  http_get : string -> list (string * string) -> Z -> result Response
}.

(** A method body: it runs in a world and leaves a world, having
    returned or thrown. *)
Definition M (A : Type) : Type := World -> result A * World.

Definition ret {A} (a : A) : M A := fun w => (Ok a, w).

Definition throw {A} (e : error) : M A := fun w => (Throw e, w).

Definition bindM {A B} (m : M A) (k : A -> M B) : M B :=
  fun w =>
    match m w with
    | (Ok a, w') => k a w'
    | (Throw e, w') => (Throw e, w')
    end.

(** [try { body } catch (error) { handler }]: effects of the body
    stay. *)
Definition tryM {A} (body : M A) (handler : error -> M A) : M A :=
  fun w =>
    match body w with
    | (Ok a, w') => (Ok a, w')
    | (Throw e, w') => handler e w'
    end.

Notation "x <- m ;; k" := (bindM m (fun x => k))
  (at level 61, m at next level, right associativity).

Section Service.
Variable env : Env.

(** [Date.now()], and [new Date()] as its instant. *)
Definition Date_now : M Z :=
  fun w =>
    (Ok (clock env (ticks w)),
     {| authSession := authSession w; localStorage := localStorage w;
        ticks := S (ticks w); trace := trace w |}).

(** [axios.get(url, { headers, timeout })]. *)
Definition axios_get (url : string) (headers : list (string * string))
    (timeout : Z) : M Response :=
  fun w =>
    (http_get env url headers timeout,
     {| authSession := authSession w; localStorage := localStorage w;
        ticks := ticks w;
        trace := (trace w ++ [HttpGet url headers timeout])%list |}).

Definition storageKey : string := "espn_auth_session".

(** [clearSession()]. *)
Definition clearSession : M unit :=
  fun w =>
    (Ok tt,
     {| authSession := None;
        localStorage :=
          filter (fun kv => negb (String.eqb (fst kv) storageKey))
                 (localStorage w);
        ticks := ticks w;
        trace := (trace w ++ [StorageRemove storageKey])%list |}).

(** [isAuthenticated()]. *)
Definition isAuthenticated : M bool :=
  fun w =>
    match authSession w with
    | None => ret false w
    | Some session =>
        (now <- Date_now ;;
         if (expiresAt session <? now)%Z
         then (_ <- clearSession ;; ret false)
         else ret (session_isAuthenticated session)) w
    end.

(** *** Scraped data *)

(** A player literal of the scraping code. *)
Record ScrapedPlayer := {
  sp_id : string;
  sp_name : string;
  sp_position : string;
  sp_team : string;
  sp_points : float;
  sp_projectedPoints : float;
  sp_status : string
}.

(** The team [createMockTeamData] returns. *)
Record MockTeam := {
  mock_id : option string;
  mock_name : string;
  mock_platform : string;
  mock_leagueId : option string;
  mock_season : float;
  mock_record : TeamRecord;
  mock_lineup : obj (list ScrapedPlayer);
  mock_totalProjectedPoints : float
}.

(** The team [parseTeamPage] builds from parsed HTML. *)
Record ScrapedLineup := {
  sl_id : string;
  sl_teamId : string;
  sl_week : Z;
  sl_players : list ScrapedPlayer;
  sl_totalProjectedPoints : float;
  sl_totalActualPoints : float;
  sl_lastUpdated : Z
}.

Record ScrapedTeam := {
  st_id : string;
  st_name : string;
  st_platform : string;
  st_leagueId : string;
  st_leagueName : string;
  st_ownerId : string;
  st_record : TeamRecord;
  st_season : float;
  st_isActive : bool;
  st_lastSyncDate : Z;
  st_lineup : ScrapedLineup
}.

Inductive TeamData :=
| Mock (t : MockTeam)
| Scraped (t : ScrapedTeam).

Definition mockPlayer (i n p t : string) (points projected : float)
  : ScrapedPlayer :=
  {| sp_id := i; sp_name := n; sp_position := p; sp_team := t;
     sp_points := points; sp_projectedPoints := projected;
     sp_status := "active" |}.

(** The template text of an id that may be [null]. *)
Definition show_null (s : option string) : string :=
  match s with
  | Some v => v
  | None => "null"
  end.

(** [createMockTeamData(leagueId, teamId, season)]. *)
Definition createMockTeamData (leagueId teamId : option string)
    (season : string) : MockTeam :=
  {| mock_id := teamId;
     mock_name := "ESPN Team " ++ show_null teamId;
     mock_platform := "ESPN";
     mock_leagueId := leagueId;
     mock_season := parseInt season;
     mock_record := {| wins := 3; losses := 1; ties := 0 |};
     mock_lineup :=
       [ ("QB", [ mockPlayer "1" "Josh Allen" "QB" "BUF" 25.4 22.1 ]);
         ("RB", [ mockPlayer "2" "Christian McCaffrey" "RB" "SF" 18.2 16.8;
                  mockPlayer "3" "Derrick Henry" "RB" "TEN" 15.6 14.2 ]);
         ("WR", [ mockPlayer "4" "Tyreek Hill" "WR" "MIA" 12.8 11.5;
                  mockPlayer "5" "Davante Adams" "WR" "LV" 10.4 9.8 ]);
         ("TE", [ mockPlayer "6" "Travis Kelce" "TE" "KC" 8.2 7.5 ]);
         ("FLEX", []);
         ("K", [ mockPlayer "7" "Justin Tucker" "K" "BAL" 6.0 5.5 ]);
         ("DEF", [ mockPlayer "8" "Buffalo Bills" "D/ST" "BUF" 4.2 3.8 ]);
         ("BENCH", []) ];
     mock_totalProjectedPoints := 90.4 |}.

(** [getMockPlayers()]. *)
Definition getMockPlayers : list ScrapedPlayer :=
  [ mockPlayer "1" "Josh Allen" "QB" "BUF" 25.4 22.1;
    mockPlayer "2" "Christian McCaffrey" "RB" "SF" 18.2 16.8 ].

(** *** Patterns

    In the comments below Q stands for the double quote. *)

Definition Q : ascii := ascii_of_nat 34.

(** [<tag[^>]*class=Q[^Q]*word[^Q]*Q[^>]*>([^<]+)</tag>], flag i. *)
Definition classed_element (tag word : string) : re :=
  seq [ lit_i ("<" ++ tag); star (none_of ">");
        lit_i "class="; chr_i Q; star (none_of Q); lit_i word;
        star (none_of Q); chr_i Q; star (none_of ">"); lit_i ">";
        Grp 1 (plus (none_of "<")); lit_i ("</" ++ tag ++ ">") ].

(** [<tag[^>]*>([^<]+)</tag>], flag i. *)
Definition plain_element (tag : string) : re :=
  seq [ lit_i ("<" ++ tag); star (none_of ">"); lit_i ">";
        Grp 1 (plus (none_of "<")); lit_i ("</" ++ tag ++ ">") ].

(** [QkeyQ:Q([^Q]+)Q], flag i. *)
Definition json_string_field (key : string) : re :=
  seq [ chr_i Q; lit_i key; chr_i Q; lit_i ":"; chr_i Q;
        Grp 1 (plus (none_of Q)); chr_i Q ].

(** The patterns of [extractTeamName], in order. *)
Definition teamNamePatterns : list re :=
  [ classed_element "span" "teamName";
    classed_element "div" "teamName";
    classed_element "h1" "teamName";
    plain_element "title";
    classed_element "h1" "team-name";
    plain_element "h1";
    json_string_field "teamName";
    json_string_field "name" ].

(** The clean-up of a team name: three [replace] calls. *)
Definition cleanName (name : string) : string :=
  let name := Regex.replace (seq [Bol; lit "Fantasy Football - "]) "" name in
  let name := Regex.replace (seq [lit " - ESPN"; Eol]) "" name in
  Regex.replace (seq [Bol; lit "ESPN Fantasy Football - "]) "" name.

(** [extractTeamName(html)]. *)
Fixpoint firstTeamName (patterns : list re) (html : string) : string :=
  match patterns with
  | [] => "ESPN Team"
  | pattern :: rest =>
      match exec pattern html with
      | Some m =>
          match group m 1 with
          | Some ((String _ _) as text) =>
              match cleanName (Str.trim text) with
              | EmptyString => firstTeamName rest html
              | name => name
              end
          | _ => firstTeamName rest html
          end
      | None => firstTeamName rest html
      end
  end.

Definition extractTeamName (html : string) : string :=
  firstTeamName teamNamePatterns html.

(** [QkeyQ:\s*(\d+)]. *)
Definition json_count (key : string) (i : nat) : re :=
  seq [ chr_i Q; lit_i key; chr_i Q; lit_i ":"; star space;
        Grp i (plus digit) ].

(** The patterns of [extractRecord], in order; all with flag i. *)
Definition recordPatterns : list re :=
  [ classed_element "span" "team-record";
    classed_element "div" "team-record";
    seq [ chr_i Q; lit_i "record"; chr_i Q; lit_i ":"; star space;
          lit_i "{"; star space; json_count "wins" 1; lit_i ","; star space;
          json_count "losses" 2; lit_i ","; star space; json_count "ties" 3 ];
    seq [ json_count "wins" 1; star_lazy dot; json_count "losses" 2;
          star_lazy dot; json_count "ties" 3 ] ].

(** [parseInt(s) || 0] for a group or a piece that may be missing. *)
Definition count_of (s : option string) : float :=
  match s with
  | Some text => number_or_zero (parseInt text)
  | None => 0%float
  end.

(** [extractRecord(html)]. *)
Fixpoint firstRecord (patterns : list re) (html : string) : TeamRecord :=
  match patterns with
  | [] => {| wins := 3; losses := 1; ties := 0 |}
  | pattern :: rest =>
      match exec pattern html with
      | Some m =>
          if Nat.eqb (S (group_count pattern)) 4 then
            {| wins := count_of (group m 1);
               losses := count_of (group m 2);
               ties := count_of (group m 3) |}
          else
            match group m 1 with
            | Some ((String _ _) as text) =>
                let parts := Str.split "-" (Str.trim text) in
                if (2 <=? List.length parts)%nat then
                  {| wins := count_of (nth_error parts 0);
                     losses := count_of (nth_error parts 1);
                     ties :=
                       match nth_error parts 2 with
                       | Some ((String _ _) as t) => count_of (Some t)
                       | _ => 0%float
                       end |}
                else firstRecord rest html
            | _ => firstRecord rest html
            end
      | None => firstRecord rest html
      end
  end.

Definition extractRecord (html : string) : TeamRecord :=
  firstRecord recordPatterns html.

(** [(QB|RB|WR|TE|FLEX|D/ST|WR/TE)] as group 1, flag i. *)
Definition positionToken : re :=
  Grp 1 (alt [ lit_i "QB"; lit_i "RB"; lit_i "WR"; lit_i "TE"; lit_i "FLEX";
               lit_i "D/ST"; lit_i "WR/TE" ]).

(** [(\d+\.\d+)], used with flag g. *)
Definition decimalPattern : re :=
  Grp 1 (seq [ plus digit; lit "."; plus digit ]).

Definition playerNames : list string :=
  [ "Jalen Hurts"; "Kyler Murray"; "Kyren Williams"; "Ladd McConkey";
    "Marvin Harrison Jr."; "Christian McCaffrey"; "Jonathan Taylor";
    "David Montgomery"; "Mark Andrews"; "Lions" ].

(** [new RegExp(escaped(playerName), 'gi')]: the name with its special
    characters escaped matches itself, whatever the case. *)
Definition namePattern (playerName : string) : re := lit_i playerName.

(** [new RegExp(`.{0,500}${escaped(playerName)}.{0,500}`, 'gi')]. *)
Definition contextPattern (playerName : string) : re :=
  seq [ between 0 500 dot; lit_i playerName; between 0 500 dot ].

(** [(?:<[^>]*>)?(QB|...)(?:</[^>]*>)?], flag i. *)
Definition contextPosition : re :=
  seq [ opt (seq [ lit_i "<"; star (none_of ">"); lit_i ">" ]);
        positionToken;
        opt (seq [ lit_i "</"; star (none_of ">"); lit_i ">" ]) ].

(** [(?:<[^>]*>)?([A-Z]{2,4})(?:</[^>]*>)?]. *)
Definition contextTeam : re :=
  seq [ opt (seq [ lit "<"; star (none_of ">"); lit ">" ]);
        Grp 1 (between 2 4 upper);
        opt (seq [ lit "</"; star (none_of ">"); lit ">" ]) ].

(** The first loop of [extractPlayers]: one probe per known name. *)
Definition probeName (html : string) (players : list ScrapedPlayer)
    (playerName : string) : list ScrapedPlayer :=
  match matchAll (namePattern playerName) html with
  | [] => players
  | _ :: _ =>
      match matchAll (contextPattern playerName) html with
      | [] => players
      | context :: _ =>
          let position :=
            match exec contextPosition context with
            | Some m => match group m 1 with Some p => p | None => "UNK" end
            | None => "UNK"
            end in
          let team :=
            match exec contextTeam context with
            | Some m => match group m 1 with Some t => t | None => "UNK" end
            | None => "UNK"
            end in
          let '(projectedPoints, actualPoints) :=
            match matchAll decimalPattern context with
            | [] => (0%float, 0%float)
            | first :: others =>
                (number_or_zero (parseFloat first),
                 match others with
                 | second :: _ => number_or_zero (parseFloat second)
                 | [] => 0%float
                 end)
            end in
          (players ++
           [ {| sp_id := "espn_" ++ Z_toString
                                      (Z.of_nat (List.length players) + 1);
                sp_name := playerName;
                sp_position := position;
                sp_team := team;
                sp_points := actualPoints;
                sp_projectedPoints := projectedPoints;
                sp_status := "active" |} ])%list
      end
  end.

Definition nameProbePlayers (html : string) : list ScrapedPlayer :=
  fold_left (probeName html) playerNames [].

(** [<tr[^>]*class=Q[^Q]*Table__TR[^Q]*Q[^>]*>(.*?)</tr>], flags gs. *)
Definition tableRowPattern : re :=
  seq [ lit "<tr"; star (none_of ">"); lit "class="; chr Q;
        star (none_of Q); lit "Table__TR"; star (none_of Q); chr Q;
        star (none_of ">"); lit ">"; Grp 1 (star_lazy dot_all);
        lit "</tr>" ].

(** [<a[^>]*>([^<]+)</a>]. *)
Definition anchorPattern : re :=
  seq [ lit "<a"; star (none_of ">"); lit ">"; Grp 1 (plus (none_of "<"));
        lit "</a>" ].

(** [(?:<div[^>]*>)?(QB|...)(?:</div>)?], flag i. *)
Definition rowPosition : re :=
  seq [ opt (seq [ lit_i "<div"; star (none_of ">"); lit_i ">" ]);
        positionToken; opt (lit_i "</div>") ].

(** [(?:<span[^>]*>)?([A-Z]{2,4})(?:</span>)?]. *)
Definition rowTeam : re :=
  seq [ opt (seq [ lit "<span"; star (none_of ">"); lit ">" ]);
        Grp 1 (between 2 4 upper); opt (lit "</span>") ].

(** The second loop of [extractPlayers]: one table row. *)
Definition readRow (players : list ScrapedPlayer) (row : string)
  : list ScrapedPlayer :=
  if Str.includes "STARTERS" row || Str.includes "TOTALS" row
     || Str.includes "Bench" row || Str.includes "IR" row
  then players
  else
    match exec anchorPattern row with
    | None => players
    | Some nameMatch =>
        let playerName :=
          Str.trim (match group nameMatch 1 with Some n => n | None => "" end) in
        let position :=
          match exec rowPosition row with
          | Some m => match group m 1 with Some p => p | None => "UNK" end
          | None => "UNK"
          end in
        let team :=
          match exec rowTeam row with
          | Some m => match group m 1 with Some t => t | None => "UNK" end
          | None => "UNK"
          end in
        let pointsMatch := matchAll decimalPattern row in
        let projectedPoints :=
          match pointsMatch with
          | first :: _ => parseFloat first
          | [] => 0%float
          end in
        let actualPoints :=
          match pointsMatch with
          | _ :: second :: _ => parseFloat second
          | _ => 0%float
          end in
        (players ++
         [ {| sp_id := "espn_" ++ Z_toString
                                    (Z.of_nat (List.length players) + 1);
              sp_name := playerName;
              sp_position := position;
              sp_team := team;
              sp_points := actualPoints;
              sp_projectedPoints := projectedPoints;
              sp_status := "active" |} ])%list
    end.

Definition tableRowPlayers (html : string) : list ScrapedPlayer :=
  fold_left readRow (matchAll tableRowPattern html) [].

(** [extractPlayers(html)]: the known names first, then the table
    rows, then the mock players. *)
Definition extractPlayers (html : string) : list ScrapedPlayer :=
  match nameProbePlayers html with
  | p :: ps => p :: ps
  | [] =>
      match tableRowPlayers html with
      | p :: ps => p :: ps
      | [] => getMockPlayers
      end
  end.

(** [window\.NAME\s*=\s*({.*?});]. *)
Definition statePattern (variable : string) : re :=
  seq [ lit ("window." ++ variable); star space; lit "="; star space;
        Grp 1 (seq [ lit "{"; star_lazy dot; lit "}" ]); lit ";" ].

(** [extractJSONData(html)]: [None] is [null]; a blob that does not
    parse throws inside the [try] and gives [null] as well. *)
Definition extractJSONData (html : string) : option string :=
  match exec (statePattern "__INITIAL_STATE__") html with
  | Some m =>
      match JSON_parse (match group m 1 with Some t => t | None => "" end) with
      | Ok json => Some json
      | Throw _ => None
      end
  | None =>
      match exec (statePattern "__APP_DATA__") html with
      | Some m =>
          match JSON_parse (match group m 1 with Some t => t | None => "" end)
          with
          | Ok json => Some json
          | Throw _ => None
          end
      | None => None
      end
  end.

Definition rename (t : MockTeam) (name : string) : MockTeam :=
  {| mock_id := mock_id t; mock_name := name;
     mock_platform := mock_platform t; mock_leagueId := mock_leagueId t;
     mock_season := mock_season t; mock_record := mock_record t;
     mock_lineup := mock_lineup t;
     mock_totalProjectedPoints := mock_totalProjectedPoints t |}.

(** [parseJSONTeamData(jsonData, leagueId, teamId, season, teamName)]:
    mock data under the real team name. *)
Definition parseJSONTeamData (jsonData leagueId teamId season teamName : string)
  : MockTeam :=
  let mockData := createMockTeamData (Some leagueId) (Some teamId) season in
  rename mockData (string_or (Some teamName) (mock_name mockData)).

Definition sumPoints (f : ScrapedPlayer -> float) (players : list ScrapedPlayer)
  : float :=
  fold_left (fun sum player => (sum + number_or_zero (f player))%float)
            players 0%float.

(** [parseTeamPage(html, leagueId, teamId, season)]. *)
Definition parseTeamPage (html leagueId teamId season : string) : M TeamData :=
  let teamName := extractTeamName html in
  let record := extractRecord html in
  let players := extractPlayers html in
  let jsonData := extractJSONData html in
  match jsonData with
  | Some json =>
      ret (Mock (parseJSONTeamData json leagueId teamId season teamName))
  | None =>
      if (0 <? List.length players)%nat
         && negb (String.eqb teamName "ESPN Team")
      then
        lastSyncDate <- Date_now ;;
        lastUpdated <- Date_now ;;
        ret (Scraped
               {| st_id := "espn_" ++ teamId;
                  st_name := teamName;
                  st_platform := "ESPN";
                  st_leagueId := leagueId;
                  st_leagueName := "ESPN League " ++ leagueId;
                  st_ownerId := "current_user";
                  st_record := record;
                  st_season := parseInt season;
                  st_isActive := true;
                  st_lastSyncDate := lastSyncDate;
                  st_lineup :=
                    {| sl_id := "lineup_" ++ teamId;
                       sl_teamId := "espn_" ++ teamId;
                       sl_week := 1;
                       sl_players := players;
                       sl_totalProjectedPoints :=
                         sumPoints sp_projectedPoints players;
                       sl_totalActualPoints := sumPoints sp_points players;
                       sl_lastUpdated := lastUpdated |} |})
      else
        let mockData := createMockTeamData (Some leagueId) (Some teamId) season in
        ret (Mock (rename mockData
                     (if negb (String.eqb teamName "ESPN Team")
                      then teamName else mock_name mockData)))
  end.

(** *** [getTeamFromUrl] *)

Definition userAgent : string :=
  "Mozilla/5.0 (Windows NT 10.0; Win64; x64) AppleWebKit/537.36 (KHTML, like Gecko) Chrome/91.0.4472.124 Safari/537.36".

(** [urlParams.get(name)] on [teamUrl.split('?')[1]]. *)
Definition urlParam (teamUrl name : string) : option string :=
  params_get (URLSearchParams (nth_error (Str.split "?" teamUrl) 1)) name.

Definition falsy (s : option string) : bool :=
  match s with
  | Some (String _ _) => false
  | _ => true
  end.

(** [urlParams.get('season') || new Date().getFullYear().toString()]. *)
Definition seasonOf (teamUrl : string) : M string :=
  match urlParam teamUrl "season" with
  | Some ((String _ _) as season) => ret season
  | _ => now <- Date_now ;; ret (Z_toString (fullYear env now))
  end.

(** [this.authSession!.cookies]. *)
Definition sessionCookies : M string :=
  fun w =>
    match authSession w with
    | Some session => ret (cookies session) w
    | None =>
        throw (Error_ "TypeError"
                 "Cannot read properties of null (reading 'cookies')") w
    end.

(** The [try] block of [getTeamFromUrl]. *)
Definition fetchAndParse (teamUrl : string) : M TeamData :=
  let leagueId := urlParam teamUrl "leagueId" in
  let teamId := urlParam teamUrl "teamId" in
  season <- seasonOf teamUrl ;;
  match leagueId, teamId with
  | Some ((String _ _) as leagueId), Some ((String _ _) as teamId) =>
      let teamPageUrl :=
        "https://fantasy.espn.com/football/team?leagueId=" ++ leagueId
        ++ "&teamId=" ++ teamId ++ "&season=" ++ season in
      sessionCookie <- sessionCookies ;;
      response <-
        tryM (axios_get ("https://cors-anywhere.herokuapp.com/" ++ teamPageUrl)
                [ ("X-Requested-With", "XMLHttpRequest");
                  ("Cookie", sessionCookie);
                  ("User-Agent", userAgent) ]
                15000)
             (fun corsError =>
                axios_get ("https://api.allorigins.win/raw?url="
                           ++ encodeURIComponent teamPageUrl)
                  [ ("User-Agent", userAgent) ]
                  15000) ;;
      if Str.includes "<!DOCTYPE" (data response)
         && (Str.includes "login" (data response)
             || Str.includes "signin" (data response))
      then throw (mkError
                    "Authentication failed - got login page instead of team data")
      else parseTeamPage (data response) leagueId teamId season
  | _, _ =>
      throw (mkError
               "Invalid ESPN team URL. Must contain leagueId and teamId parameters.")
  end.

(** The [catch] block of [getTeamFromUrl]: mock data. *)
Definition fallBack (teamUrl : string) (error : error) : M TeamData :=
  let leagueId := urlParam teamUrl "leagueId" in
  let teamId := urlParam teamUrl "teamId" in
  season <- seasonOf teamUrl ;;
  ret (Mock (createMockTeamData leagueId teamId season)).

(** [getTeamFromUrl(teamUrl)]. The first call of [isAuthenticated] is
    the one in the argument of [console.log]. *)
Definition getTeamFromUrl (teamUrl : string) : M TeamData :=
  _ <- isAuthenticated ;;
  authenticated <- isAuthenticated ;;
  if negb authenticated
  then throw (mkError "Not authenticated with ESPN. Please log in first.")
  else tryM (fetchAndParse teamUrl) (fallBack teamUrl).

End Service.

End ESPNWeb.

(** ** Vocabulary for the scraped platform *)

Module SpecWeb.
Import JS Model Web ESPNWeb.

(** The world after one reading of the clock. *)
Definition ticked (w : World) : World :=
  {| authSession := authSession w; localStorage := localStorage w;
     ticks := S (ticks w); trace := trace w |}.

(** The world after an expired session has been noticed: the clock
    was read, the session and its storage entry are gone. *)
Definition cleared (w : World) : World :=
  {| authSession := None;
     localStorage :=
       filter (fun kv => negb (String.eqb (fst kv) storageKey))
              (localStorage w);
     ticks := S (ticks w);
     trace := (trace w ++ [StorageRemove storageKey])%list |}.

(** How often the trace removes the stored session. *)
Definition clearings (w : World) : nat :=
  List.length (filter (fun e => negb (is_request e)) (trace w)).

(** The requests of a trace. *)
Definition requests (w : World) : list event :=
  filter is_request (trace w).

(** A session that passes both checks [getTeamFromUrl] makes, at the
    clock readings [ticks w] and [ticks w + 1]. *)
Definition validSession (env : Env) (w : World) (s : ESPNAuthSession) : Prop :=
  authSession w = Some s
  /\ session_isAuthenticated s = true
  /\ (clock env (ticks w) <= expiresAt s)%Z
  /\ (clock env (S (ticks w)) <= expiresAt s)%Z.

(** The team page address the adapter builds. *)
Definition teamPageUrl (leagueId teamId season : string) : string :=
  "https://fantasy.espn.com/football/team?leagueId=" ++ leagueId
  ++ "&teamId=" ++ teamId ++ "&season=" ++ season.

(** What the two proxies, tried in order, answer for a page. *)
Definition answer (env : Env) (pageUrl cookie : string) : result Response :=
  match http_get env ("https://cors-anywhere.herokuapp.com/" ++ pageUrl)
          [ ("X-Requested-With", "XMLHttpRequest"); ("Cookie", cookie);
            ("User-Agent", userAgent) ] 15000 with
  | Ok response => Ok response
  | Throw _ =>
      http_get env ("https://api.allorigins.win/raw?url="
                    ++ encodeURIComponent pageUrl)
        [ ("User-Agent", userAgent) ] 15000
  end.

(** The season [getTeamFromUrl] uses when the clock stands at its
    n-th reading: the one in the address, else the current year. *)
Definition seasonAt (env : Env) (teamUrl : string) (n : nat) : string :=
  match urlParam teamUrl "season" with
  | Some ((String _ _) as season) => season
  | _ => Z_toString (fullYear env (clock env n))
  end.

(** The test the adapter applies to a response: an HTML document that
    mentions [login] or [signin]. *)
Definition looksLikeLoginPage (html : string) : bool :=
  Str.includes "<!DOCTYPE" html
  && (Str.includes "login" html || Str.includes "signin" html).

(** The players of a scraped team; a mock team has none. *)
Definition scrapedPlayers (t : TeamData) : option (list ScrapedPlayer) :=
  match t with
  | Scraped s => Some (sl_players (st_lineup s))
  | Mock _ => None
  end.


End SpecWeb.

(** ** Sample pages and sessions *)

Module SamplesWeb.
Import JS Model Web ESPNWeb.

Definition q : string := dquote.

(** A team page (its document type in lower case, as HTML5 pages
    often have it) with a title, a record, two roster rows, the second
    with the name of a known player, and a link to the login route. *)
Definition teamPage : string :=
  "<!doctype html><html><head>"
  ++ "<title>Fantasy Football - Gridiron Gang - ESPN</title></head>"
  ++ "<body><span class=" ++ q ++ "team-record" ++ q ++ ">5-2</span><table>"
  ++ "<tr class=" ++ q ++ "Table__TR Table__even" ++ q ++ "><td><a href="
  ++ q ++ "/p/1" ++ q ++ ">Patrick Mahomes</a></td><td><div>QB</div>"
  ++ "<span>KC</span></td><td>21.5</td><td>18.25</td></tr>"
  ++ "<tr class=" ++ q ++ "Table__TR" ++ q ++ "><td><a>Detroit Lions</a></td>"
  ++ "<td>D/ST DET 7.5</td></tr></table>"
  ++ "<a href=" ++ q ++ "/login" ++ q ++ ">Log out</a></body></html>".



(** A page with nothing to extract. *)
Definition emptyPage : string := "<html><body>maintenance</body></html>".


(** The login page ESPN redirects to. *)
Definition loginPage : string :=
  "<!DOCTYPE html><html><head><title>Log In</title></head><body>"
  ++ "<form action=" ++ q ++ "/login" ++ q ++ "></form></body></html>".

Definition session : ESPNAuthSession :=
  {| session_isAuthenticated := true; cookies := "espn_s2=abc";
     expiresAt := 5000; username := Some "manager" |}.

Definition teamUrl : string :=
  "https://fantasy.espn.com/football/team?leagueId=45&teamId=7&season=2025".

(** A world with a session that is valid at time 1000. *)
Definition loggedIn : World :=
  {| authSession := Some session;
     localStorage := [("espn_auth_session", "saved")];
     ticks := 0; trace := [] |}.

(** The first proxy is down; the second one answers with [page]. *)
Definition envWith (start : Z) (page : string) : Env :=
  {| clock := fun n => (start + Z.of_nat n)%Z;
     fullYear := fun _ => 2025%Z;
     http_get := fun url _ _ =>
       if Str.startsWith "https://cors-anywhere" url
       then Throw (Error_ "AxiosError" "Network Error")
       else Ok {| status := 200; data := page |} |}.

End SamplesWeb.

(** ** The dispatcher ([UnifiedApiService]) *)

Module Unified.
Import JS Model.

Record FantasyTeam := {
  ft_id : string;
  ft_name : option string;
  ft_platform : string;
  ft_leagueId : string;
  ft_leagueName : string;
  ft_ownerId : string;
  ft_record : TeamRecord;
  ft_season : float;
  ft_isActive : bool;
  ft_lastSyncDate : Z
}.

Record ConnectionResult := {
  success : bool;
  cr_platform : string;
  cr_teams : list FantasyTeam;
  cr_error : option string
}.

(** The three adapter objects the dispatcher holds, as the methods it
    calls on them. The Yahoo methods are given the access token the
    service holds at that moment. *)
Record Services := {
  espn_getLeague : string -> option string -> result ESPN.ESPNLeague;
  espn_getTeamLineup : string -> string -> Z -> float -> result Lineup;
  espn_updateLineup :
    string -> string -> Z -> option (obj SlotValue) -> result bool;
  yahoo_getUserLeagues : option string -> result (list Yahoo.YahooLeague);
  yahoo_getTeamLineup :
    option string -> string -> string -> Z -> float -> result Lineup;
  yahoo_updateLineup :
    option string -> string -> string -> Z -> option (obj SlotValue)
    -> result bool;
  sleeper_getLeague : string -> result Sleeper.SleeperLeague;
  sleeper_getTeamLineup : string -> string -> Z -> result Lineup;
  sleeper_updateLineup :
    string -> string -> Z -> option (obj SlotValue) -> result bool
}.

(** [ApiCredentials]: an open map; the values come from form fields. *)
Definition ApiCredentials := obj string.

Definition falsy (s : option string) : bool :=
  match s with
  | Some (String _ _) => false
  | _ => true
  end.

Section Dispatcher.
Variable svc : Services.

(** The instant [new Date()] gives. *)
Variable now : Z.

(** [connectESPN(credentials)]. *)
Definition connectESPN (credentials : ApiCredentials)
  : result ConnectionResult :=
  match obj_get credentials "leagueId", obj_get credentials "teamId" with
  | Some ((String _ _) as leagueId), Some ((String _ _) as teamId) =>
      try_catch
        (bind (espn_getLeague svc leagueId (obj_get credentials "season"))
           (fun league =>
              match find (fun t => String.eqb (ESPN.et_id t) teamId)
                         (ESPN.el_teams league) with
              | None =>
                  Throw (mkError ("Team " ++ teamId ++ " not found in league "
                                  ++ leagueId))
              | Some team =>
                  Ok {| success := true;
                        cr_platform := "ESPN";
                        cr_teams :=
                          [ {| ft_id := "espn-" ++ teamId;
                               ft_name := Some (ESPN.et_name team);
                               ft_platform := "ESPN";
                               ft_leagueId := leagueId;
                               ft_leagueName := ESPN.el_name league;
                               ft_ownerId := "user-1";
                               ft_record := ESPN.et_record team;
                               ft_season := ESPN.el_season league;
                               ft_isActive := true;
                               ft_lastSyncDate := now |} ];
                        cr_error := None |}
              end))
        (fun error =>
           Throw (mkError ("ESPN connection failed: " ++ error_toString error)))
  | _, _ => Throw (mkError "ESPN requires league ID and team ID")
  end.

(** [connectYahoo(credentials)], with the token the Yahoo service
    holds afterwards. *)
Definition connectYahoo (credentials : ApiCredentials) (token : option string)
  : result ConnectionResult * option string :=
  match obj_get credentials "accessToken" with
  | Some ((String _ _) as accessToken) =>
      let leagueId := obj_get credentials "leagueId" in
      let teamId := obj_get credentials "teamId" in
      (try_catch
         (bind (yahoo_getUserLeagues svc (Some accessToken)) (fun leagues =>
            match leagueId with
            | None =>
                Throw (mkError ("League " ++ key_of_optional leagueId
                                ++ " not found"))
            | Some lid =>
                match find (fun l => String.eqb (Yahoo.yl_league_id l) lid)
                           leagues with
                | None => Throw (mkError ("League " ++ lid ++ " not found"))
                | Some league =>
                    match teamId with
                    | None =>
                        Throw (mkError ("Team " ++ key_of_optional teamId
                                        ++ " not found in league " ++ lid))
                    | Some tid =>
                        match find (fun t =>
                                      String.eqb (Yahoo.yt_team_id t) tid)
                                   (Yahoo.yl_teams league) with
                        | None =>
                            Throw (mkError ("Team " ++ tid
                                            ++ " not found in league " ++ lid))
                        | Some team =>
                            Ok {| success := true;
                                  cr_platform := "Yahoo";
                                  cr_teams :=
                                    [ {| ft_id := "yahoo-" ++ tid;
                                         ft_name := Some (Yahoo.yt_name team);
                                         ft_platform := "Yahoo";
                                         ft_leagueId := lid;
                                         ft_leagueName := Yahoo.yl_name league;
                                         ft_ownerId := "user-1";
                                         ft_record := Yahoo.yt_record team;
                                         ft_season := Yahoo.yl_season league;
                                         ft_isActive := true;
                                         ft_lastSyncDate := now |} ];
                                  cr_error := None |}
                        end
                    end
                end
            end))
         (fun error =>
            Throw (mkError ("Yahoo connection failed: "
                            ++ error_toString error))),
       Some accessToken)
  | _ => (Throw (mkError "Yahoo requires access token"), token)
  end.

(** [connectSleeper(credentials)]. *)
Definition connectSleeper (credentials : ApiCredentials)
  : result ConnectionResult :=
  match obj_get credentials "leagueId", obj_get credentials "teamId" with
  | Some ((String _ _) as leagueId), Some ((String _ _) as teamId) =>
      try_catch
        (bind (sleeper_getLeague svc leagueId) (fun league =>
           match find (fun t => String.eqb (Sleeper.tm_team_id t) teamId)
                      (Sleeper.lg_teams league) with
           | None =>
               Throw (mkError ("Team " ++ teamId ++ " not found in league "
                               ++ leagueId))
           | Some team =>
               Ok {| success := true;
                     cr_platform := "Sleeper";
                     cr_teams :=
                       [ {| ft_id := "sleeper-" ++ teamId;
                            ft_name := Sleeper.tm_name team;
                            ft_platform := "Sleeper";
                            ft_leagueId := leagueId;
                            ft_leagueName := Sleeper.lg_name league;
                            ft_ownerId := "user-1";
                            ft_record := Sleeper.tm_record team;
                            ft_season := parseInt (Sleeper.lg_season league);
                            ft_isActive := true;
                            ft_lastSyncDate := now |} ];
                     cr_error := None |}
           end))
        (fun error =>
           Throw (mkError ("Sleeper connection failed: "
                           ++ error_toString error)))
  | _, _ => Throw (mkError "Sleeper requires league ID and team ID")
  end.

(** The [try] block of [connectPlatform]: the [switch]. *)
Definition connect (platform : string) (credentials : ApiCredentials)
    (token : option string) : result ConnectionResult * option string :=
  let tag := Str.toLowerCase platform in
  if String.eqb tag "espn" then (connectESPN credentials, token)
  else if String.eqb tag "yahoo" then connectYahoo credentials token
  else if String.eqb tag "sleeper" then (connectSleeper credentials, token)
  else (Throw (mkError ("Unsupported platform: " ++ platform)), token).

(** [connectPlatform(platform, credentials)]. *)
Definition connectPlatform (platform : string) (credentials : ApiCredentials)
    (token : option string) : result ConnectionResult * option string :=
  let '(outcome, token') := connect platform credentials token in
  (try_catch outcome
     (fun error =>
        Ok {| success := false;
              cr_platform := platform;
              cr_teams := [];
              cr_error := Some (err_message error) |}),
   token').

(** [getTeamLineup(team, week)]. *)
Definition getTeamLineup (token : option string) (team : FantasyTeam)
    (week : Z) : result Lineup :=
  let platform := ft_platform team in
  if String.eqb platform "ESPN" then
    espn_getTeamLineup svc (ft_leagueId team)
                       (Str.replace "espn-" "" (ft_id team)) week
                       (ft_season team)
  else if String.eqb platform "Yahoo" then
    yahoo_getTeamLineup svc token (ft_leagueId team)
                        (Str.replace "yahoo-" "" (ft_id team)) week
                        (ft_season team)
  else if String.eqb platform "Sleeper" then
    sleeper_getTeamLineup svc (ft_leagueId team)
                          (Str.replace "sleeper-" "" (ft_id team)) week
  else Throw (mkError ("Unsupported platform: " ++ platform)).

(** [updateTeamLineup(team, week, lineup)]. *)
Definition updateTeamLineup (token : option string) (team : FantasyTeam)
    (week : Z) (lineup : option (obj SlotValue)) : result bool :=
  let platform := ft_platform team in
  if String.eqb platform "ESPN" then
    espn_updateLineup svc (ft_leagueId team)
                      (Str.replace "espn-" "" (ft_id team)) week lineup
  else if String.eqb platform "Yahoo" then
    yahoo_updateLineup svc token (ft_leagueId team)
                       (Str.replace "yahoo-" "" (ft_id team)) week lineup
  else if String.eqb platform "Sleeper" then
    sleeper_updateLineup svc (ft_leagueId team)
                         (Str.replace "sleeper-" "" (ft_id team)) week lineup
  else Throw (mkError ("Unsupported platform: " ++ platform)).

End Dispatcher.

(** *** The adapters over a network *)

(** What the upstream hosts answer to each request the adapters
    send. *)
Record Network := {
  espn_league : string -> option string -> result ESPN.LeagueData;
  espn_roster : string -> float -> Z -> result ESPN.LeagueData;
  yahoo_leagues : option string -> result (list Yahoo.RawLeague);
  yahoo_roster :
    option string -> string -> string -> Z -> result (list Yahoo.RawPlayer);
  yahoo_put :
    option string -> string -> string -> list (string * value) -> result Z;
  sleeper_league_rosters_users :
    string -> result (Sleeper.League * list Sleeper.Roster * list Sleeper.User);
  sleeper_rosters_league :
    string -> result (list Sleeper.Roster * Sleeper.League);
  sleeper_matchups : string -> Z -> result (list Sleeper.Matchup);
  sleeper_players : result (string -> option Sleeper.RawPlayer);
  sleeper_put : string -> string -> list string -> result Z;
  current_year : float;
  current_time : Z
}.

(** The singletons [espnApi], [yahooApi] and [sleeperApi] on a
    network. *)
Definition servicesOn (net : Network) : Services :=
  {| espn_getLeague := fun leagueId season =>
       ESPN.getLeague (espn_league net leagueId season) leagueId;
     espn_getTeamLineup := fun leagueId teamId week season =>
       ESPN.getTeamLineup (espn_roster net leagueId season week)
                          (current_time net) leagueId teamId week season;
     espn_updateLineup := ESPN.updateLineup;
     yahoo_getUserLeagues := fun token =>
       Yahoo.getUserLeagues (yahoo_leagues net token) (current_year net);
     yahoo_getTeamLineup := fun token leagueId teamId week season =>
       Yahoo.getTeamLineup (yahoo_roster net token leagueId teamId week)
                           (current_time net) leagueId teamId week season;
     yahoo_updateLineup := fun token leagueId teamId =>
       Yahoo.updateLineup (yahoo_put net token leagueId teamId) leagueId teamId;
     sleeper_getLeague := fun leagueId =>
       Sleeper.getLeague (sleeper_league_rosters_users net leagueId)
                         (sleeper_players net) leagueId;
     sleeper_getTeamLineup := fun leagueId teamId week =>
       Sleeper.getTeamLineup (sleeper_rosters_league net leagueId)
                             (sleeper_matchups net leagueId week)
                             (sleeper_players net) (current_time net)
                             leagueId teamId week;
     sleeper_updateLineup := fun leagueId teamId =>
       Sleeper.updateLineup (sleeper_put net leagueId teamId) leagueId teamId |}.

End Unified.

(** ** Sample networks *)

Module SamplesNet.
Import JS Model Unified.

(** Every request fails with the error axios reports when the host
    cannot be reached. *)
Definition networkError : error := Error_ "AxiosError" "Network Error".

Definition offline : Network :=
  {| espn_league := fun _ _ => Throw networkError;
     espn_roster := fun _ _ _ => Throw networkError;
     yahoo_leagues := fun _ => Throw networkError;
     yahoo_roster := fun _ _ _ _ => Throw networkError;
     yahoo_put := fun _ _ _ _ => Throw networkError;
     sleeper_league_rosters_users := fun _ => Throw networkError;
     sleeper_rosters_league := fun _ => Throw networkError;
     sleeper_matchups := fun _ _ => Throw networkError;
     sleeper_players := Throw networkError;
     sleeper_put := fun _ _ _ => Throw networkError;
     current_year := 2025;
     current_time := 1000 |}.

(** Every request is answered with the sample data. *)
Definition online : Network :=
  {| espn_league := fun _ _ => Ok Samples.espnData;
     espn_roster := fun _ _ _ => Ok Samples.espnData;
     yahoo_leagues := fun _ =>
       Ok [ {| Yahoo.raw_league_id := "L1";
               Yahoo.raw_league_name := "Sunday League";
               Yahoo.raw_teams :=
                 [ {| Yahoo.raw_team_id := "7";
                      Yahoo.raw_team_name := "Gridiron Gang";
                      Yahoo.managers_nickname := ["manager"];
                      Yahoo.outcome_wins := "5";
                      Yahoo.outcome_losses := "2";
                      Yahoo.outcome_ties := "0" |} ] |} ];
     yahoo_roster := fun _ _ _ _ => Ok Samples.yahooRoster;
     yahoo_put := fun _ _ _ _ => Ok 200%Z;
     sleeper_league_rosters_users := fun _ =>
       Ok (snd Samples.sleeperRostersLeague, fst Samples.sleeperRostersLeague,
           [ {| Sleeper.user_id := "u1";
                Sleeper.display_name := Some "manager";
                Sleeper.user_username := Some "mgr" |} ]);
     sleeper_rosters_league := fun _ => Ok Samples.sleeperRostersLeague;
     sleeper_matchups := fun _ _ => Ok [Samples.sleeperMatchup];
     sleeper_players := Ok Samples.sleeperPlayers;
     sleeper_put := fun _ _ _ => Ok 200%Z;
     current_year := 2025;
     current_time := 1000 |}.

Definition espnTeam : FantasyTeam :=
  {| ft_id := "espn-7"; ft_name := Some "Gridiron Gang"; ft_platform := "ESPN";
     ft_leagueId := "1"; ft_leagueName := "Sunday League";
     ft_ownerId := "user-1";
     ft_record := {| wins := 5; losses := 2; ties := 0 |};
     ft_season := 2025; ft_isActive := true; ft_lastSyncDate := 1000 |}.

(** The same team on a platform the dispatcher has no adapter for. *)
Definition cbsTeam : FantasyTeam :=
  {| ft_id := "cbs-7"; ft_name := Some "Gridiron Gang"; ft_platform := "CBS";
     ft_leagueId := "1"; ft_leagueName := "Sunday League";
     ft_ownerId := "user-1";
     ft_record := {| wins := 5; losses := 2; ties := 0 |};
     ft_season := 2025; ft_isActive := true; ft_lastSyncDate := 1000 |}.

End SamplesNet.

(** ** Further parts of the code: lineups, scraping, sessions, queries,
    the login, the store and the statistics view *)

(** *** Lineups: vocabulary *)

Module SpecRest.
Import JS Model.

(** The names of the slots ESPN's table knows. *)
Definition espnSlotNames : list string := map snd ESPN.slotMap.

(** The roster entries ESPN marks as bench (slot 20). *)
Definition espnBenchEntries (roster : list ESPN.Entry) : list ESPN.Entry :=
  filter (fun entry => (ESPN.lineupSlotId entry =? 20)%Z) roster.

End SpecRest.

Module SpecSleeper.
Import JS Model.

(** The ids of [matchup.starters] the adapter keeps: not empty, not
    ["0"], and known to the players dictionary. *)
Definition usable (allPlayers : string -> option Sleeper.RawPlayer)
    (playerId : string) : bool :=
  Sleeper.isPlayerId playerId
  && match allPlayers playerId with Some _ => true | None => false end.

(** What the starting slot [slot] (a name and its index) receives: the
    player at that index of [matchup.starters], if usable. *)
Definition placed (allPlayers : string -> option Sleeper.RawPlayer)
    (m : Sleeper.Matchup) (slot : string * nat) : obj SlotValue :=
  match nth_error (Sleeper.starters m) (snd slot) with
  | Some playerId =>
      if usable allPlayers playerId then
        match allPlayers playerId with
        | Some player =>
            [(fst slot,
              Single (Sleeper.starterOf m (snd slot) playerId player))]
        | None => []
        end
      else []
  | None => []
  end.

(** The starting slots with their indices. *)
Definition startingSlots : list (string * nat) :=
  combine Sleeper.lineupPositions
          (List.seq 0 (List.length Sleeper.lineupPositions)).

End SpecSleeper.

(** *** Scraping: vocabulary *)

Module SpecScrape.
Import JS Model Regex ESPNWeb.

(** The ids the scraping loops give: [espn_1], [espn_2], ... *)
Definition numbered (n : nat) : list string :=
  map (fun i => "espn_" ++ Z_toString (Z.of_nat i)) (List.seq 1 n).

(** The name probe finds a known name, with its context. *)
Definition probed (html playerName : string) : bool :=
  match matchAll (namePattern playerName) html with
  | [] => false
  | _ :: _ =>
      match matchAll (contextPattern playerName) html with
      | [] => false
      | _ :: _ => true
      end
  end.

(** A number that is not [NaN]. *)
Definition is_number (x : float) : Prop := PrimFloat.is_nan x = false.

Definition record_of_numbers (r : TeamRecord) : Prop :=
  is_number (wins r) /\ is_number (losses r) /\ is_number (ties r).

End SpecScrape.

(** *** The ESPN adapter: the other session methods *)

Module ESPNSession.
Import JS Model Web ESPNWeb.

(** What [createTeamFromHTML] returns. *)
Record HtmlConnection := {
  hc_success : bool;
  hc_platform : string;
  hc_teams : list TeamData;
  hc_error : option string
}.

(** A parameter with a default value: the default stands in for
    [undefined]. *)
Definition or_default (argument : option string) (default : string) : string :=
  match argument with
  | Some v => v
  | None => default
  end.

Section Service.
Variable env : Env.

(** [getAuthStatus()]. *)
Definition getAuthStatus : M (option ESPNAuthSession) :=
  fun w => (Ok (authSession w), w).

(** [testParseHTML(html, leagueId = '45107891', teamId = '7',
    season = '2025')]. *)
Definition testParseHTML (html : string) (leagueId teamId season : option string)
  : M TeamData :=
  parseTeamPage env html (or_default leagueId "45107891")
                (or_default teamId "7") (or_default season "2025").

(** [createTeamFromHTML(html, leagueId = '45107891', teamId = '7',
    season = '2025')]. *)
Definition createTeamFromHTML (html : string)
    (leagueId teamId season : option string) : M HtmlConnection :=
  teamData <- parseTeamPage env html (or_default leagueId "45107891")
                            (or_default teamId "7") (or_default season "2025") ;;
  ret {| hc_success := true; hc_platform := "ESPN"; hc_teams := [teamData];
         hc_error := None |}.



(** [refreshTeamData(teamUrl)]: the [catch] throws again what it
    caught. *)
Definition refreshTeamData (teamUrl : string) : M TeamData :=
  authenticated <- isAuthenticated env ;;
  if negb authenticated
  then throw (mkError "Not authenticated with ESPN. Please log in first.")
  else tryM (getTeamFromUrl env teamUrl) (fun error => throw error).

End Service.

End ESPNSession.

(** *** Worlds that follow one another *)

Module SpecSession.
Import JS Model ESPNWeb.

(** World [w'] comes after [w]: the session and the storage are the
    same, the clock has not gone back, and the trace has grown by at
    most [n] events, all of them requests. *)
Definition follows (n : nat) (w w' : World) : Prop :=
  authSession w' = authSession w
  /\ localStorage w' = localStorage w
  /\ (ticks w <= ticks w')%nat
  /\ exists sent,
      trace w' = (trace w ++ sent)%list
      /\ (List.length sent <= n)%nat
      /\ forallb is_request sent = true.

(** A session that is valid at the next [k] readings of the clock. *)
Definition validFor (env : Env) (k : nat) (w : World) (s : ESPNAuthSession)
  : Prop :=
  authSession w = Some s
  /\ session_isAuthenticated s = true
  /\ forall i, (i < k)%nat -> (clock env (ticks w + i) <= expiresAt s)%Z.

End SpecSession.

(** *** Yahoo: the authorization address *)

Module YahooAuth.
Import JS Web.

(** The bytes the form-urlencoded serializer leaves as they are:
    letters, digits, [*], [-], [.] and [_]. *)
Definition form_safe (c : ascii) : bool :=
  let n := nat_of_ascii c in
  (((48 <=? n) && (n <=? 57)) || ((65 <=? n) && (n <=? 90))
   || ((97 <=? n) && (n <=? 122)))%nat
  || existsb (Ascii.eqb c) ["*"; "-"; "."; "_"]%char.

(** One code unit, serialized: a space becomes [+], every other
    unsafe byte of the UTF-8 form is percent-encoded. *)
Definition form_encode_unit (c : ascii) : string :=
  let n := nat_of_ascii c in
  if Ascii.eqb c " " then "+"
  else if form_safe c then String c EmptyString
  else if (n <? 128)%nat then percent n
  else percent (192 + n / 64) ++ percent (128 + n mod 64).

Fixpoint form_encode (s : string) : string :=
  match s with
  | EmptyString => EmptyString
  | String c rest => form_encode_unit c ++ form_encode rest
  end.

(** [pieces.join(sep)]. *)
Fixpoint join (sep : string) (pieces : list string) : string :=
  match pieces with
  | [] => EmptyString
  | [piece] => piece
  | piece :: rest => piece ++ sep ++ join sep rest
  end.

(** [new URLSearchParams(object).toString()]: the pairs in the order
    of the object's keys. *)
Definition params_toString (pairs : list (string * string)) : string :=
  join "&" (map (fun '(n, v) => form_encode n ++ "=" ++ form_encode v) pairs).

(** [getAuthUrl(clientId, redirectUri)]. *)
Definition getAuthUrl (clientId redirectUri : string) : string :=
  "https://api.login.yahoo.com/oauth2/request_auth?"
  ++ params_toString [ ("client_id", clientId);
                       ("redirect_uri", redirectUri);
                       ("response_type", "code");
                       ("scope", "fspt-r") ].

End YahooAuth.

(** *** Queries: vocabulary *)

Module SpecText.

(** Every code unit of [s] satisfies [p]. *)
Fixpoint all_chars (p : ascii -> bool) (s : string) : bool :=
  match s with
  | EmptyString => true
  | String c rest => p c && all_chars p rest
  end.

(** A string of ASCII characters: every code unit is below 128. *)
Definition ascii_only (s : string) : bool :=
  all_chars (fun c => (nat_of_ascii c <? 128)%nat) s.

Definition is_not (sep : ascii) (c : ascii) : bool := negb (Ascii.eqb c sep).

(** A string that stands for itself in a query: it has none of [?],
    [&], [%] and [+]. *)
Definition plain (s : string) : bool :=
  all_chars (fun c => negb (existsb (Ascii.eqb c) ["?"; "&"; "%"; "+"]%char)) s.

End SpecText.

Module SpecQuery.
Import YahooAuth.

(** The characters the serializer writes for a name or a value. *)
Definition query_char (c : ascii) : bool :=
  form_safe c || Ascii.eqb c "%" || Ascii.eqb c "+".

(** What the query parser makes of one piece between [&]s. *)
Definition parsed_piece (piece : string) : list (string * string) :=
  match piece with
  | EmptyString => []
  | _ =>
      let '(n, v) := Str.cut "=" piece in
      [(Web.form_decode n,
        Web.form_decode (match v with Some v => v | None => "" end))]
  end.

End SpecQuery.

(** *** Sleeper: the leagues of a user *)

Module SleeperLeagues.
Import JS Model.

(** [Promise.all(promises)]: every value, in order, or a rejection.
    (Which rejection, when there are several, depends on timing; the
    caller below replaces it by a fixed error.) *)
Fixpoint all_results {A} (outcomes : list (result A)) : result (list A) :=
  match outcomes with
  | [] => Ok []
  | outcome :: rest =>
      bind outcome (fun a => bind (all_results rest) (fun l => Ok (a :: l)))
  end.

(** [getUserLeagues(userId, season)]; [response] is the outcome of the
    awaited request, reduced to the [league_id] of each league, and
    [getLeague] is [this.getLeague]. *)
Definition getUserLeagues (response : result (list string))
    (getLeague : string -> result Sleeper.SleeperLeague)
  : result (list Sleeper.SleeperLeague) :=
  try_catch
    (bind response (fun leagues => all_results (map getLeague leagues)))
    (fun _ => Throw (mkError "Failed to fetch user leagues")).

End SleeperLeagues.

(** *** The store ([useStore]) *)

Module Store.
Import JS Model Unified.

Record Preferences := { notifications : bool; defaultView : string }.

(** An entry of [LeagueRecord.leagues]. *)
Record LeagueEntry := {
  le_teamId : string;
  le_teamName : option string;
  le_platform : string;
  le_wins : float;
  le_losses : float;
  le_ties : float
}.

Record LeagueRecord := {
  lr_id : string;
  lr_userId : string;
  lr_season : Z;
  lr_totalWins : float;
  lr_totalLosses : float;
  lr_totalTies : float;
  lr_winPercentage : float;
  lr_leagues : list LeagueEntry
}.

Record User := {
  u_id : string;
  u_email : string;
  u_name : string;
  u_teams : list FantasyTeam;
  u_leagueRecords : list LeagueRecord;
  u_preferences : Preferences
}.

Record PlatformConnection := {
  pc_id : string;
  pc_platform : string;
  pc_isConnected : bool;
  pc_accessToken : option string;
  pc_refreshToken : option string;
  pc_expiresAt : option Z;
  pc_lastSyncDate : option Z
}.

(** The state of the store. *)
Record AppState := {
  user : option User;
  teams : list FantasyTeam;
  lineups : list Lineup;
  leagueRecords : list LeagueRecord;
  connections : list PlatformConnection;
  isLoading : bool;
  error : option string;
  selectedTeam : option string
}.

(** The initial state. *)
Definition initial : AppState :=
  {| user := None; teams := []; lineups := []; leagueRecords := [];
     connections := []; isLoading := false; error := None;
     selectedTeam := None |}.

(** [set({ field })]: the other fields stay. *)
Definition setUser (u : option User) (s : AppState) : AppState :=
  {| user := u; teams := teams s; lineups := lineups s;
     leagueRecords := leagueRecords s; connections := connections s;
     isLoading := isLoading s; error := error s;
     selectedTeam := selectedTeam s |}.

Definition setTeams (t : list FantasyTeam) (s : AppState) : AppState :=
  {| user := user s; teams := t; lineups := lineups s;
     leagueRecords := leagueRecords s; connections := connections s;
     isLoading := isLoading s; error := error s;
     selectedTeam := selectedTeam s |}.

Definition setLineups (l : list Lineup) (s : AppState) : AppState :=
  {| user := user s; teams := teams s; lineups := l;
     leagueRecords := leagueRecords s; connections := connections s;
     isLoading := isLoading s; error := error s;
     selectedTeam := selectedTeam s |}.

Definition setLeagueRecords (r : list LeagueRecord) (s : AppState) : AppState :=
  {| user := user s; teams := teams s; lineups := lineups s;
     leagueRecords := r; connections := connections s;
     isLoading := isLoading s; error := error s;
     selectedTeam := selectedTeam s |}.

Definition setConnections (c : list PlatformConnection) (s : AppState)
  : AppState :=
  {| user := user s; teams := teams s; lineups := lineups s;
     leagueRecords := leagueRecords s; connections := c;
     isLoading := isLoading s; error := error s;
     selectedTeam := selectedTeam s |}.

Definition setLoading (b : bool) (s : AppState) : AppState :=
  {| user := user s; teams := teams s; lineups := lineups s;
     leagueRecords := leagueRecords s; connections := connections s;
     isLoading := b; error := error s; selectedTeam := selectedTeam s |}.

Definition setError (e : option string) (s : AppState) : AppState :=
  {| user := user s; teams := teams s; lineups := lineups s;
     leagueRecords := leagueRecords s; connections := connections s;
     isLoading := isLoading s; error := e; selectedTeam := selectedTeam s |}.

Definition setSelectedTeam (t : option string) (s : AppState) : AppState :=
  {| user := user s; teams := teams s; lineups := lineups s;
     leagueRecords := leagueRecords s; connections := connections s;
     isLoading := isLoading s; error := error s; selectedTeam := t |}.

(** [addTeam(team)]. *)
Definition addTeam (team : FantasyTeam) (s : AppState) : AppState :=
  setTeams (teams s ++ [team])%list s.

(** [{ ...t, lastSyncDate: new Date() }]. *)
Definition synced (t : FantasyTeam) (now : Z) : FantasyTeam :=
  {| ft_id := ft_id t; ft_name := ft_name t; ft_platform := ft_platform t;
     ft_leagueId := ft_leagueId t; ft_leagueName := ft_leagueName t;
     ft_ownerId := ft_ownerId t; ft_record := ft_record t;
     ft_season := ft_season t; ft_isActive := ft_isActive t;
     ft_lastSyncDate := now |}.

(** [teams.map(t => t.id === teamId ? { ...t, lastSyncDate: new Date() }
    : t)]: the clock is read once for each team with the id, [n] being
    the number of readings so far. *)
Fixpoint stampTeams (clock : nat -> Z) (n : nat) (teamId : string)
    (ts : list FantasyTeam) : list FantasyTeam :=
  match ts with
  | [] => []
  | t :: rest =>
      if String.eqb (ft_id t) teamId
      then synced t (clock n) :: stampTeams clock (S n) teamId rest
      else t :: stampTeams clock n teamId rest
  end.

Section Sync.

(** The dispatcher, with the token the Yahoo service holds, and the
    clock. *)
Variable svc : Services.
Variable token : option string.
Variable clock : nat -> Z.

(** [syncTeam(teamId)] up to its [await]: the store is marked as
    loading, and the team is looked up. *)
Definition syncTeam_begin (teamId : string) (s : AppState)
  : AppState * option FantasyTeam :=
  let s1 := setError None (setLoading true s) in
  (s1, find (fun t => String.eqb (ft_id t) teamId) (teams s1)).

(** The [catch] and [finally] blocks. *)
Definition syncTeam_failed (s : AppState) : AppState :=
  setLoading false (setError (Some "Failed to sync team") s).

(** [syncTeam(teamId)] from its [await] on: [outcome] is what
    [unifiedApi.getTeamLineup(team, 8)] gave and [s] the state of the
    store at that moment. *)
Definition syncTeam_resume (teamId : string) (n : nat)
    (outcome : result Lineup) (s : AppState) : AppState :=
  match outcome with
  | Ok lineup =>
      let s1 := setTeams (stampTeams clock n teamId (teams s)) s in
      let s2 :=
        setLineups
          (filter (fun l => negb (String.eqb (lineup_id l) (lineup_id lineup)))
                  (lineups s1)
           ++ [lineup])%list s1 in
      setLoading false s2
  | Throw _ => syncTeam_failed s
  end.

(** [syncTeam(teamId)] when nothing else touches the store while the
    lineup is awaited. *)
Definition syncTeam (teamId : string) (n : nat) (s : AppState) : AppState :=
  match syncTeam_begin teamId s with
  | (s1, None) => syncTeam_failed s1
  | (s1, Some team) =>
      syncTeam_resume teamId n (Unified.getTeamLineup svc token team 8) s1
  end.

End Sync.

(** [{ ...lineup, players: { ...lineup.players, [position]: player },
    lastUpdated: new Date() }]. *)
Definition withPlayer (l : Lineup) (position : string) (player : SlotValue)
    (now : Z) : Lineup :=
  {| lineup_id := lineup_id l; teamId := teamId l; week := week l;
     season := season l;
     players := obj_set (players l) position player;
     totalProjectedPoints := totalProjectedPoints l;
     lastUpdated := now |}.

(** [updateLineupPlayer(lineupId, position, player)]. *)
Fixpoint placePlayer (clock : nat -> Z) (n : nat) (lineupId position : string)
    (player : SlotValue) (ls : list Lineup) : list Lineup :=
  match ls with
  | [] => []
  | l :: rest =>
      if String.eqb (lineup_id l) lineupId
      then withPlayer l position player (clock n)
           :: placePlayer clock (S n) lineupId position player rest
      else l :: placePlayer clock n lineupId position player rest
  end.

Definition updateLineupPlayer (clock : nat -> Z) (n : nat)
    (lineupId position : string) (player : SlotValue) (s : AppState)
  : AppState :=
  setLineups (placePlayer clock n lineupId position player (lineups s)) s.

(** [teams.reduce((sum, team) => sum + f(team), 0)]. *)
Definition total (f : TeamRecord -> float) (ts : list FantasyTeam) : float :=
  fold_left (fun sum team => (sum + f (ft_record team))%float) ts 0%float.

(** The record [calculateWinLoss] builds; [currentSeason] is
    [new Date().getFullYear()]. *)
Definition leagueRecordOf (currentSeason : Z) (s : AppState) : LeagueRecord :=
  let totalWins := total wins (teams s) in
  let totalLosses := total losses (teams s) in
  let totalTies := total ties (teams s) in
  {| lr_id := "record-" ++ Z_toString currentSeason;
     lr_userId :=
       match user s with
       | Some u => string_or (Some (u_id u)) ""
       | None => ""
       end;
     lr_season := currentSeason;
     lr_totalWins := totalWins;
     lr_totalLosses := totalLosses;
     lr_totalTies := totalTies;
     lr_winPercentage :=
       number_or_zero (totalWins / (totalWins + totalLosses + totalTies))%float;
     lr_leagues :=
       map (fun team =>
              {| le_teamId := ft_id team;
                 le_teamName := ft_name team;
                 le_platform := ft_platform team;
                 le_wins := wins (ft_record team);
                 le_losses := losses (ft_record team);
                 le_ties := ties (ft_record team) |})
           (teams s) |}.

(** [calculateWinLoss()]. *)
Definition calculateWinLoss (currentSeason : Z) (s : AppState) : AppState :=
  setLeagueRecords
    (filter (fun record => negb (Z.eqb (lr_season record) currentSeason))
            (leagueRecords s)
     ++ [leagueRecordOf currentSeason s])%list s.

End Store.

(** *** The ESPN adapter: logging in *)

Module ESPNLogin.
Import JS Model Regex Web ESPNWeb YahooAuth.

(** The response to the login request: its status and the
    [set-cookie] headers it exposes, if any. *)
Record LoginResponse := {
  login_status : Z;
  set_cookie : option (list string)
}.

(** A request the login sends with [axios.post]. *)
Record Post := {
  post_url : string;
  post_body : string;
  post_headers : list (string * string)
}.

(** The world of the service together with the posts it has sent. *)
Record Outbox := { world : World; posts : list Post }.

(** What answers a post. *)
Definition Poster : Type :=
  string -> string -> list (string * string) -> result LoginResponse.

Definition L (A : Type) : Type := Outbox -> result A * Outbox.

Definition retL {A} (a : A) : L A := fun o => (Ok a, o).

Definition throwL {A} (e : error) : L A := fun o => (Throw e, o).

Definition bindL {A B} (m : L A) (k : A -> L B) : L B :=
  fun o =>
    match m o with
    | (Ok a, o') => k a o'
    | (Throw e, o') => (Throw e, o')
    end.

Definition tryL {A} (body : L A) (handler : error -> L A) : L A :=
  fun o =>
    match body o with
    | (Ok a, o') => (Ok a, o')
    | (Throw e, o') => handler e o'
    end.

(** A method of the service, run in the larger world. *)
Definition lift {A} (m : M A) : L A :=
  fun o =>
    let '(r, w) := m (world o) in
    (r, {| world := w; posts := posts o |}).

(** [name=Q_tokenQ[^>]*value=Q([^Q]+)Q], flag i. *)
Definition tokenPattern : re :=
  seq [ lit_i "name="; chr_i Q; lit_i "_token"; chr_i Q; star (none_of ">");
        lit_i "value="; chr_i Q; Grp 1 (plus (none_of Q)); chr_i Q ].

(** [extractCSRFToken(html)]. (A match always has its group 1; an
    [undefined] token would be serialized by its name.) *)
Definition extractCSRFToken (html : string) : string :=
  match exec tokenPattern html with
  | Some tokenMatch =>
      match group tokenMatch 1 with
      | Some token => token
      | None => "undefined"
      end
  | None => ""
  end.

(** [extractFormData(html)]: no field. *)
Definition extractFormData (html : string) : list (string * string) := [].

(** [extractCookies(response)]: the part of each [set-cookie] header
    before its first [;], joined with [; ]. *)
Definition extractCookies (response : LoginResponse) : string :=
  join "; "
       (map (fun cookie =>
               match Str.split ";" cookie with
               | piece :: _ => piece
               | [] => ""
               end)
            (match set_cookie response with
             | Some headers => headers
             | None => []
             end)).

(** [JSON.stringify] of a string (ECMA-262 25.5.2.3), for code units
    below 256. *)
Definition json_quote_unit (c : ascii) : string :=
  let n := nat_of_ascii c in
  if (n =? 34)%nat then String "\" dquote
  else if (n =? 92)%nat then "\\"
  else if (n =? 8)%nat then "\b"
  else if (n =? 12)%nat then "\f"
  else if (n =? 10)%nat then "\n"
  else if (n =? 13)%nat then "\r"
  else if (n =? 9)%nat then "\t"
  else if (n <? 32)%nat
       then "\u00" ++ String (Str.lower (hex_digit (n / 16)))
                        (String (Str.lower (hex_digit (n mod 16))) EmptyString)
       else String c EmptyString.

Fixpoint json_quote_units (s : string) : string :=
  match s with
  | EmptyString => EmptyString
  | String c rest => json_quote_unit c ++ json_quote_units rest
  end.

Definition json_quote (s : string) : string :=
  dquote ++ json_quote_units s ++ dquote.

(** [JSON.stringify(session)]: the fields in the order the session
    object was written; a field that is [undefined] is left out. (An
    integer below 10^21 prints in decimal.) *)
Definition stringifySession (s : ESPNAuthSession) : string :=
  "{" ++ json_quote "isAuthenticated" ++ ":"
  ++ (if session_isAuthenticated s then "true" else "false")
  ++ "," ++ json_quote "cookies" ++ ":" ++ json_quote (cookies s)
  ++ "," ++ json_quote "expiresAt" ++ ":" ++ Z_toString (expiresAt s)
  ++ match username s with
     | Some u => "," ++ json_quote "username" ++ ":" ++ json_quote u
     | None => ""
     end
  ++ "}".

(** What [localStorage.setItem(key, value)] throws, if it throws, when
    the storage holds [stored]: a full storage throws a
    [QuotaExceededError], a storage that is switched off or missing
    throws on every write. A write that throws leaves the storage as
    it is. *)
Definition Quota : Type := obj string -> string -> string -> option error.

(** [saveSession()]. *)
Definition saveSession (quota : Quota) : M unit :=
  fun w =>
    match authSession w with
    | Some session =>
        match quota (localStorage w) storageKey (stringifySession session) with
        | Some refusal => (Throw refusal, w)
        | None =>
            (Ok tt,
             {| authSession := authSession w;
                localStorage :=
                  obj_set (localStorage w) storageKey
                          (stringifySession session);
                ticks := ticks w; trace := trace w |})
        end
    | None => (Ok tt, w)
    end.

(** [this.authSession = session]. *)
Definition setSession (session : ESPNAuthSession) : M unit :=
  fun w =>
    (Ok tt,
     {| authSession := Some session; localStorage := localStorage w;
        ticks := ticks w; trace := trace w |}).

Definition proxyUrl : string := "https://api.allorigins.win/raw?url=".

Definition espnLoginUrl : string := "https://fantasy.espn.com/login".

Section Service.
Variable env : Env.
Variable poster : Poster.
Variable quota : Quota.

(** [axios.post(url, body, { headers, maxRedirects: 0, validateStatus:
    status => status < 400 })]: a status that does not validate
    rejects. *)
Definition axios_post (url body : string) (headers : list (string * string))
  : L LoginResponse :=
  fun o =>
    (match poster url body headers with
     | Ok response =>
         if (login_status response <? 400)%Z then Ok response
         else Throw (Error_ "AxiosError"
                       ("Request failed with status code "
                        ++ Z_toString (login_status response)))
     | Throw e => Throw e
     end,
     {| world := world o;
        posts := (posts o ++ [ {| post_url := url; post_body := body;
                                  post_headers := headers |} ])%list |}).

(** [authenticate(username, password)]. The first request names no
    timeout, which is axios's default, 0. The session is assigned
    before it is saved, and saving is inside the [try]: a write that
    throws is caught and thrown again like every other failure. *)
Definition authenticate (username password : string) : L ESPNAuthSession :=
  tryL
    (bindL (lift (axios_get env (proxyUrl ++ encodeURIComponent espnLoginUrl)
                    [ ("User-Agent", userAgent) ] 0))
       (fun loginPageResponse =>
    let loginPageHtml := data loginPageResponse in
    let csrfToken := extractCSRFToken loginPageHtml in
    let formData := extractFormData loginPageHtml in
    let loginData :=
      params_toString
        (fold_left (fun o kv => obj_set o (fst kv) (snd kv))
                   (formData ++ [("_token", csrfToken)])%list
                   [ ("username", username); ("password", password) ]) in
    bindL (axios_post (proxyUrl
                       ++ encodeURIComponent "https://fantasy.espn.com/login")
             loginData
             [ ("Content-Type", "application/x-www-form-urlencoded");
               ("User-Agent", userAgent) ])
       (fun loginResponse =>
    if (login_status loginResponse =? 302)%Z
       || (login_status loginResponse =? 200)%Z
    then
      let sessionCookies := extractCookies loginResponse in
      bindL (lift (Date_now env)) (fun now =>
      let session :=
        {| session_isAuthenticated := true;
           cookies := sessionCookies;
           expiresAt := (now + 7 * 24 * 60 * 60 * 1000)%Z;
           username := Some username |} in
      bindL (lift (setSession session)) (fun _ =>
      bindL (lift (saveSession quota)) (fun _ =>
      retL session)))
    else
      throwL (mkError "Login failed - invalid credentials or ESPN error"))))
    (fun error =>
       throwL (mkError ("ESPN authentication failed: "
                        ++ error_toString error))).

End Service.

End ESPNLogin.

(** *** Logging in: vocabulary *)

Module SpecLogin.
Import JS Model Web ESPNWeb YahooAuth ESPNLogin.

(** The address of the login page behind the proxy. *)
Definition loginAddress : string :=
  proxyUrl ++ encodeURIComponent espnLoginUrl.

(** The body of the login request. *)
Definition loginBody (username password html : string) : string :=
  params_toString [ ("username", username); ("password", password);
                    ("_token", extractCSRFToken html) ].

Definition loginHeaders : list (string * string) :=
  [ ("Content-Type", "application/x-www-form-urlencoded");
    ("User-Agent", userAgent) ].

(** Seven days, in milliseconds. *)
Definition sevenDays : Z := 604800000.

(** The session a login at instant [now] creates. *)
Definition sessionAt (now : Z) (username : string) (response : LoginResponse)
  : ESPNAuthSession :=
  {| session_isAuthenticated := true;
     cookies := extractCookies response;
     expiresAt := (now + sevenDays)%Z;
     username := Some username |}.

(** The world once the login page has been requested. *)
Definition pageRequested (o : Outbox) : Outbox :=
  {| world :=
       {| authSession := authSession (world o);
          localStorage := localStorage (world o);
          ticks := ticks (world o);
          trace := (trace (world o)
                    ++ [HttpGet loginAddress [("User-Agent", userAgent)] 0])%list
       |};
     posts := posts o |}.

(** The world once the login request has been sent as well. *)
Definition loginPosted (username password html : string) (o : Outbox)
  : Outbox :=
  {| world := world (pageRequested o);
     posts := (posts o ++ [ {| post_url := loginAddress;
                               post_body := loginBody username password html;
                               post_headers := loginHeaders |} ])%list |}.

(** The world once the session has been created and saved. *)
Definition sessionSaved (username password html : string)
    (session : ESPNAuthSession) (o : Outbox) : Outbox :=
  {| world :=
       {| authSession := Some session;
          localStorage :=
            obj_set (localStorage (world o)) storageKey
                    (stringifySession session);
          ticks := S (ticks (world o));
          trace := trace (world (pageRequested o)) |};
     posts := posts (loginPosted username password html o) |}.

(** The world once the session has been created but could not be
    saved: the service holds it, the storage is as it was. *)
Definition sessionHeld (username password html : string)
    (session : ESPNAuthSession) (o : Outbox) : Outbox :=
  {| world :=
       {| authSession := Some session;
          localStorage := localStorage (world o);
          ticks := S (ticks (world o));
          trace := trace (world (pageRequested o)) |};
     posts := posts (loginPosted username password html o) |}.

(** What [authenticate] throws for a cause. *)
Definition loginFailure (cause : error) : error :=
  mkError ("ESPN authentication failed: " ++ error_toString cause).

End SpecLogin.

(** *** The statistics view ([Stats]) *)

Module StatsView.
Import JS Model Unified.

(** [team.record.wins / (team.record.wins + team.record.losses +
    team.record.ties)]. *)
Definition winRate (team : FantasyTeam) : float :=
  (wins (ft_record team)
   / (wins (ft_record team) + losses (ft_record team) + ties (ft_record team)))
  %float.

(** [getBestTeam()]: [reduce] without an initial value starts from the
    first team; [a > b] is [b < a]. *)
Definition getBestTeam (teams : list FantasyTeam) : option FantasyTeam :=
  match teams with
  | [] => None
  | first :: rest =>
      Some (fold_left
              (fun best current =>
                 let bestWinRate := winRate best in
                 let currentWinRate := winRate current in
                 if PrimFloat.ltb bestWinRate currentWinRate
                 then current else best)
              rest first)
  end.

(** [getWorstTeam()]. *)
Definition getWorstTeam (teams : list FantasyTeam) : option FantasyTeam :=
  match teams with
  | [] => None
  | first :: rest =>
      Some (fold_left
              (fun worst current =>
                 let worstWinRate := winRate worst in
                 let currentWinRate := winRate current in
                 if PrimFloat.ltb currentWinRate worstWinRate
                 then current else worst)
              rest first)
  end.

End StatsView.

(** *** Sample data for these parts *)

Module SamplesLogin.
Import JS Model ESPNWeb ESPNLogin.

(** A login page with its token field. *)
Definition loginForm : string :=
  "<form><input type=" ++ dquote ++ "hidden" ++ dquote ++ " name=" ++ dquote
  ++ "_token" ++ dquote ++ " value=" ++ dquote ++ "t0k3n" ++ dquote
  ++ "></form>".

(** Every page requested is the login page; the clock starts at
    [start] and, from its second reading on, shows [later] more. *)
Definition envAt (start later : Z) : Env :=
  {| clock := fun n =>
       match n with
       | O => start
       | S _ => (start + later + Z.of_nat n)%Z
       end;
     fullYear := fun _ => 2025%Z;
     http_get := fun _ _ _ => Ok {| status := 200; data := loginForm |} |}.

(** ESPN redirects after the login and sets two cookies. *)
Definition accepted : LoginResponse :=
  {| login_status := 302;
     set_cookie := Some [ "espn_s2=abc; Path=/; HttpOnly"; "SWID=1; Secure" ] |}.

Definition accepting : Poster := fun _ _ _ => Ok accepted.

(** ESPN refuses the credentials. *)
Definition rejecting : Poster :=
  fun _ _ _ => Ok {| login_status := 401; set_cookie := None |}.

(** A storage with room for every write. *)
Definition roomy : Quota := fun _ _ _ => None.

(** A storage that is full. *)
Definition full : Quota :=
  fun _ _ _ =>
    Some (Error_ "QuotaExceededError" "The quota has been exceeded.").

(** The service holds the sample session and has sent nothing. *)
Definition start : Outbox := {| world := SamplesWeb.loggedIn; posts := [] |}.

End SamplesLogin.

Module SamplesStore.
Import JS Model Store.

(** The lineup of the sample ESPN roster. *)
Definition lineup : Lineup :=
  {| lineup_id := "espn-7-8"; teamId := "7"; week := 8; season := 2025%float;
     players := ESPN.lineupPlayers Samples.espnRoster;
     totalProjectedPoints := sumProjected (ESPN.lineupPlayers Samples.espnRoster);
     lastUpdated := 1000 |}.

(** A player to put in a slot. *)
Definition replacement : Player :=
  {| id := "900"; name := "Backup"; position := VString "QB"; team := "PHI";
     injuryStatus := VString "healthy"; projectedPoints := Some 1%float;
     actualPoints := None |}.

(** A store with two teams, the second on a platform without
    adapter, and the lineup of the first. *)
Definition store : AppState :=
  {| user := None;
     teams := [ SamplesNet.espnTeam; SamplesNet.cbsTeam ];
     lineups := [ lineup ];
     leagueRecords := [];
     connections := [];
     isLoading := false;
     error := None;
     selectedTeam := None |}.

End SamplesStore.

Module SamplesStats.
Import JS Model Unified.

(** A team that has not played yet. *)
Definition newTeam : FantasyTeam :=
  {| ft_id := "sleeper-3"; ft_name := Some "Newcomers";
     ft_platform := "Sleeper"; ft_leagueId := "L1";
     ft_leagueName := "Sunday League"; ft_ownerId := "user-1";
     ft_record := {| wins := 0; losses := 0; ties := 0 |};
     ft_season := 2025; ft_isActive := true; ft_lastSyncDate := 1000 |}.

End SamplesStats.

Module SamplesRosters.
Import JS Model.

(** An ESPN roster with two entries in the first running-back slot
    (slot id 1) and one player on injured reserve (slot id 21). *)
Definition crowded : list ESPN.Entry :=
  [ {| ESPN.playerId := 101; ESPN.lineupSlotId := 0;
       ESPN.playerPoolEntry_player :=
         Samples.espnPlayer 101 "Jalen Hurts" 1 21 (Some 22.5%float) |};
    {| ESPN.playerId := 102; ESPN.lineupSlotId := 1;
       ESPN.playerPoolEntry_player :=
         Samples.espnPlayer 102 "Kyren Williams" 2 14 (Some 16.25%float) |};
    {| ESPN.playerId := 106; ESPN.lineupSlotId := 1;
       ESPN.playerPoolEntry_player :=
         Samples.espnPlayer 106 "Jonathan Taylor" 2 11 (Some 14.5%float) |};
    {| ESPN.playerId := 105; ESPN.lineupSlotId := 21;
       ESPN.playerPoolEntry_player :=
         Samples.espnPlayer 105 "Mark Andrews" 4 33 (Some 7.75%float) |};
    {| ESPN.playerId := 103; ESPN.lineupSlotId := 20;
       ESPN.playerPoolEntry_player :=
         Samples.espnPlayer 103 "David Montgomery" 2 8 (Some 9.5%float) |} ]%Z.

End SamplesRosters.

(* ================================================================== *)
(** * Part II. The specification's claims                               *)
(* ================================================================== *)

Import JS Model.

(** Splits a conjunction into its parts, and nothing else. *)
Ltac split_all := repeat match goal with |- _ /\ _ => split end.

(** Goes through the entries of a table given as [H : In (k, v) table]
    and closes each case with [tac]. *)
Ltac each_entry H tac :=
  simpl in H; repeat (destruct H as [H|H]; [tac|]); destruct H.

(** ** The built-ins on examples *)

(** A lazy star stops at the first place the rest matches, a greedy
    one at the last. *)
Example lazy_and_greedy_stars :
  option_map (Regex.matched "a{1}b{2};")
    (Regex.exec
       (Regex.seq [Regex.lit "{"; Regex.star_lazy Regex.dot; Regex.lit "}"])
       "a{1}b{2};") = Some "{1}"
  /\ option_map (Regex.matched "a{1}b{2};")
       (Regex.exec
          (Regex.seq [Regex.lit "{"; Regex.star Regex.dot; Regex.lit "}"])
          "a{1}b{2};") = Some "{1}b{2}".
Proof. split; vm_compute; reflexivity. Qed.

(** The leftmost match wins, an optional prefix is taken when it can
    be, and the group holds the text it matched. *)
Example optional_tag_and_group :
  match Regex.exec ESPNWeb.contextTeam "<td>a</td><span>PHI</span>" with
  | Some m =>
      Regex.matched "<td>a</td><span>PHI</span>" m = "<span>PHI</span>"
      /\ Regex.group m 1 = Some "PHI"
  | None => False
  end.
Proof. vm_compute. split; reflexivity. Qed.

(** A pattern with the [g] flag yields all matches, left to right; one
    with the [i] flag ignores case. *)
Example global_and_case_insensitive :
  Regex.matchAll ESPNWeb.decimalPattern "a 12.5 b 3.25c 7. 8.9"
  = ["12.5"; "3.25"; "8.9"]
  /\ Regex.matchAll (ESPNWeb.namePattern "Lions") "lions, LIONS, lion"
     = ["lions"; "LIONS"].
Proof. split; vm_compute; reflexivity. Qed.

Example anchored_replacements :
  ESPNWeb.cleanName "Fantasy Football - Gridiron Gang - ESPN" = "Gridiron Gang"
  /\ ESPNWeb.cleanName "My Fantasy Football - ESPN team" = "My Fantasy Football - ESPN team".
Proof. split; vm_compute; reflexivity. Qed.

(** [parseFloat] rounds to the nearest number, as the literals of
    this file do. *)
Example parseFloat_examples :
  Web.parseFloat "22.1" = 22.1%float
  /\ Web.parseFloat "0.1" = 0.1%float
  /\ Web.parseFloat " 12.25 points" = 12.25%float
  /\ Web.parseFloat "1.5e-3" = 0.0015%float
  /\ Web.parseFloat "-0" = (-0)%float
  /\ Web.parseFloat "points" = PrimFloat.nan
  /\ (Web.parseFloat "0.1" + Web.parseFloat "0.2")%float
     = 0.30000000000000004%float.
Proof. repeat split; vm_compute; reflexivity. Qed.

Example parseInt_examples :
  parseInt "2025" = 2025%float
  /\ parseInt " 12abc" = 12%float
  /\ parseInt "0x1f" = 31%float
  /\ parseInt "" = PrimFloat.nan
  /\ number_or_zero (parseInt "n/a") = 0%float.
Proof. repeat split; vm_compute; reflexivity. Qed.

Example JSON_parse_examples :
  Web.JSON_parse "{}" = Ok "{}"
  /\ Web.JSON_parse ("{" ++ dquote ++ "a" ++ dquote ++ ": [1, 2.5e3, true, null]}")
     = Ok ("{" ++ dquote ++ "a" ++ dquote ++ ": [1, 2.5e3, true, null]}")
  /\ Web.JSON_parse "{a:1}"
     = Throw (Error_ "SyntaxError" "Unexpected token in JSON")
  /\ Web.JSON_parse "{} x"
     = Throw (Error_ "SyntaxError" "Unexpected token in JSON").
Proof. repeat split; vm_compute; reflexivity. Qed.

Example url_examples :
  ESPNWeb.urlParam SamplesWeb.teamUrl "leagueId" = Some "45"
  /\ ESPNWeb.urlParam SamplesWeb.teamUrl "week" = None
  /\ ESPNWeb.urlParam "https://fantasy.espn.com/football/team" "teamId" = None
  /\ Web.encodeURIComponent "team?leagueId=45&teamId=7"
     = "team%3FleagueId%3D45%26teamId%3D7".
Proof. repeat split; vm_compute; reflexivity. Qed.

(** An object literal answers for the names it inherits. *)
Example lookup_examples :
  lookup ESPN.statusMap "OUT" = VString "out"
  /\ lookup ESPN.statusMap "PROBABLE" = VUndefined
  /\ lookup ESPN.statusMap "toString" = VNative "toString"
  /\ lookup Yahoo.statusMap "" = VString "healthy".
Proof. repeat split; reflexivity. Qed.

(** Assignment keeps the place of a key that exists. *)
Example obj_set_examples :
  obj_set (obj_set (obj_set [] "RB1" 1%nat) "QB" 2%nat) "RB1" 3%nat
  = [("RB1", 3%nat); ("QB", 2%nat)].
Proof. reflexivity. Qed.

(** ** The repetition of a pattern never runs out of fuel *)

Import Invariants.

Lemma forward_refl pos s : forward pos s pos s.
Proof. unfold forward. split; lia. Qed.

Lemma forward_trans pos s pos1 s1 pos2 s2 :
  forward pos s pos1 s1 -> forward pos1 s1 pos2 s2 -> forward pos s pos2 s2.
Proof. unfold forward. lia. Qed.

Lemma forward_character pos a rest :
  forward pos (String a rest) (S pos) rest.
Proof. unfold forward. cbn [String.length]. split; lia. Qed.

Section Repetition.
Context {R : Type}.
Variable m : @Regex.matcher R.
Hypothesis m_local : local m.
Variables (greedy : bool) (lo : nat) (hi : option nat).

Lemma repeat_matcher_local fuel :
  forall n pos s c k1 k2,
    (forall pos' s' c', forward pos s pos' s' -> k1 pos' s' c' = k2 pos' s' c') ->
    Regex.repeat_matcher m greedy lo hi k1 fuel n pos s c
    = Regex.repeat_matcher m greedy lo hi k2 fuel n pos s c.
Proof.
  induction fuel as [|fuel IH]; intros n pos s c k1 k2 Hk; simpl; auto.
  rewrite (Hk pos s c (forward_refl pos s)).
  assert (Hagain :
            m pos s c
              (fun pos' s' c' =>
                 if Nat.eqb pos' pos && Nat.leb lo n then None
                 else Regex.repeat_matcher m greedy lo hi k1 fuel (S n)
                                           pos' s' c')
            = m pos s c
                (fun pos' s' c' =>
                   if Nat.eqb pos' pos && Nat.leb lo n then None
                   else Regex.repeat_matcher m greedy lo hi k2 fuel (S n)
                                             pos' s' c')).
  { apply m_local. intros pos' s' c' Hf.
    destruct (Nat.eqb pos' pos && Nat.leb lo n); auto.
    apply IH. intros pos2 s2 c2 Hf2. apply Hk.
    eapply forward_trans; eauto. }
  now rewrite Hagain.
Qed.

(** Two amounts of fuel above [lo - n + length s] give the same
    result. *)
Lemma repeat_matcher_fuel k fuel1 :
  forall fuel2 n pos s c,
    lo - n + String.length s < fuel1 ->
    lo - n + String.length s < fuel2 ->
    Regex.repeat_matcher m greedy lo hi k fuel1 n pos s c
    = Regex.repeat_matcher m greedy lo hi k fuel2 n pos s c.
Proof.
  induction fuel1 as [|fuel1 IH]; intros fuel2 n pos s c H1 H2; [lia|].
  destruct fuel2 as [|fuel2]; [lia|]. simpl.
  assert (Hagain :
            m pos s c
              (fun pos' s' c' =>
                 if Nat.eqb pos' pos && Nat.leb lo n then None
                 else Regex.repeat_matcher m greedy lo hi k fuel1 (S n)
                                           pos' s' c')
            = m pos s c
                (fun pos' s' c' =>
                   if Nat.eqb pos' pos && Nat.leb lo n then None
                   else Regex.repeat_matcher m greedy lo hi k fuel2 (S n)
                                             pos' s' c')).
  { apply m_local. intros pos' s' c' [Hle Hlen].
    destruct (Nat.eqb_spec pos' pos) as [->|Hne];
      destruct (Nat.leb_spec lo n) as [Hlo|Hlo]; simpl; auto;
      apply IH; lia. }
  now rewrite Hagain.
Qed.

End Repetition.

Lemma run_local {R : Type} (r : Regex.re) : local (@Regex.run R r).
Proof.
  induction r as [|p|r1 IH1 r2 IH2|r1 IH1 r2 IH2|g lo hi r IH|i r IH| |];
    intros pos s c k1 k2 Hk; cbn [Regex.run].
  - apply Hk, forward_refl.
  - destruct s as [|a rest]; auto.
    destruct (p a); auto. apply Hk, forward_character.
  - apply IH1. intros pos1 s1 c1 Hf1. apply IH2.
    intros pos2 s2 c2 Hf2. apply Hk. eapply forward_trans; eauto.
  - rewrite (IH1 pos s c k1 k2 Hk). now rewrite (IH2 pos s c k1 k2 Hk).
  - now apply repeat_matcher_local.
  - apply IH. intros pos1 s1 c1 Hf1. now apply Hk.
  - destruct (Nat.eqb pos 0); auto. apply Hk, forward_refl.
  - destruct s; auto. apply Hk, forward_refl.
Qed.

(** The fuel [run] gives a repetition is enough: more fuel gives the
    same match. *)
Lemma repetition_fuel_is_enough {R : Type} greedy lo hi r pos s c
    (k : @Regex.continuation R) extra :
  Regex.repeat_matcher (Regex.run r) greedy lo hi k
                       (S (lo + String.length s) + extra) O pos s c
  = Regex.run (Regex.Rep greedy lo hi r) pos s c k.
Proof.
  cbn [Regex.run]. apply repeat_matcher_fuel; [apply run_local|lia|lia].
Qed.

(** ** Facts about dictionaries *)

Section ObjFacts.
Context {V : Type}.
Implicit Types (o : obj V) (k : string) (v : V).

Lemma obj_get_set_same o k v : obj_get (obj_set o k v) k = Some v.
Proof.
  induction o as [|[k' w] o IH]; simpl.
  - now rewrite String.eqb_refl.
  - destruct (String.eqb k' k) eqn:E; simpl; rewrite E; auto.
Qed.

Lemma obj_get_set_other o k k' v :
  k <> k' -> obj_get (obj_set o k v) k' = obj_get o k'.
Proof.
  intros Hne. induction o as [|[k0 w] o IH]; simpl.
  - destruct (String.eqb_spec k k'); congruence.
  - destruct (String.eqb_spec k0 k) as [->|Hk]; simpl.
    + destruct (String.eqb_spec k k'); congruence.
    + destruct (String.eqb_spec k0 k'); auto.
Qed.

(** Assigning a property keeps a property of all entries that the new
    entry has. *)
Lemma obj_set_Forall (P : string * V -> Prop) o k v :
  Forall P o -> P (k, v) -> Forall P (obj_set o k v).
Proof.
  intros Ho Hkv. induction Ho as [|[k' w] o Hx Ho IH]; simpl.
  - constructor; auto.
  - destruct (String.eqb_spec k' k) as [->|Hk]; constructor; auto.
Qed.

Lemma obj_set_keys_in o k v k' :
  In k' (obj_keys (obj_set o k v)) <-> k' = k \/ In k' (obj_keys o).
Proof.
  unfold obj_keys. induction o as [|[k0 w] o IH]; simpl.
  - intuition congruence.
  - destruct (String.eqb_spec k0 k) as [->|Hk]; simpl.
    + intuition congruence.
    + rewrite IH. intuition congruence.
Qed.

Lemma obj_set_NoDup o k v :
  NoDup (obj_keys o) -> NoDup (obj_keys (obj_set o k v)).
Proof.
  unfold obj_keys. induction o as [|[k0 w] o IH]; simpl; intros Hnd.
  - constructor; [intros []|constructor].
  - inversion Hnd as [|? ? Hnotin Hnd']; subst.
    destruct (String.eqb_spec k0 k) as [->|Hk]; simpl.
    + constructor; auto.
    + constructor; auto.
      intros Hin. apply (obj_set_keys_in o k v k0) in Hin.
      destruct Hin as [->|Hin]; [congruence|]. apply Hnotin, Hin.
Qed.

(** With distinct keys, assigning [k] fixes the one entry under [k]:
    a property that held of every other entry then holds of all. *)
Lemma obj_set_Forall_repair (P : string * V -> Prop) o k v :
  NoDup (obj_keys o) ->
  Forall (fun kv => fst kv <> k -> P kv) o ->
  P (k, v) ->
  Forall P (obj_set o k v).
Proof.
  unfold obj_keys. induction o as [|[k0 w] o IH]; simpl; intros Hnd Ho Hkv.
  - constructor; auto.
  - inversion Hnd as [|? ? Hnotin Hnd']; subst.
    inversion Ho as [|? ? Hx Ho']; subst. simpl in Hx.
    destruct (String.eqb_spec k0 k) as [->|Hk].
    + constructor; auto.
      rewrite Forall_forall in *. intros [k1 w1] Hin.
      apply Ho'; auto. simpl. intros ->.
      apply Hnotin. change k with (fst (k, w1)). now apply in_map.
    + constructor; auto.
Qed.

End ObjFacts.

(** ** Totals: the sum over starting slots (C1) *)

Import Spec Invariants.

Lemma fold_left_add_map {A} (g : A -> float) (l : list A) (a : float) :
  fold_left (fun sum x => (sum + g x)%float) l a
  = fold_left (fun sum y => (sum + y)%float) (map g l) a.
Proof. revert a. induction l as [|x l IH]; simpl; auto. Qed.

Lemma typed_points_agree ps :
  Forall slot_typed ps ->
  map (fun v => or_zero (projectedOf v))
      (filter (fun v => negb (isArray v)) (obj_values ps))
  = map (fun p => or_zero (projectedPoints p)) (startingPlayers ps).
Proof.
  unfold obj_values, startingPlayers, startingSlots.
  induction 1 as [|[k v] ps Hkv _ IH]; simpl; auto.
  unfold slot_typed in Hkv. simpl in Hkv. rewrite Hkv.
  destruct (String.eqb k "BENCH"); simpl; auto.
  destruct v as [p|l]; simpl in *; [|discriminate].
  now rewrite IH.
Qed.

(** Filtering by type and filtering by slot name give the same sum on
    a well-typed lineup. *)
Lemma sum_by_type_is_sum_by_slot ps :
  Forall slot_typed ps -> sumProjected ps = sumOfStarting ps.
Proof.
  intros H. unfold sumProjected, sumOfStarting.
  rewrite (fold_left_add_map (fun v => or_zero (projectedOf v))).
  rewrite (fold_left_add_map (fun p => or_zero (projectedPoints p))).
  now rewrite typed_points_agree.
Qed.

Lemma typed_bench_is_the_array ps :
  Forall slot_typed ps -> benchIsTheArray ps.
Proof.
  intros H k v Hin. rewrite Forall_forall in H.
  specialize (H _ Hin). unfold slot_typed in H. simpl in H. rewrite H.
  apply String.eqb_eq.
Qed.

(** *** ESPN *)

Lemma espn_slot_not_empty slotId lp :
  ESPN.mapESPNLineupPosition slotId = Some lp -> lp <> "".
Proof.
  unfold ESPN.mapESPNLineupPosition.
  destruct (lookup_num ESPN.slotMap slotId) as [[|c s]|]; congruence.
Qed.

Lemma espn_placeEntry_typed ps entry :
  Forall slot_typed ps -> Forall slot_typed (ESPN.placeEntry ps entry).
Proof.
  intros H. unfold ESPN.placeEntry.
  destruct (ESPN.mapESPNLineupPosition _) as [lp|]; auto.
  destruct (String.eqb lp "BENCH") eqn:E; simpl; auto.
  apply obj_set_Forall; auto. unfold slot_typed. simpl. now rewrite E.
Qed.

Lemma espn_fold_typed roster ps :
  Forall slot_typed ps ->
  Forall slot_typed (fold_left ESPN.placeEntry roster ps).
Proof.
  revert ps. induction roster as [|e roster IH]; simpl; intros ps H; auto.
  apply IH, espn_placeEntry_typed, H.
Qed.

Lemma espn_lineupPlayers_typed roster :
  Forall slot_typed (ESPN.lineupPlayers roster).
Proof.
  unfold ESPN.lineupPlayers.
  pose proof (espn_fold_typed roster [] (Forall_nil _)) as H.
  destruct (ESPN.benchPlayers roster); auto.
  apply obj_set_Forall; auto. reflexivity.
Qed.

Lemma espn_getTeamLineup_players response now leagueId teamId week season l :
  ESPN.getTeamLineup response now leagueId teamId week season = Ok l ->
  exists roster,
    players l = ESPN.lineupPlayers roster
    /\ totalProjectedPoints l = sumProjected (players l).
Proof.
  unfold ESPN.getTeamLineup. destruct response as [data|e]; simpl.
  - destruct (find _ (ESPN.teams data)) as [t|]; simpl; [|discriminate].
    intros [= <-]. simpl. eauto.
  - discriminate.
Qed.

(** *** Sleeper *)

Lemma sleeper_placeStarter_typed allPlayers m ps position index :
  position <> "BENCH" ->
  Forall slot_typed ps ->
  Forall slot_typed (Sleeper.placeStarter allPlayers m ps (position, index)).
Proof.
  intros Hp H. unfold Sleeper.placeStarter.
  destruct (nth_error _ _) as [pid|]; auto.
  destruct (Sleeper.isPlayerId pid); auto.
  destruct (allPlayers pid); auto.
  apply obj_set_Forall; auto. unfold slot_typed. simpl.
  symmetry. now apply String.eqb_neq.
Qed.

Lemma sleeper_fold_typed allPlayers m slots ps :
  Forall (fun pi => fst pi <> "BENCH") slots ->
  Forall slot_typed ps ->
  Forall slot_typed (fold_left (Sleeper.placeStarter allPlayers m) slots ps).
Proof.
  intros Hs. revert ps.
  induction Hs as [|[p i] slots Hp _ IH]; simpl; intros ps H; auto.
  apply IH, sleeper_placeStarter_typed; auto.
Qed.

Lemma sleeper_lineupPlayers_typed allPlayers matchup :
  Forall slot_typed (Sleeper.lineupPlayers allPlayers matchup).
Proof.
  unfold Sleeper.lineupPlayers. destruct matchup as [m|]; [|constructor].
  assert (H : Forall slot_typed
                (fold_left (Sleeper.placeStarter allPlayers m)
                   (combine Sleeper.lineupPositions
                      (seq 0 (List.length Sleeper.lineupPositions))) [])).
  { apply sleeper_fold_typed; [|constructor].
    simpl. repeat constructor; simpl; discriminate. }
  destruct (Sleeper.benchPlayers allPlayers m); auto.
  apply obj_set_Forall; auto. reflexivity.
Qed.

Lemma sleeper_getTeamLineup_players rl ms pn now leagueId teamId week l :
  Sleeper.getTeamLineup rl ms pn now leagueId teamId week = Ok l ->
  exists allPlayers matchup,
    players l = Sleeper.lineupPlayers allPlayers matchup
    /\ totalProjectedPoints l = sumProjected (players l).
Proof.
  unfold Sleeper.getTeamLineup.
  destruct rl as [[rosters league]|e]; simpl; [|discriminate].
  destruct (find _ rosters); simpl; [|discriminate].
  destruct ms as [matchups|e]; simpl; [|discriminate].
  destruct pn as [allPlayers|e]; simpl; [|discriminate].
  intros [= <-]. simpl. eauto.
Qed.

(** *** Yahoo *)

Lemma own_property_In table key v :
  own_property table key = Some v -> In (key, v) table.
Proof.
  induction table as [|[k w] table IH]; simpl; [discriminate|].
  destruct (String.eqb_spec k key) as [->|Hk].
  - intros [= ->]. now left.
  - intros H. right. auto.
Qed.

(** The three shapes of [table[key] || fallback]. *)
Lemma lookup_cases table key :
  (exists v, own_property table key = Some v /\ lookup table key = VString v)
  \/ (own_property table key = None /\ inherited key = true
      /\ lookup table key = VNative key)
  \/ (own_property table key = None /\ inherited key = false
      /\ lookup table key = VUndefined).
Proof.
  unfold lookup. destruct (own_property table key) as [v|]; eauto.
  destruct (inherited key); auto.
Qed.

(** The source text of a built-in is no slot name. *)
Lemma native_toString_shape name :
  value_toString (VNative name) = "[object Object]"
  \/ exists rest, value_toString (VNative name) = "function " ++ rest.
Proof.
  simpl. destruct (String.eqb name "__proto__"); auto.
  destruct (String.eqb name "constructor"); right; eexists; reflexivity.
Qed.

(** A roster entry is written under [BENCH] by the loop only when its
    selected position is [BN]. *)
Lemma yahoo_key_BENCH pos :
  truthy (Yahoo.mapYahooLineupPosition pos) = true ->
  value_toString (Yahoo.mapYahooLineupPosition pos) = "BENCH" ->
  pos = "BN".
Proof.
  unfold Yahoo.mapYahooLineupPosition, or_else.
  destruct (lookup_cases Yahoo.lineupPositionMap pos)
    as [(v & Hown & ->)|[(_ & _ & ->)|(_ & _ & ->)]]; simpl.
  - apply own_property_In in Hown. intros _ Hv.
    each_entry Hown ltac:(injection Hown as <- <-; simpl in Hv; congruence).
  - intros _ H.
    destruct (native_toString_shape pos) as [E|[rest E]];
      simpl in E; rewrite E in H; discriminate.
  - discriminate.
Qed.

Lemma yahoo_fold_invariant roster ps :
  NoDup (obj_keys ps) -> Forall is_single ps ->
  let r := fold_left Yahoo.placeEntry roster ps in
  NoDup (obj_keys r) /\ Forall is_single r
  /\ (In "BENCH" (obj_keys r) ->
      In "BENCH" (obj_keys ps)
      \/ exists p, In p roster /\ Yahoo.selected_position p = "BN").
Proof.
  revert ps. induction roster as [|e roster IH]; simpl; intros ps Hnd Hs.
  - auto.
  - unfold Yahoo.placeEntry at 2 4 6.
    destruct (truthy _ && negb _) eqn:E.
    + apply andb_prop in E. destruct E as [Ht _].
      destruct (IH (obj_set ps
                      (value_toString
                         (Yahoo.mapYahooLineupPosition
                            (Yahoo.selected_position e)))
                      (Single (Yahoo.playerOf e)))) as (H1 & H2 & H3).
      { now apply obj_set_NoDup. }
      { apply obj_set_Forall; auto. reflexivity. }
      repeat split; auto. intros Hin. destruct (H3 Hin) as [Hb|(p & Hp & Hsel)].
      * apply obj_set_keys_in in Hb. destruct Hb as [Hb|Hb]; auto.
        right. exists e. split; auto.
        apply yahoo_key_BENCH; auto.
      * right. eauto.
    + destruct (IH ps Hnd Hs) as (H1 & H2 & H3). repeat split; auto.
      intros Hin. destruct (H3 Hin) as [Hb|(p & Hp & Hsel)]; eauto.
Qed.

Lemma yahoo_bench_empty roster :
  Yahoo.benchPlayers roster = [] ->
  forall p, In p roster -> Yahoo.selected_position p <> "BN".
Proof.
  unfold Yahoo.benchPlayers. intros H p Hin Hsel.
  assert (Hf : In p (filter (fun p => String.eqb (Yahoo.selected_position p) "BN")
                        roster)).
  { apply filter_In. split; auto. now apply String.eqb_eq. }
  destruct (filter _ roster); [destruct Hf|discriminate].
Qed.

Lemma yahoo_lineupPlayers_typed roster :
  Forall slot_typed (Yahoo.lineupPlayers roster).
Proof.
  unfold Yahoo.lineupPlayers.
  destruct (yahoo_fold_invariant roster [] (NoDup_nil _) (Forall_nil _))
    as (Hnd & Hs & Hb).
  destruct (Yahoo.benchPlayers roster) eqn:Eb.
  - rewrite Forall_forall in *. intros [k v] Hin.
    specialize (Hs _ Hin). unfold is_single, slot_typed in *. simpl in *.
    rewrite Hs. symmetry. apply String.eqb_neq. intros ->.
    destruct Hb as [[]|(p & Hp & Hsel)].
    + change "BENCH" with (fst ("BENCH", v)). now apply in_map.
    + eapply yahoo_bench_empty; eauto.
  - apply obj_set_Forall_repair; auto; [|reflexivity].
    rewrite Forall_forall in *. intros [k v] Hin Hk.
    specialize (Hs _ Hin). unfold is_single, slot_typed in *. simpl in *.
    rewrite Hs. symmetry. now apply String.eqb_neq.
Qed.

Lemma yahoo_getTeamLineup_players response now leagueId teamId week season l :
  Yahoo.getTeamLineup response now leagueId teamId week season = Ok l ->
  exists roster,
    response = Ok roster
    /\ players l = Yahoo.lineupPlayers roster
    /\ totalProjectedPoints l = sumProjected (players l).
Proof.
  unfold Yahoo.getTeamLineup. destruct response as [roster|e]; simpl.
  - intros [= <-]. simpl. eauto.
  - discriminate.
Qed.

Lemma typed_lineup_total l :
  Forall slot_typed (players l) ->
  totalProjectedPoints l = sumProjected (players l) ->
  totalProjectedPoints l = sumProjected (players l)
  /\ totalProjectedPoints l = sumOfStarting (players l)
  /\ benchIsTheArray (players l).
Proof.
  intros Ht Hs. repeat split; auto.
  - rewrite Hs. now apply sum_by_type_is_sum_by_slot.
  - apply (typed_bench_is_the_array _ Ht k v H).
  - apply (typed_bench_is_the_array _ Ht k v H).
Qed.

(** C1. For each of the three adapters, when [getTeamLineup] returns a
    lineup, its [totalProjectedPoints] is the sum of [projectedPoints]
    (a missing value counting as 0) over the players of the starting
    slots, that is of every slot other than [BENCH]; and the values the
    total leaves out by the [Array.isArray] test are exactly those
    under [BENCH]. *)
Theorem total_is_sum_over_starting_slots :
  (forall response now leagueId teamId week season l,
      ESPN.getTeamLineup response now leagueId teamId week season = Ok l ->
      totalProjectedPoints l = sumProjected (players l)
      /\ totalProjectedPoints l = sumOfStarting (players l)
      /\ benchIsTheArray (players l))
  /\ (forall response now leagueId teamId week season l,
      Yahoo.getTeamLineup response now leagueId teamId week season = Ok l ->
      totalProjectedPoints l = sumProjected (players l)
      /\ totalProjectedPoints l = sumOfStarting (players l)
      /\ benchIsTheArray (players l))
  /\ (forall rosters_league matchups players_nfl now leagueId teamId week l,
      Sleeper.getTeamLineup rosters_league matchups players_nfl now
                            leagueId teamId week = Ok l ->
      totalProjectedPoints l = sumProjected (players l)
      /\ totalProjectedPoints l = sumOfStarting (players l)
      /\ benchIsTheArray (players l)).
Proof.
  split; [|split].
  - intros response now leagueId teamId week season l H.
    apply espn_getTeamLineup_players in H. destruct H as (r & Hp & Ht).
    apply typed_lineup_total; auto.
    rewrite Hp. apply espn_lineupPlayers_typed.
  - intros response now leagueId teamId week season l H.
    apply yahoo_getTeamLineup_players in H. destruct H as (r & _ & Hp & Ht).
    apply typed_lineup_total; auto.
    rewrite Hp. apply yahoo_lineupPlayers_typed.
  - intros rl ms pn now leagueId teamId week l H.
    apply sleeper_getTeamLineup_players in H. destruct H as (a & m & Hp & Ht).
    apply typed_lineup_total; auto.
    rewrite Hp. apply sleeper_lineupPlayers_typed.
Qed.

(** The three adapters run on the sample data: the totals are the sums
    over the starting slots, 38.75, 37 and 0. *)
Lemma total_is_sum_over_starting_slots_witness :
  (exists l,
      ESPN.getTeamLineup (Ok Samples.espnData) 1000 "1" "7" 3 2025%float = Ok l
      /\ totalProjectedPoints l = 38.75%float
      /\ totalProjectedPoints l = sumOfStarting (players l))
  /\ (exists l,
      Yahoo.getTeamLineup (Ok Samples.yahooRoster) 1000 "1" "7" 3 2025%float = Ok l
      /\ totalProjectedPoints l = 37%float
      /\ totalProjectedPoints l = sumOfStarting (players l))
  /\ (exists l,
      Sleeper.getTeamLineup (Ok Samples.sleeperRostersLeague)
        (Ok [Samples.sleeperMatchup]) (Ok Samples.sleeperPlayers) 1000
        "L" "1" 3 = Ok l
      /\ totalProjectedPoints l = 0%float
      /\ totalProjectedPoints l = sumOfStarting (players l)).
Proof.
  destruct total_is_sum_over_starting_slots as (HE & HY & HS).
  split; [|split].
  - eexists. split; [vm_compute; reflexivity|]. split; [reflexivity|].
    refine (proj1 (proj2 (HE (Ok Samples.espnData) 1000%Z "1" "7" 3%Z 2025%float
                             _ _))).
    vm_compute; reflexivity.
  - eexists. split; [vm_compute; reflexivity|]. split; [reflexivity|].
    refine (proj1 (proj2 (HY (Ok Samples.yahooRoster) 1000%Z "1" "7" 3%Z
                             2025%float _ _))).
    vm_compute; reflexivity.
  - eexists. split; [vm_compute; reflexivity|]. split; [reflexivity|].
    refine (proj1 (proj2 (HS (Ok Samples.sleeperRostersLeague)
                    (Ok [Samples.sleeperMatchup]) (Ok Samples.sleeperPlayers)
                    1000%Z "L" "1" 3%Z _ _))).
    vm_compute; reflexivity.
Defined.

(** ** Position tables (C2) *)

Lemma lookup_num_In table key v :
  lookup_num table key = Some v -> In (key, v) table.
Proof.
  induction table as [|[k w] table IH]; simpl; [discriminate|].
  destruct (Z.eqb_spec k key) as [->|Hk].
  - intros [= ->]. now left.
  - intros H. right. auto.
Qed.

(** The claim fails on each table: ESPN answers [UNKNOWN] for an id it
    does not list, Yahoo and Sleeper hand an unlisted position back
    unchanged, and neither value is a canonical position. *)
Lemma position_maps_leave_canonical_set :
  ESPN.mapESPNPosition 7 = "UNKNOWN"
  /\ ~ is_canonical_position (VString (ESPN.mapESPNPosition 7))
  /\ Yahoo.mapYahooPosition "LB" = VString "LB"
  /\ ~ is_canonical_position (Yahoo.mapYahooPosition "LB")
  /\ Sleeper.mapSleeperPosition "LB" = VString "LB"
  /\ ~ is_canonical_position (Sleeper.mapSleeperPosition "LB").
Proof.
  repeat split; try reflexivity;
    intros (s & [= <-] & Hin); simpl in Hin;
    repeat (destruct Hin as [Hin|Hin]; [discriminate|]); destruct Hin.
Qed.

(** C2, amended. For each of the three position tables, a key of the
    table maps to a canonical position, one of QB, RB, WR, TE, K, DEF
    and FLEX. ESPN maps every other position id to the sentinel
    [UNKNOWN]; Yahoo and Sleeper return every other position unchanged,
    provided it does not name an inherited property. *)
Theorem position_maps_on_and_off_table :
  (forall positionId v,
      lookup_num ESPN.positionMap positionId = Some v ->
      is_canonical_position (VString (ESPN.mapESPNPosition positionId)))
  /\ (forall positionId,
      lookup_num ESPN.positionMap positionId = None ->
      ESPN.mapESPNPosition positionId = "UNKNOWN")
  /\ (forall position v,
      own_property Yahoo.positionMap position = Some v ->
      is_canonical_position (Yahoo.mapYahooPosition position))
  /\ (forall position,
      own_property Yahoo.positionMap position = None ->
      inherited position = false ->
      Yahoo.mapYahooPosition position = VString position)
  /\ (forall position v,
      own_property Sleeper.positionMap position = Some v ->
      is_canonical_position (Sleeper.mapSleeperPosition position))
  /\ (forall position,
      own_property Sleeper.positionMap position = None ->
      inherited position = false ->
      Sleeper.mapSleeperPosition position = VString position).
Proof.
  repeat split.
  - intros positionId v H. unfold ESPN.mapESPNPosition. rewrite H.
    apply lookup_num_In in H.
    each_entry H ltac:(injection H as <- <-; eexists; split; [reflexivity|];
                       simpl; tauto).
  - intros positionId H. unfold ESPN.mapESPNPosition. now rewrite H.
  - intros position v H. unfold Yahoo.mapYahooPosition, lookup. rewrite H.
    apply own_property_In in H.
    each_entry H ltac:(injection H as <- <-; eexists; split; [reflexivity|];
                       simpl; tauto).
  - intros position H Hi. unfold Yahoo.mapYahooPosition, lookup.
    now rewrite H, Hi.
  - intros position v H. unfold Sleeper.mapSleeperPosition, lookup. rewrite H.
    apply own_property_In in H.
    each_entry H ltac:(injection H as <- <-; eexists; split; [reflexivity|];
                       simpl; tauto).
  - intros position H Hi. unfold Sleeper.mapSleeperPosition, lookup.
    now rewrite H, Hi.
Qed.

Lemma position_maps_on_and_off_table_witness :
  is_canonical_position (VString (ESPN.mapESPNPosition 16))
  /\ ESPN.mapESPNPosition 7 = "UNKNOWN"
  /\ is_canonical_position (Yahoo.mapYahooPosition "WR")
  /\ Yahoo.mapYahooPosition "LB" = VString "LB"
  /\ is_canonical_position (Sleeper.mapSleeperPosition "TE")
  /\ Sleeper.mapSleeperPosition "" = VString "".
Proof.
  destruct position_maps_on_and_off_table as (E1 & E2 & Y1 & Y2 & S1 & S2).
  split_all.
  - apply (E1 16%Z "DEF"). reflexivity.
  - apply (E2 7%Z). reflexivity.
  - apply (Y1 "WR" "WR"). reflexivity.
  - apply (Y2 "LB"); reflexivity.
  - apply (S1 "TE" "TE"). reflexivity.
  - apply (S2 ""); reflexivity.
Defined.

(** ** Injury status tables (C6) *)

(** C6 at the failing input. The status ["constructor"] is a string
    outside every table, yet [statusMap["constructor"]] finds the
    property every object literal inherits, which is truthy, so the
    [|| 'healthy'] default never applies: each adapter returns a
    built-in function, not one of the four canonical statuses. *)
Theorem injury_status_inherited_key_escapes :
  own_property ESPN.statusMap "constructor" = None
  /\ ESPN.mapESPNInjuryStatus "constructor" = VNative "constructor"
  /\ ~ is_canonical_status (ESPN.mapESPNInjuryStatus "constructor")
  /\ own_property Yahoo.statusMap "constructor" = None
  /\ Yahoo.mapYahooInjuryStatus "constructor" = VNative "constructor"
  /\ ~ is_canonical_status (Yahoo.mapYahooInjuryStatus "constructor")
  /\ own_property Sleeper.statusMap "constructor" = None
  /\ Sleeper.mapSleeperInjuryStatus "constructor" = VNative "constructor"
  /\ ~ is_canonical_status (Sleeper.mapSleeperInjuryStatus "constructor").
Proof.
  repeat split; try reflexivity; intros (s & H & _); discriminate H.
Qed.

(** What does hold: for a status that names no inherited property the
    mapping is total into the four canonical statuses, and a status
    outside the table maps to [healthy]. *)
Lemma status_table_total table status :
  Forall (fun kv => In (snd kv) canonical_statuses) table ->
  inherited status = false ->
  is_canonical_status (or_else (lookup table status) (VString "healthy"))
  /\ (own_property table status = None ->
      or_else (lookup table status) (VString "healthy") = VString "healthy").
Proof.
  intros Ht Hi. unfold lookup. rewrite Hi.
  destruct (own_property table status) as [v|] eqn:E.
  - apply own_property_In in E. rewrite Forall_forall in Ht.
    specialize (Ht _ E). simpl in Ht. split; [|discriminate].
    assert (Hv : v <> "").
    { intros ->. simpl in Ht. intuition discriminate. }
    unfold or_else. destruct v; [congruence|]. simpl. eexists; eauto.
  - split; [|reflexivity]. eexists. split; [reflexivity|]. simpl. auto.
Qed.

Lemma injury_status_total_off_prototype status :
  inherited status = false ->
  is_canonical_status (ESPN.mapESPNInjuryStatus status)
  /\ is_canonical_status (Yahoo.mapYahooInjuryStatus status)
  /\ is_canonical_status (Sleeper.mapSleeperInjuryStatus status)
  /\ (own_property ESPN.statusMap status = None ->
      ESPN.mapESPNInjuryStatus status = VString "healthy")
  /\ (own_property Yahoo.statusMap status = None ->
      Yahoo.mapYahooInjuryStatus status = VString "healthy")
  /\ (own_property Sleeper.statusMap status = None ->
      Sleeper.mapSleeperInjuryStatus status = VString "healthy").
Proof.
  intros Hi.
  assert (HE : Forall (fun kv => In (snd kv) canonical_statuses) ESPN.statusMap)
    by (repeat constructor; simpl; tauto).
  assert (HY : Forall (fun kv => In (snd kv) canonical_statuses) Yahoo.statusMap)
    by (repeat constructor; simpl; tauto).
  assert (HS : Forall (fun kv => In (snd kv) canonical_statuses)
                 Sleeper.statusMap)
    by (repeat constructor; simpl; tauto).
  destruct (status_table_total _ status HE Hi).
  destruct (status_table_total _ status HY Hi).
  destruct (status_table_total _ status HS Hi).
  repeat split; auto.
Qed.

(** ** Sleeper projects nothing (C10) *)

Import SpecLineup.

Lemma zero_projected_sum ps :
  Forall zero_projected ps -> sumProjected ps = 0%float.
Proof.
  unfold sumProjected, obj_values.
  induction 1 as [|[k v] ps Hkv _ IH]; simpl; auto.
  destruct v as [p|l]; simpl; auto.
  rewrite (Hkv p (or_introl eq_refl)). exact IH.
Qed.

Lemma zero_projected_all ps :
  Forall zero_projected ps ->
  forall p, In p (allPlayersOf ps) -> projectedPoints p = Some 0%float.
Proof.
  unfold allPlayersOf. intros H p Hin. apply in_flat_map in Hin.
  destruct Hin as (kv & Hkv & Hp). rewrite Forall_forall in H.
  exact (H kv Hkv p Hp).
Qed.

Lemma sleeper_fold_zero allPlayers m slots ps :
  Forall zero_projected ps ->
  Forall zero_projected (fold_left (Sleeper.placeStarter allPlayers m) slots ps).
Proof.
  revert ps. induction slots as [|[position index] slots IH]; simpl; auto.
  intros ps H. apply IH. unfold Sleeper.placeStarter.
  destruct (nth_error _ _) as [pid|]; auto.
  destruct (Sleeper.isPlayerId pid); auto.
  destruct (allPlayers pid); auto.
  apply obj_set_Forall; auto.
  intros p [<-|[]]. reflexivity.
Qed.

Lemma sleeper_bench_zero allPlayers m p :
  In p (Sleeper.benchPlayers allPlayers m) ->
  projectedPoints p = Some 0%float.
Proof.
  unfold Sleeper.benchPlayers. intros Hin. apply in_flat_map in Hin.
  destruct Hin as (pid & _ & Hp).
  destruct (allPlayers pid); [|destruct Hp].
  destruct Hp as [<-|[]]. reflexivity.
Qed.

Lemma sleeper_lineupPlayers_zero allPlayers matchup :
  Forall zero_projected (Sleeper.lineupPlayers allPlayers matchup).
Proof.
  unfold Sleeper.lineupPlayers. destruct matchup as [m|]; [|constructor].
  pose proof (sleeper_bench_zero allPlayers m) as Hb.
  destruct (Sleeper.benchPlayers allPlayers m).
  - apply sleeper_fold_zero. constructor.
  - apply obj_set_Forall; [apply sleeper_fold_zero; constructor|].
    exact Hb.
Qed.

Lemma sleeper_getLeague_zero lru pn leagueId league :
  Sleeper.getLeague lru pn leagueId = Ok league ->
  forall t p,
    In t (Sleeper.lg_teams league) -> In p (Sleeper.tm_roster t) ->
    Sleeper.pl_projectedPoints p = 0%float.
Proof.
  unfold Sleeper.getLeague.
  destruct lru as [[[lg rosters] users]|e]; simpl; [|discriminate].
  destruct pn as [allPlayers|e]; simpl; [|discriminate].
  intros [= <-] t p Ht Hp. simpl in Ht.
  apply in_map_iff in Ht. destruct Ht as (roster & <- & _). simpl in Hp.
  apply in_flat_map in Hp. destruct Hp as (pid & _ & Hp).
  destruct (allPlayers pid); [|destruct Hp].
  destruct Hp as [<-|[]]. reflexivity.
Qed.

(** C10. Every player the Sleeper adapter produces is projected 0: in
    the lineup [getTeamLineup] returns, starters and bench alike, and
    in the rosters [getLeague] returns. Hence whenever [getTeamLineup]
    returns a lineup, its [totalProjectedPoints] is 0. *)
Theorem sleeper_total_projected_is_zero :
  (forall rosters_league matchups players_nfl now leagueId teamId week l,
      Sleeper.getTeamLineup rosters_league matchups players_nfl now
                            leagueId teamId week = Ok l ->
      (forall p, In p (allPlayersOf (players l)) ->
                 projectedPoints p = Some 0%float)
      /\ totalProjectedPoints l = 0%float)
  /\ (forall league_rosters_users players_nfl leagueId league,
      Sleeper.getLeague league_rosters_users players_nfl leagueId
      = Ok league ->
      forall t p,
        In t (Sleeper.lg_teams league) -> In p (Sleeper.tm_roster t) ->
        Sleeper.pl_projectedPoints p = 0%float).
Proof.
  split.
  - intros rl ms pn now leagueId teamId week l H.
    apply sleeper_getTeamLineup_players in H.
    destruct H as (a & m & Hp & ->). rewrite Hp. split.
    + apply zero_projected_all, sleeper_lineupPlayers_zero.
    + apply zero_projected_sum, sleeper_lineupPlayers_zero.
  - apply sleeper_getLeague_zero.
Qed.

(** The sample league: four players in the lineup, all projected 0,
    and a total of 0. *)
Lemma sleeper_total_projected_is_zero_witness :
  exists l,
    Sleeper.getTeamLineup (Ok Samples.sleeperRostersLeague)
      (Ok [Samples.sleeperMatchup]) (Ok Samples.sleeperPlayers) 1000
      "L" "1" 3
    = Ok l
    /\ List.length (allPlayersOf (players l)) = 4%nat
    /\ (forall p, In p (allPlayersOf (players l)) ->
                  projectedPoints p = Some 0%float)
    /\ totalProjectedPoints l = 0%float.
Proof.
  eexists. split; [vm_compute; reflexivity|]. split; [reflexivity|].
  apply (proj1 sleeper_total_projected_is_zero
           (Ok Samples.sleeperRostersLeague)
           (Ok [Samples.sleeperMatchup]) (Ok Samples.sleeperPlayers)
           1000%Z "L" "1" 3%Z).
  vm_compute; reflexivity.
Defined.

(** ** Yahoo: one slot per position (C9) *)

Section DifferAt.
Context {V : Type}.
Implicit Types (o : obj V) (k K : string) (v : V).

Lemma obj_set_differ_start o K v1 v2 :
  differ_at K (obj_set o K v1) (obj_set o K v2).
Proof.
  induction o as [|[k w] o IH]; simpl.
  - apply differ_here.
  - destruct (String.eqb_spec k K) as [->|Hk].
    + apply differ_here.
    + now apply differ_later.
Qed.

Lemma obj_set_differ_merge o1 o2 K v :
  differ_at K o1 o2 -> obj_set o1 K v = obj_set o2 K v.
Proof.
  induction 1 as [o|v1 v2 o|k w o1 o2 Hk _ IH]; simpl; auto.
  - now rewrite String.eqb_refl.
  - destruct (String.eqb_spec k K); [congruence|]. now rewrite IH.
Qed.

Lemma obj_set_differ_keep o1 o2 K k v :
  differ_at K o1 o2 -> differ_at K (obj_set o1 k v) (obj_set o2 k v).
Proof.
  destruct (String.eqb_spec k K) as [->|Hne].
  - intros H. rewrite (obj_set_differ_merge _ _ _ _ H). apply differ_same.
  - induction 1 as [o|v1 v2 o|k' w o1 o2 Hk H IH]; simpl.
    + apply differ_same.
    + destruct (String.eqb_spec K k); [congruence|]. apply differ_here.
    + destruct (String.eqb_spec k' k).
      * now apply differ_later.
      * now apply differ_later.
Qed.

End DifferAt.

Lemma yahoo_place_keep K o1 o2 e :
  differ_at K o1 o2 ->
  differ_at K (Yahoo.placeEntry o1 e) (Yahoo.placeEntry o2 e).
Proof.
  intros H. unfold Yahoo.placeEntry.
  destruct (truthy _ && negb _); auto. now apply obj_set_differ_keep.
Qed.

Lemma yahoo_place_merge K o1 o2 e :
  differ_at K o1 o2 -> yahoo_writes e K ->
  Yahoo.placeEntry o1 e = Yahoo.placeEntry o2 e.
Proof.
  intros H [Hc Hk]. unfold Yahoo.placeEntry. cbv zeta in Hc. rewrite Hc.
  cbv zeta in Hk. rewrite Hk. now apply obj_set_differ_merge.
Qed.

Lemma yahoo_fold_merge K rest o1 o2 :
  differ_at K o1 o2 ->
  (exists x, In x rest /\ yahoo_writes x K) ->
  fold_left Yahoo.placeEntry rest o1 = fold_left Yahoo.placeEntry rest o2.
Proof.
  revert o1 o2. induction rest as [|a rest IH]; intros o1 o2 H (x & Hin & Hw).
  - destruct Hin.
  - simpl. destruct Hin as [->|Hin].
    + now rewrite (yahoo_place_merge K o1 o2 x H Hw).
    + apply IH; eauto. now apply yahoo_place_keep.
Qed.

(** A key the loop writes comes from the table unless it is the text
    of a built-in. *)
Lemma yahoo_key_from_table pos s :
  truthy (Yahoo.mapYahooLineupPosition pos) = true ->
  value_toString (Yahoo.mapYahooLineupPosition pos) = s ->
  s <> "[object Object]" ->
  (forall rest, s <> "function " ++ rest) ->
  In (pos, s) Yahoo.lineupPositionMap.
Proof.
  unfold Yahoo.mapYahooLineupPosition, or_else.
  destruct (lookup_cases Yahoo.lineupPositionMap pos)
    as [(v & Hown & ->)|[(_ & _ & ->)|(_ & _ & ->)]].
  - destruct (truthy (VString v)); [|discriminate].
    intros _ Hs _ _. simpl in Hs. subst s. now apply own_property_In.
  - intros _ H Ho Hf. change (value_toString (VNative pos) = s) in H.
    destruct (native_toString_shape pos) as [E|[rest E]];
      rewrite H in E; [now apply Ho in E|now apply Hf in E].
  - discriminate.
Qed.

Lemma yahoo_writes_selected sel :
  sel = "RB" \/ sel = "WR" ->
  forall e, yahoo_writes e (yahooSlot sel) <-> Yahoo.selected_position e = sel.
Proof.
  intros Hsel e. unfold yahoo_writes. cbv zeta. split.
  - intros [Hc Hk]. apply andb_prop in Hc. destruct Hc as [Ht _].
    apply (yahoo_key_from_table _ _ Ht) in Hk.
    + destruct Hsel as [-> | ->]; unfold yahooSlot in Hk;
        each_entry Hk congruence.
    + destruct Hsel as [-> | ->]; discriminate.
    + destruct Hsel as [-> | ->]; discriminate.
  - intros ->. destruct Hsel as [-> | ->]; split; reflexivity.
Qed.

Lemma yahoo_fold_untouched K rest o :
  (forall x, In x rest -> ~ yahoo_writes x K) ->
  obj_get (fold_left Yahoo.placeEntry rest o) K = obj_get o K.
Proof.
  revert o. induction rest as [|a rest IH]; intros o H; simpl; auto.
  rewrite IH by (intros x Hx; apply H; now right).
  unfold Yahoo.placeEntry.
  destruct (truthy _ && negb _) eqn:Hc; auto.
  apply obj_get_set_other. intros Hk.
  apply (H a (or_introl eq_refl)). split; auto.
Qed.

Lemma yahoo_lineupPlayers_get roster K :
  K <> "BENCH" ->
  obj_get (Yahoo.lineupPlayers roster) K
  = obj_get (fold_left Yahoo.placeEntry roster []) K.
Proof.
  intros HK. unfold Yahoo.lineupPlayers.
  destruct (Yahoo.benchPlayers roster); auto.
  apply obj_get_set_other. congruence.
Qed.

Lemma yahoo_bench_skips pre e e' rest :
  Yahoo.selected_position e <> "BN" ->
  Yahoo.selected_position e' <> "BN" ->
  Yahoo.benchPlayers (pre ++ e :: rest) = Yahoo.benchPlayers (pre ++ e' :: rest).
Proof.
  intros He He'. unfold Yahoo.benchPlayers. rewrite !filter_app. simpl.
  apply String.eqb_neq in He, He'. now rewrite He, He'.
Qed.

Lemma yahoo_keys_written roster o k :
  In k (obj_keys (fold_left Yahoo.placeEntry roster o)) ->
  In k (obj_keys o) \/ exists x, In x roster /\ yahoo_writes x k.
Proof.
  revert o. induction roster as [|a roster IH]; intros o; simpl; auto.
  intros H. apply IH in H. destruct H as [H|(x & Hx & Hw)]; [|eauto].
  unfold Yahoo.placeEntry in H. destruct (truthy _ && negb _) eqn:Hc; auto.
  apply obj_set_keys_in in H. destruct H as [->|H]; auto.
  right. exists a. split; auto. split; auto.
Qed.

Lemma yahoo_lineup_keys roster k :
  In k (obj_keys (Yahoo.lineupPlayers roster)) ->
  k = "BENCH" \/ exists x, In x roster /\ yahoo_writes x k.
Proof.
  unfold Yahoo.lineupPlayers. intros Hin.
  assert (Hin' : k = "BENCH"
                 \/ In k (obj_keys (fold_left Yahoo.placeEntry roster []))).
  { destruct (Yahoo.benchPlayers roster); auto.
    now apply obj_set_keys_in in Hin. }
  destruct Hin' as [->|Hin']; auto.
  apply yahoo_keys_written in Hin'. destruct Hin' as [[]|H]. auto.
Qed.

Lemma yahoo_never_writes_second_slot e :
  ~ yahoo_writes e "RB2" /\ ~ yahoo_writes e "WR2".
Proof.
  split; intros [Hc Hk]; cbv zeta in *;
    apply andb_prop in Hc; destruct Hc as [Ht _];
    apply (yahoo_key_from_table _ _ Ht) in Hk; try discriminate;
    each_entry Hk congruence.
Qed.

Lemma yahoo_lineup_keys_distinct roster :
  NoDup (obj_keys (Yahoo.lineupPlayers roster)).
Proof.
  unfold Yahoo.lineupPlayers.
  destruct (yahoo_fold_invariant roster [] (NoDup_nil _) (Forall_nil _))
    as (Hnd & _).
  destruct (Yahoo.benchPlayers roster); auto. now apply obj_set_NoDup.
Qed.

Lemma yahoo_writes_or_not e K : yahoo_writes e K \/ ~ yahoo_writes e K.
Proof.
  unfold yahoo_writes. cbv zeta.
  destruct (truthy _ && negb _); [|right; intros [H _]; discriminate H].
  destruct (string_dec
              (value_toString
                 (Yahoo.mapYahooLineupPosition (Yahoo.selected_position e)))
              K) as [H|H]; [left; auto|right; intros [_ H']; auto].
Qed.

(** A slot is written by no entry of a roster, or by a last one. *)
Lemma yahoo_last_writer roster K :
  (forall x, In x roster -> ~ yahoo_writes x K)
  \/ exists pre x post,
      roster = (pre ++ x :: post)%list
      /\ yahoo_writes x K
      /\ forall y, In y post -> ~ yahoo_writes y K.
Proof.
  induction roster as [|a roster IH].
  - left. intros x [].
  - destruct IH as [Hnone|(pre & x & post & -> & Hw & Hpost)].
    + destruct (yahoo_writes_or_not a K) as [Ha|Ha].
      * right. exists [], a, roster. auto.
      * left. intros x [<-|Hx]; auto.
    + right. exists (a :: pre), x, post. auto.
Qed.

(** After the loop a slot holds the player of its last writer. *)
Lemma yahoo_fold_last pre x post o K :
  yahoo_writes x K ->
  (forall y, In y post -> ~ yahoo_writes y K) ->
  obj_get (fold_left Yahoo.placeEntry (pre ++ x :: post) o) K
  = Some (Single (Yahoo.playerOf x)).
Proof.
  intros [Hc Hk] Hpost. rewrite fold_left_app. simpl.
  rewrite yahoo_fold_untouched by exact Hpost.
  unfold Yahoo.placeEntry. cbv zeta in Hc, Hk. rewrite Hc, Hk.
  apply obj_get_set_same.
Qed.

Lemma obj_get_In {V : Type} (o : obj V) k v :
  obj_get o k = Some v -> In (k, v) o.
Proof.
  induction o as [|[k0 w] o IH]; simpl; [discriminate|].
  destruct (String.eqb_spec k0 k) as [->|_].
  - intros [= ->]. now left.
  - intros H. right. now apply IH.
Qed.

(** A starter of the lineup is the player of the last entry written
    to its slot. *)
Lemma yahoo_starter_is_last_writer roster K p :
  obj_get (Yahoo.lineupPlayers roster) K = Some (Single p) ->
  exists pre x post,
    roster = (pre ++ x :: post)%list
    /\ p = Yahoo.playerOf x
    /\ yahoo_writes x K
    /\ forall y, In y post -> ~ yahoo_writes y K.
Proof.
  intros H.
  assert (HK : K <> "BENCH").
  { intros ->. apply obj_get_In in H.
    pose proof (yahoo_lineupPlayers_typed roster) as Ht.
    rewrite Forall_forall in Ht. specialize (Ht _ H).
    unfold slot_typed in Ht. simpl in Ht. discriminate Ht. }
  rewrite yahoo_lineupPlayers_get in H by exact HK.
  destruct (yahoo_last_writer roster K)
    as [Hnone|(pre & x & post & -> & Hw & Hpost)].
  - rewrite yahoo_fold_untouched in H by exact Hnone. discriminate H.
  - rewrite (yahoo_fold_last pre x post [] K Hw Hpost) in H.
    injection H as <-. exists pre, x, post. auto.
Qed.

(** The lineup does not change when an entry that is not the last of
    its position is replaced by another starter of that position. *)
Lemma yahoo_earlier_starter_is_dropped sel pre e e' rest :
  sel = "RB" \/ sel = "WR" ->
  Yahoo.selected_position e = sel ->
  Yahoo.selected_position e' = sel ->
  (exists x, In x rest /\ Yahoo.selected_position x = sel) ->
  Yahoo.lineupPlayers (pre ++ e :: rest)
  = Yahoo.lineupPlayers (pre ++ e' :: rest).
Proof.
  intros Hsel He He' (x & Hx & Hxsel). unfold Yahoo.lineupPlayers.
  rewrite (yahoo_bench_skips pre e e' rest)
    by (destruct Hsel as [-> | ->]; congruence).
  rewrite !fold_left_app. simpl.
  rewrite (yahoo_fold_merge (yahooSlot sel) rest
             (Yahoo.placeEntry (fold_left Yahoo.placeEntry pre []) e)
             (Yahoo.placeEntry (fold_left Yahoo.placeEntry pre []) e')).
  - reflexivity.
  - assert (Hw : yahoo_writes e (yahooSlot sel))
      by now apply yahoo_writes_selected.
    assert (Hw' : yahoo_writes e' (yahooSlot sel))
      by now apply yahoo_writes_selected.
    destruct Hw as [Hc Hk], Hw' as [Hc' Hk']. unfold Yahoo.placeEntry.
    cbv zeta in Hc, Hk, Hc', Hk'. rewrite Hc, Hk, Hc', Hk'.
    apply obj_set_differ_start.
  - exists x. split; auto. now apply yahoo_writes_selected.
Qed.

(** C9. The Yahoo adapter maps a selected position RB to slot RB1 and
    WR to WR1. For every roster the upstream sends, [getTeamLineup]
    returns a lineup, and of that lineup: it has one entry per slot
    and none under RB2 or WR2; of the starters that share the position
    RB (or WR), the last one processed is the player it holds in RB1
    (or WR1); every player in a starting slot is the player of the
    last roster entry written to that slot, so an earlier starter of
    the position is not in the lineup; [totalProjectedPoints] is the
    sum over the players in its starting slots, so an earlier
    starter's points are not in it; and replacing an earlier starter
    by any other starter of that position, with whatever projection,
    gives this same lineup with this same total. *)
Theorem yahoo_same_position_last_wins :
  Yahoo.mapYahooLineupPosition "RB" = VString "RB1"
  /\ Yahoo.mapYahooLineupPosition "WR" = VString "WR1"
  /\ forall roster now leagueId teamId week season,
      exists lineup,
        Yahoo.getTeamLineup (Ok roster) now leagueId teamId week season
        = Ok lineup
        /\ NoDup (obj_keys (players lineup))
        /\ ~ In "RB2" (obj_keys (players lineup))
        /\ ~ In "WR2" (obj_keys (players lineup))
        /\ (forall sel pre e post,
               sel = "RB" \/ sel = "WR" ->
               roster = (pre ++ e :: post)%list ->
               Yahoo.selected_position e = sel ->
               (forall x, In x post -> Yahoo.selected_position x <> sel) ->
               obj_get (players lineup) (yahooSlot sel)
               = Some (Single (Yahoo.playerOf e)))
        /\ (forall K p,
               obj_get (players lineup) K = Some (Single p) ->
               exists pre x post,
                 roster = (pre ++ x :: post)%list
                 /\ p = Yahoo.playerOf x
                 /\ yahoo_writes x K
                 /\ forall y, In y post -> ~ yahoo_writes y K)
        /\ totalProjectedPoints lineup = sumOfStarting (players lineup)
        /\ (forall sel pre e e' rest,
               sel = "RB" \/ sel = "WR" ->
               roster = (pre ++ e :: rest)%list ->
               Yahoo.selected_position e = sel ->
               Yahoo.selected_position e' = sel ->
               (exists x, In x rest /\ Yahoo.selected_position x = sel) ->
               Yahoo.getTeamLineup (Ok (pre ++ e' :: rest)%list) now
                                   leagueId teamId week season
               = Ok lineup).
Proof.
  split; [reflexivity|]. split; [reflexivity|].
  intros roster now leagueId teamId week season.
  eexists. split; [reflexivity|]. cbn [players totalProjectedPoints].
  split; [apply yahoo_lineup_keys_distinct|].
  split; [|split; [|split; [|split; [|split]]]].
  - intros Hin. apply yahoo_lineup_keys in Hin.
    destruct Hin as [Hin|(x & _ & Hw)]; [discriminate Hin|].
    now apply (yahoo_never_writes_second_slot x) in Hw.
  - intros Hin. apply yahoo_lineup_keys in Hin.
    destruct Hin as [Hin|(x & _ & Hw)]; [discriminate Hin|].
    now apply (yahoo_never_writes_second_slot x) in Hw.
  - intros sel pre e post Hsel -> He Hpost.
    rewrite yahoo_lineupPlayers_get
      by (destruct Hsel as [-> | ->]; discriminate).
    apply yahoo_fold_last.
    + now apply yahoo_writes_selected.
    + intros x Hx Hw. apply yahoo_writes_selected in Hw; auto.
      exact (Hpost x Hx Hw).
  - intros K p. apply yahoo_starter_is_last_writer.
  - apply sum_by_type_is_sum_by_slot, yahoo_lineupPlayers_typed.
  - intros sel pre e e' rest Hsel -> He He' Hlater.
    unfold Yahoo.getTeamLineup. cbn [bind try_catch].
    now rewrite (yahoo_earlier_starter_is_dropped sel pre e e' rest).
Qed.

(** On the sample roster (RB, QB, RB, BN): the lineup holds the second
    running back in RB1 and the quarterback, its total is 37 (22.5 and
    14.5, without the 16.25 of the first running back), and the first
    running back could as well be another one projected 99.5. *)
Lemma yahoo_same_position_last_wins_witness :
  exists lineup,
    Yahoo.getTeamLineup (Ok Samples.yahooRoster) 1000 "1" "7" 3 2025%float
    = Ok lineup
    /\ obj_get (players lineup) "RB1"
       = Some (Single (Yahoo.playerOf Samples.yahooRB2))
    /\ map Model.id (startingPlayers (players lineup)) = ["32"; "30"]
    /\ totalProjectedPoints lineup = 37%float
    /\ Yahoo.getTeamLineup
         (Ok [Samples.yahooRB3; Samples.yahooQB; Samples.yahooRB2;
              Samples.yahooBN]) 1000 "1" "7" 3 2025%float
       = Ok lineup.
Proof.
  destruct (proj2 (proj2 yahoo_same_position_last_wins)
              Samples.yahooRoster 1000%Z "1" "7" 3%Z 2025%float)
    as (lineup & E & _ & _ & _ & Hlast & _ & Htotal & Hearlier).
  exists lineup. split; [exact E|]. split; [|split; [|split]].
  - refine (Hlast "RB" [Samples.yahooRB1; Samples.yahooQB] Samples.yahooRB2
                  [Samples.yahooBN] (or_introl eq_refl) eq_refl eq_refl _).
    intros x [<-|[]]. discriminate.
  - injection E as <-. reflexivity.
  - rewrite Htotal. injection E as <-. vm_compute. reflexivity.
  - refine (Hearlier "RB" [] Samples.yahooRB1 Samples.yahooRB3
                     [Samples.yahooQB; Samples.yahooRB2; Samples.yahooBN]
                     (or_introl eq_refl) eq_refl eq_refl eq_refl _).
    exists Samples.yahooRB2. split; [simpl; auto|reflexivity].
Defined.

(** ** The ESPN session (C7, C8) *)

Import ESPNWeb SpecWeb.

Lemma isAuthenticated_no_session env w :
  authSession w = None -> isAuthenticated env w = (Ok false, w).
Proof. intros H. unfold isAuthenticated. now rewrite H. Qed.

Lemma isAuthenticated_expired env w s :
  authSession w = Some s ->
  (expiresAt s < clock env (ticks w))%Z ->
  isAuthenticated env w = (Ok false, cleared w).
Proof.
  intros H Hexp. unfold isAuthenticated. rewrite H.
  unfold bindM, Date_now. simpl.
  apply Z.ltb_lt in Hexp. now rewrite Hexp.
Qed.

Lemma isAuthenticated_valid env w s :
  authSession w = Some s ->
  (clock env (ticks w) <= expiresAt s)%Z ->
  isAuthenticated env w = (Ok (session_isAuthenticated s), ticked w).
Proof.
  intros H Hval. unfold isAuthenticated. rewrite H.
  unfold bindM, Date_now. simpl.
  apply Z.ltb_ge in Hval. now rewrite Hval.
Qed.

Lemma removed_key_absent (o : obj string) key :
  obj_get (filter (fun kv => negb (String.eqb (fst kv) key)) o) key = None.
Proof.
  induction o as [|[k v] o IH]; simpl; auto.
  destruct (String.eqb k key) eqn:E; simpl; auto. now rewrite E.
Qed.

(** C8. With a session whose [expiresAt] lies before the clock,
    [isAuthenticated()] returns [false], and afterwards the in-memory
    session is [null], the storage has no entry under
    [espn_auth_session], and the trace has one more removal. A second
    call returns [false] again and changes nothing: no further
    removal. *)
Theorem expired_session_is_cleared_once env w s :
  authSession w = Some s ->
  (expiresAt s < clock env (ticks w))%Z ->
  exists w1,
    isAuthenticated env w = (Ok false, w1)
    /\ authSession w1 = None
    /\ obj_get (localStorage w1) storageKey = None
    /\ trace w1 = (trace w ++ [StorageRemove storageKey])%list
    /\ clearings w1 = S (clearings w)
    /\ isAuthenticated env w1 = (Ok false, w1).
Proof.
  intros H Hexp. exists (cleared w).
  split; [now apply isAuthenticated_expired with s|].
  split; [reflexivity|]. split; [apply removed_key_absent|].
  split; [reflexivity|]. split.
  - unfold clearings, cleared. simpl. rewrite filter_app, length_app. simpl.
    lia.
  - now apply isAuthenticated_no_session.
Qed.

(** C7. When there is no session, or the session's expiry lies before
    the clock, [getTeamFromUrl] throws the not-authenticated error and
    has sent no request: the requests in the trace are those that were
    there before. *)
Theorem unauthenticated_fails_before_any_request env teamUrl w :
  authSession w = None
  \/ (exists s, authSession w = Some s
                /\ (expiresAt s < clock env (ticks w))%Z) ->
  exists w1,
    getTeamFromUrl env teamUrl w
    = (Throw (mkError "Not authenticated with ESPN. Please log in first."), w1)
    /\ requests w1 = requests w.
Proof.
  intros [H|(s & H & Hexp)]; unfold getTeamFromUrl, bindM.
  - rewrite (isAuthenticated_no_session env w H).
    rewrite (isAuthenticated_no_session env w H). simpl.
    exists w. split; reflexivity.
  - rewrite (isAuthenticated_expired env w s H Hexp).
    rewrite (isAuthenticated_no_session env (cleared w) eq_refl). simpl.
    exists (cleared w). split; [reflexivity|].
    unfold requests, cleared. simpl. rewrite filter_app. simpl.
    now rewrite app_nil_r.
Qed.

Lemma expired_session_is_cleared_once_witness :
  exists w1,
    isAuthenticated (SamplesWeb.envWith 9000 SamplesWeb.teamPage)
                    SamplesWeb.loggedIn = (Ok false, w1)
    /\ authSession w1 = None
    /\ localStorage w1 = []
    /\ clearings w1 = 1%nat
    /\ isAuthenticated (SamplesWeb.envWith 9000 SamplesWeb.teamPage) w1
       = (Ok false, w1).
Proof.
  destruct (expired_session_is_cleared_once
              (SamplesWeb.envWith 9000 SamplesWeb.teamPage)
              SamplesWeb.loggedIn SamplesWeb.session eq_refl eq_refl)
    as (w1 & H1 & H2 & H3 & H4 & H5 & H6).
  exists w1. repeat split; auto.
  - vm_compute in H1. now injection H1 as <-.
Defined.

Lemma unauthenticated_fails_before_any_request_witness :
  (exists w1,
      getTeamFromUrl (SamplesWeb.envWith 9000 SamplesWeb.teamPage)
                     SamplesWeb.teamUrl SamplesWeb.loggedIn
      = (Throw (mkError "Not authenticated with ESPN. Please log in first."),
         w1)
      /\ requests w1 = [])
  /\ (exists w1,
      getTeamFromUrl (SamplesWeb.envWith 1000 SamplesWeb.teamPage)
                     SamplesWeb.teamUrl
                     {| authSession := None; localStorage := [];
                        ticks := 0; trace := [] |}
      = (Throw (mkError "Not authenticated with ESPN. Please log in first."),
         w1)
      /\ requests w1 = []).
Proof.
  split.
  - apply (unauthenticated_fails_before_any_request
             (SamplesWeb.envWith 9000 SamplesWeb.teamPage)
             SamplesWeb.teamUrl SamplesWeb.loggedIn).
    right. exists SamplesWeb.session. split; reflexivity.
  - apply (unauthenticated_fails_before_any_request
             (SamplesWeb.envWith 1000 SamplesWeb.teamPage)
             SamplesWeb.teamUrl
             {| authSession := None; localStorage := [];
                ticks := 0; trace := [] |}).
    left. reflexivity.
Defined.

(** ** Parse strategies in order (C3) *)


Lemma rename_same t : rename t (mock_name t) = t.
Proof. now destruct t. Qed.




(** ** Login pages (C5) *)

(** The sample team page has no document type declaration and links to
    [/login]. The session is valid, the second proxy answers with the
    page, and [getTeamFromUrl] parses it as team data. *)
Lemma page_mentioning_login_is_parsed :
  Str.includes "login" SamplesWeb.teamPage = true
  /\ validSession (SamplesWeb.envWith 1000 SamplesWeb.teamPage)
                  SamplesWeb.loggedIn SamplesWeb.session
  /\ answer (SamplesWeb.envWith 1000 SamplesWeb.teamPage)
            (teamPageUrl "45" "7" "2025") "espn_s2=abc"
     = Ok {| status := 200; data := SamplesWeb.teamPage |}
  /\ (exists t w,
         getTeamFromUrl (SamplesWeb.envWith 1000 SamplesWeb.teamPage)
                        SamplesWeb.teamUrl SamplesWeb.loggedIn
         = (Ok (Scraped t), w)
         /\ st_name t = "Gridiron Gang"
         /\ sl_players (st_lineup t) = extractPlayers SamplesWeb.teamPage
         /\ map sp_name (sl_players (st_lineup t)) = ["Lions"]).
Proof.
  split; [vm_compute; reflexivity|].
  split; [repeat split; vm_compute; congruence|].
  split; [vm_compute; reflexivity|].
  eexists. eexists. split; [vm_compute; reflexivity|].
  split; [reflexivity|]. split; vm_compute; reflexivity.
Qed.

Lemma seasonOf_reads env teamUrl w :
  exists w',
    seasonOf env teamUrl w = (Ok (seasonAt env teamUrl (ticks w)), w')
    /\ authSession w' = authSession w
    /\ seasonAt env teamUrl (ticks w') = seasonAt env teamUrl (S (ticks w)).
Proof.
  unfold seasonOf, seasonAt.
  destruct (urlParam teamUrl "season") as [[|c season]|].
  - eexists. split; [reflexivity|]. split; reflexivity.
  - exists w. split; [reflexivity|]. split; reflexivity.
  - eexists. split; [reflexivity|]. split; reflexivity.
Qed.

(** The [try] block on a response that looks like a login page. *)
Lemma fetchAndParse_login env teamUrl w s leagueId teamId response :
  authSession w = Some s ->
  urlParam teamUrl "leagueId" = Some leagueId -> leagueId <> "" ->
  urlParam teamUrl "teamId" = Some teamId -> teamId <> "" ->
  answer env (teamPageUrl leagueId teamId (seasonAt env teamUrl (ticks w)))
         (cookies s) = Ok response ->
  looksLikeLoginPage (data response) = true ->
  exists w2,
    fetchAndParse env teamUrl w
    = (Throw (mkError
                "Authentication failed - got login page instead of team data"),
       w2)
    /\ seasonAt env teamUrl (ticks w2) = seasonAt env teamUrl (S (ticks w)).
Proof.
  intros Hs HL HLne HT HTne Hans Hlogin.
  destruct (seasonOf_reads env teamUrl w) as (w1 & Hseason & Hs1 & Ht1).
  unfold fetchAndParse, bindM. rewrite Hseason, HL, HT.
  destruct leagueId as [|c1 l1]; [congruence|].
  destruct teamId as [|c2 t2]; [congruence|].
  unfold sessionCookies. rewrite Hs1, Hs. unfold ret at 1.
  unfold answer, teamPageUrl in Hans. unfold tryM, axios_get.
  destruct (http_get env _ _ _) as [r|e] eqn:EA.
  - injection Hans as ->. unfold looksLikeLoginPage in Hlogin.
    rewrite Hlogin. unfold throw. eexists. split; [reflexivity|exact Ht1].
  - rewrite Hans. unfold looksLikeLoginPage in Hlogin.
    rewrite Hlogin. unfold throw. eexists. split; [reflexivity|exact Ht1].
Qed.

(** C5, amended. With a valid session and an address that names the
    league and the team, when the response (of the first proxy that
    answers) contains [<!DOCTYPE] and [login] or [signin], the [try]
    block of [getTeamFromUrl] throws the authentication failure without
    parsing the response, and [getTeamFromUrl] itself returns the mock
    team of its [catch] block, which depends on the address alone. *)
Theorem login_document_is_not_parsed
    env teamUrl w s leagueId teamId response :
  validSession env w s ->
  urlParam teamUrl "leagueId" = Some leagueId -> leagueId <> "" ->
  urlParam teamUrl "teamId" = Some teamId -> teamId <> "" ->
  answer env
         (teamPageUrl leagueId teamId (seasonAt env teamUrl (2 + ticks w)))
         (cookies s) = Ok response ->
  looksLikeLoginPage (data response) = true ->
  (exists w2,
      fetchAndParse env teamUrl (ticked (ticked w))
      = (Throw (mkError
                  "Authentication failed - got login page instead of team data"),
         w2))
  /\ (exists w3,
      getTeamFromUrl env teamUrl w
      = (Ok (Mock (createMockTeamData (Some leagueId) (Some teamId)
                     (seasonAt env teamUrl (3 + ticks w)))), w3)).
Proof.
  intros (Hs & Hflag & Hv1 & Hv2) HL HLne HT HTne Hans Hlogin.
  destruct (fetchAndParse_login env teamUrl (ticked (ticked w)) s
              leagueId teamId response Hs HL HLne HT HTne Hans Hlogin)
    as (w2 & Htry & Hseason).
  split; [eauto|].
  unfold getTeamFromUrl, bindM.
  rewrite (isAuthenticated_valid env w s Hs Hv1).
  rewrite (isAuthenticated_valid env (ticked w) s Hs Hv2).
  rewrite Hflag. unfold tryM. cbn beta iota delta [negb]. rewrite Htry.
  destruct (seasonOf_reads env teamUrl w2) as (w3 & Hcatch & _ & _).
  unfold fallBack, bindM. rewrite Hcatch. unfold ret.
  rewrite HL, HT, Hseason. eexists. reflexivity.
Qed.

Lemma login_document_is_not_parsed_witness :
  looksLikeLoginPage SamplesWeb.loginPage = true
  /\ (exists w3,
      getTeamFromUrl (SamplesWeb.envWith 1000 SamplesWeb.loginPage)
                     SamplesWeb.teamUrl SamplesWeb.loggedIn
      = (Ok (Mock (createMockTeamData (Some "45") (Some "7") "2025")), w3)).
Proof.
  split; [vm_compute; reflexivity|].
  refine (proj2 (login_document_is_not_parsed
                   (SamplesWeb.envWith 1000 SamplesWeb.loginPage)
                   SamplesWeb.teamUrl SamplesWeb.loggedIn SamplesWeb.session
                   "45" "7" {| status := 200; data := SamplesWeb.loginPage |}
                   _ _ _ _ _ _ _)).
  - repeat split; vm_compute; congruence.
  - vm_compute; reflexivity.
  - discriminate.
  - vm_compute; reflexivity.
  - discriminate.
  - vm_compute; reflexivity.
  - vm_compute; reflexivity.
Defined.

(** ** The dispatcher and errors (C4) *)

Import Unified.

(** With the network down, the ESPN adapter's [getTeamLineup] throws
    and the dispatcher's [getTeamLineup] lets the exception through to
    its caller; and for a platform without adapter both lineup
    operations throw themselves. *)
Lemma lineup_errors_reach_the_caller :
  ESPN.getTeamLineup (Throw SamplesNet.networkError) 1000 "1" "7" 3 2025%float
  = Throw (mkError
             "Failed to fetch lineup for team 7: AxiosError: Network Error")
  /\ Unified.getTeamLineup (servicesOn SamplesNet.offline) None
                           SamplesNet.espnTeam 3
     = Throw (mkError
                "Failed to fetch lineup for team 7: AxiosError: Network Error")
  /\ Unified.getTeamLineup (servicesOn SamplesNet.online) None
                           SamplesNet.cbsTeam 3
     = Throw (mkError "Unsupported platform: CBS")
  /\ Unified.updateTeamLineup (servicesOn SamplesNet.online) None
                              SamplesNet.cbsTeam 3 None
     = Throw (mkError "Unsupported platform: CBS").
Proof. repeat split; vm_compute; reflexivity. Qed.

Lemma connectPlatform_catches svc now platform credentials token :
  fst (connectPlatform svc now platform credentials token)
  = match fst (connect svc now platform credentials token) with
    | Ok r => Ok r
    | Throw e =>
        Ok {| success := false; cr_platform := platform; cr_teams := [];
              cr_error := Some (err_message e) |}
    end.
Proof.
  unfold connectPlatform.
  destruct (connect svc now platform credentials token) as [[r|e] t];
    reflexivity.
Qed.

Lemma adapters_updateLineup_return net token team week lineup :
  ft_platform team = "ESPN" \/ ft_platform team = "Yahoo"
  \/ ft_platform team = "Sleeper" ->
  exists b,
    updateTeamLineup (servicesOn net) token team week lineup = Ok b.
Proof.
  unfold updateTeamLineup. intros [H|[H|H]]; rewrite H; simpl.
  - eexists; reflexivity.
  - unfold Yahoo.updateLineup. destruct (yahoo_put net _ _ _ _); simpl; eauto.
  - unfold Sleeper.updateLineup. destruct (sleeper_put net _ _ _); simpl; eauto.
Qed.

(** C4, amended. [connectPlatform] never throws: whatever is thrown
    while connecting, by an adapter or by the dispatcher's own checks,
    comes back as a [ConnectionResult] with [success = false], no team
    and the error's message. [getTeamLineup] and [updateTeamLineup]
    have no handler: they return what the adapter's operation returns
    and throw what it throws, and for a platform other than ESPN,
    Yahoo and Sleeper they throw themselves. The three adapters'
    [updateLineup] never throw, so on them [updateTeamLineup] returns a
    boolean for each of the three platforms. *)
Theorem dispatcher_catches_only_when_connecting :
  (forall svc now platform credentials token,
      exists r,
        fst (connectPlatform svc now platform credentials token) = Ok r)
  /\ (forall svc now platform credentials token e,
      fst (connect svc now platform credentials token) = Throw e ->
      fst (connectPlatform svc now platform credentials token)
      = Ok {| success := false; cr_platform := platform; cr_teams := [];
              cr_error := Some (err_message e) |})
  /\ (forall svc token team week,
      (ft_platform team = "ESPN" ->
       Unified.getTeamLineup svc token team week
       = espn_getTeamLineup svc (ft_leagueId team)
           (Str.replace "espn-" "" (ft_id team)) week (ft_season team))
      /\ (ft_platform team = "Yahoo" ->
          Unified.getTeamLineup svc token team week
          = yahoo_getTeamLineup svc token (ft_leagueId team)
              (Str.replace "yahoo-" "" (ft_id team)) week (ft_season team))
      /\ (ft_platform team = "Sleeper" ->
          Unified.getTeamLineup svc token team week
          = sleeper_getTeamLineup svc (ft_leagueId team)
              (Str.replace "sleeper-" "" (ft_id team)) week)
      /\ (ft_platform team <> "ESPN" -> ft_platform team <> "Yahoo" ->
          ft_platform team <> "Sleeper" ->
          Unified.getTeamLineup svc token team week
          = Throw (mkError ("Unsupported platform: " ++ ft_platform team))))
  /\ (forall svc token team week lineup,
      (ft_platform team = "ESPN" ->
       updateTeamLineup svc token team week lineup
       = espn_updateLineup svc (ft_leagueId team)
           (Str.replace "espn-" "" (ft_id team)) week lineup)
      /\ (ft_platform team = "Yahoo" ->
          updateTeamLineup svc token team week lineup
          = yahoo_updateLineup svc token (ft_leagueId team)
              (Str.replace "yahoo-" "" (ft_id team)) week lineup)
      /\ (ft_platform team = "Sleeper" ->
          updateTeamLineup svc token team week lineup
          = sleeper_updateLineup svc (ft_leagueId team)
              (Str.replace "sleeper-" "" (ft_id team)) week lineup)
      /\ (ft_platform team <> "ESPN" -> ft_platform team <> "Yahoo" ->
          ft_platform team <> "Sleeper" ->
          updateTeamLineup svc token team week lineup
          = Throw (mkError ("Unsupported platform: " ++ ft_platform team))))
  /\ (forall net token team week lineup,
      ft_platform team = "ESPN" \/ ft_platform team = "Yahoo"
      \/ ft_platform team = "Sleeper" ->
      exists b,
        updateTeamLineup (servicesOn net) token team week lineup = Ok b).
Proof.
  split_all.
  - intros. rewrite connectPlatform_catches.
    destruct (fst (connect svc now platform credentials token)); eauto.
  - intros svc now platform credentials token e H.
    rewrite connectPlatform_catches. now rewrite H.
  - intros svc token team week.
    unfold Unified.getTeamLineup.
    split_all.
    + intros ->. reflexivity.
    + intros ->. reflexivity.
    + intros ->. reflexivity.
    + intros H1 H2 H3. apply String.eqb_neq in H1, H2, H3.
      now rewrite H1, H2, H3.
  - intros svc token team week lineup.
    unfold updateTeamLineup.
    split_all.
    + intros ->. reflexivity.
    + intros ->. reflexivity.
    + intros ->. reflexivity.
    + intros H1 H2 H3. apply String.eqb_neq in H1, H2, H3.
      now rewrite H1, H2, H3.
  - apply adapters_updateLineup_return.
Qed.

(** With the network down, connecting to ESPN reports the adapter's
    error as a result; asking for a lineup throws it. *)
Lemma dispatcher_catches_only_when_connecting_witness :
  fst (connectPlatform (servicesOn SamplesNet.offline) 1000 "ESPN"
         [("leagueId", "1"); ("teamId", "7")] None)
  = Ok {| success := false; cr_platform := "ESPN"; cr_teams := [];
          cr_error :=
            Some "ESPN connection failed: Error: Failed to fetch league 1: AxiosError: Network Error" |}
  /\ Unified.getTeamLineup (servicesOn SamplesNet.offline) None
                           SamplesNet.espnTeam 3
     = ESPN.getTeamLineup (Throw SamplesNet.networkError) 1000 "1" "7" 3 2025%float
  /\ (exists b,
         updateTeamLineup (servicesOn SamplesNet.offline) None
                          SamplesNet.espnTeam 3 None = Ok b).
Proof.
  destruct dispatcher_catches_only_when_connecting
    as (_ & Hconnect & Hget & _ & Hupdate).
  split; [|split].
  - apply (Hconnect (servicesOn SamplesNet.offline) 1000%Z "ESPN"
             [("leagueId", "1"); ("teamId", "7")] None
             (mkError "ESPN connection failed: Error: Failed to fetch league 1: AxiosError: Network Error")).
    vm_compute. reflexivity.
  - destruct (Hget (servicesOn SamplesNet.offline) None SamplesNet.espnTeam 3%Z)
      as (H & _).
    rewrite H; reflexivity.
  - apply Hupdate. left. reflexivity.
Defined.

(* ================================================================== *)
(** * Part III. Further properties of the code                          *)
(* ================================================================== *)

(** ** ESPN: the shape of a lineup *)

Import SpecRest.

Section ObjMore.
Context {V : Type}.
Implicit Types (o : obj V) (k : string) (v : V).

Lemma obj_set_In o k v k' v' :
  In (k', v') (obj_set o k v) -> (k', v') = (k, v) \/ In (k', v') o.
Proof.
  induction o as [|[k0 w] o IH]; simpl.
  - intros [H|[]]; auto.
  - destruct (String.eqb_spec k0 k) as [->|Hk]; simpl.
    + intros [H|H]; auto.
    + intros [H|H]; auto. destruct (IH H); auto.
Qed.

Lemma obj_get_None_keys o k :
  obj_get o k = None <-> ~ In k (obj_keys o).
Proof.
  unfold obj_keys. induction o as [|[k0 w] o IH]; simpl.
  - tauto.
  - destruct (String.eqb_spec k0 k) as [->|Hk].
    + split; [discriminate|]. intros H. exfalso. auto.
    + rewrite IH. tauto.
Qed.

Lemma obj_set_fresh o k v :
  ~ In k (obj_keys o) -> obj_set o k v = (o ++ [(k, v)])%list.
Proof.
  unfold obj_keys. induction o as [|[k0 w] o IH]; simpl; auto.
  intros H. destruct (String.eqb_spec k0 k) as [->|Hk].
  - exfalso. auto.
  - rewrite IH; auto.
Qed.

End ObjMore.

Lemma espn_slot_20 slotId :
  ESPN.mapESPNLineupPosition slotId = Some "BENCH" <-> slotId = 20%Z.
Proof.
  split.
  - unfold ESPN.mapESPNLineupPosition.
    destruct (lookup_num ESPN.slotMap slotId) as [v|] eqn:E; [|discriminate].
    apply lookup_num_In in E. intros H.
    assert (Hv : v = "BENCH") by (destruct v; congruence).
    subst v. each_entry E ltac:(congruence).
  - intros ->. reflexivity.
Qed.

Lemma espn_slot_names slotId k :
  ESPN.mapESPNLineupPosition slotId = Some k -> In k espnSlotNames.
Proof.
  unfold ESPN.mapESPNLineupPosition, espnSlotNames.
  destruct (lookup_num ESPN.slotMap slotId) as [v|] eqn:E; [|discriminate].
  apply lookup_num_In in E. intros H.
  assert (Hv : v = k) by (destruct v; congruence). subst v.
  change k with (snd (slotId, k)). now apply in_map.
Qed.

(** What the loop of the ESPN adapter writes for an entry. *)
Lemma espn_placeEntry_cases ps entry :
  (exists k, ESPN.mapESPNLineupPosition (ESPN.lineupSlotId entry) = Some k
             /\ k <> "BENCH"
             /\ ESPN.placeEntry ps entry
                = obj_set ps k (Single (ESPN.playerOf entry)))
  \/ ((ESPN.mapESPNLineupPosition (ESPN.lineupSlotId entry) = None
       \/ ESPN.lineupSlotId entry = 20%Z)
      /\ ESPN.placeEntry ps entry = ps).
Proof.
  unfold ESPN.placeEntry.
  destruct (ESPN.mapESPNLineupPosition _) as [k|] eqn:E; [|right; auto].
  destruct (String.eqb_spec k "BENCH") as [->|Hk]; simpl.
  - right. split; auto. right. now apply espn_slot_20.
  - left. exists k. auto.
Qed.

Lemma espn_fold_keys roster ps k :
  In k (obj_keys (fold_left ESPN.placeEntry roster ps)) ->
  In k (obj_keys ps)
  \/ (k <> "BENCH"
      /\ exists e, In e roster
                   /\ ESPN.mapESPNLineupPosition (ESPN.lineupSlotId e) = Some k).
Proof.
  revert ps. induction roster as [|a roster IH]; intros ps; simpl; auto.
  intros H. apply IH in H. destruct H as [H|(Hk & e & He & Hm)].
  - destruct (espn_placeEntry_cases ps a) as [(k' & Hm & Hne & E)|(_ & E)];
      rewrite E in H; auto.
    apply obj_set_keys_in in H. destruct H as [->|H]; auto.
    right. split; auto. exists a. auto.
  - right. split; auto. exists e. auto.
Qed.

Lemma espn_fold_NoDup roster ps :
  NoDup (obj_keys ps) -> NoDup (obj_keys (fold_left ESPN.placeEntry roster ps)).
Proof.
  revert ps. induction roster as [|a roster IH]; intros ps H; simpl; auto.
  apply IH.
  destruct (espn_placeEntry_cases ps a) as [(k' & _ & _ & ->)|(_ & ->)]; auto.
  now apply obj_set_NoDup.
Qed.

Lemma espn_bench_nonempty roster :
  ESPN.benchPlayers roster = map ESPN.playerOf (espnBenchEntries roster).
Proof. reflexivity. Qed.

(** X1. The shape of an ESPN lineup, whatever the roster: its keys are
    distinct slot names of the table, so it has at most ten entries;
    [BENCH] is present exactly when some entry sits in slot 20, and
    then holds the players of those entries, in roster order. *)
Theorem espn_lineup_shape roster :
  NoDup (obj_keys (ESPN.lineupPlayers roster))
  /\ incl (obj_keys (ESPN.lineupPlayers roster)) espnSlotNames
  /\ (List.length (ESPN.lineupPlayers roster) <= 10)%nat
  /\ obj_get (ESPN.lineupPlayers roster) "BENCH"
     = match espnBenchEntries roster with
       | [] => None
       | entries => Some (Many (map ESPN.playerOf entries))
       end.
Proof.
  assert (Hnd : NoDup (obj_keys (ESPN.lineupPlayers roster))).
  { unfold ESPN.lineupPlayers.
    pose proof (espn_fold_NoDup roster [] (NoDup_nil _)) as H.
    destruct (ESPN.benchPlayers roster); auto. now apply obj_set_NoDup. }
  assert (Hincl : incl (obj_keys (ESPN.lineupPlayers roster)) espnSlotNames).
  { intros k Hk. unfold ESPN.lineupPlayers in Hk.
    assert (Hk' : k = "BENCH"
                  \/ In k (obj_keys (fold_left ESPN.placeEntry roster []))).
    { destruct (ESPN.benchPlayers roster); auto.
      now apply obj_set_keys_in in Hk. }
    destruct Hk' as [->|Hk']; [simpl; tauto|].
    apply espn_fold_keys in Hk'. destruct Hk' as [[]|(_ & e & _ & Hm)].
    eapply espn_slot_names; eauto. }
  split; [exact Hnd|]. split; [exact Hincl|]. split.
  - change (List.length (ESPN.lineupPlayers roster))
      with (List.length (ESPN.lineupPlayers roster)).
    rewrite <- (length_map fst (ESPN.lineupPlayers roster)).
    change 10%nat with (List.length espnSlotNames).
    apply NoDup_incl_length; auto.
  - unfold ESPN.lineupPlayers. rewrite espn_bench_nonempty.
    destruct (espnBenchEntries roster) as [|e entries]; simpl.
    + apply obj_get_None_keys. intros Hk. apply espn_fold_keys in Hk.
      destruct Hk as [[]|(Hne & _)]. congruence.
    + apply obj_get_set_same.
Qed.

Lemma espn_fold_untouched k rest o :
  (forall x, In x rest ->
             ESPN.mapESPNLineupPosition (ESPN.lineupSlotId x) <> Some k) ->
  obj_get (fold_left ESPN.placeEntry rest o) k = obj_get o k.
Proof.
  revert o. induction rest as [|a rest IH]; intros o H; simpl; auto.
  rewrite IH by (intros x Hx; apply H; now right).
  destruct (espn_placeEntry_cases o a) as [(k' & Hm & _ & ->)|(_ & ->)]; auto.
  apply obj_get_set_other. intros ->. exact (H a (or_introl eq_refl) Hm).
Qed.

Lemma espn_lineupPlayers_get roster k :
  k <> "BENCH" ->
  obj_get (ESPN.lineupPlayers roster) k
  = obj_get (fold_left ESPN.placeEntry roster []) k.
Proof.
  intros Hk. unfold ESPN.lineupPlayers.
  destruct (ESPN.benchPlayers roster); auto.
  apply obj_get_set_other. congruence.
Qed.

(** X2. Which entry an ESPN starting slot holds. When several roster
    entries sit in the same starting slot, the lineup holds the last of
    them; and an entry whose slot id the table does not list (21, the
    injured reserve, for one) leaves no trace: the lineup is the one of
    the roster without it. *)
Theorem espn_slot_holds_last_entry :
  (forall pre e post k,
      ESPN.mapESPNLineupPosition (ESPN.lineupSlotId e) = Some k ->
      k <> "BENCH" ->
      (forall x, In x post ->
                 ESPN.mapESPNLineupPosition (ESPN.lineupSlotId x) <> Some k) ->
      obj_get (ESPN.lineupPlayers (pre ++ e :: post)) k
      = Some (Single (ESPN.playerOf e)))
  /\ (forall pre e post,
      ESPN.mapESPNLineupPosition (ESPN.lineupSlotId e) = None ->
      ESPN.lineupPlayers (pre ++ e :: post) = ESPN.lineupPlayers (pre ++ post)).
Proof.
  split.
  - intros pre e post k Hm Hk Hpost.
    rewrite espn_lineupPlayers_get by exact Hk.
    rewrite fold_left_app. simpl. rewrite espn_fold_untouched by exact Hpost.
    unfold ESPN.placeEntry. rewrite Hm.
    apply String.eqb_neq in Hk. rewrite Hk. simpl. apply obj_get_set_same.
  - intros pre e post Hm.
    assert (Hskip : forall o, ESPN.placeEntry o e = o)
      by (intros o; unfold ESPN.placeEntry; now rewrite Hm).
    unfold ESPN.lineupPlayers, ESPN.benchPlayers.
    rewrite !fold_left_app, !filter_app. simpl. rewrite Hskip.
    destruct (Z.eqb_spec (ESPN.lineupSlotId e) 20) as [E|_]; [|reflexivity].
    rewrite E in Hm. discriminate Hm.
Qed.

(** A roster with two running backs in slot 1: the lineup holds the
    second of them under RB1, though others follow him in the roster;
    and the player on injured reserve (slot 21) could as well be
    absent. *)
Lemma espn_slot_holds_last_entry_witness :
  (exists first second,
      nth_error SamplesRosters.crowded 1 = Some first
      /\ nth_error SamplesRosters.crowded 2 = Some second
      /\ ESPN.lineupSlotId first = 1%Z
      /\ ESPN.lineupSlotId second = 1%Z
      /\ ESPN.playerOf first <> ESPN.playerOf second
      /\ obj_get (ESPN.lineupPlayers SamplesRosters.crowded) "RB1"
         = Some (Single (ESPN.playerOf second)))
  /\ ESPN.lineupPlayers SamplesRosters.crowded
     = ESPN.lineupPlayers
         (firstn 3 SamplesRosters.crowded ++ skipn 4 SamplesRosters.crowded).
Proof.
  destruct espn_slot_holds_last_entry as (Hlast & Hdrop).
  split.
  - eexists. eexists. split; [reflexivity|]. split; [reflexivity|].
    split; [reflexivity|]. split; [reflexivity|]. split; [discriminate|].
    apply (Hlast (firstn 2 SamplesRosters.crowded) _
                 (skipn 3 SamplesRosters.crowded) "RB1");
      [reflexivity|discriminate|].
    intros x [<-|[<-|[]]]; discriminate.
  - apply (Hdrop (firstn 3 SamplesRosters.crowded) _
                 (skipn 4 SamplesRosters.crowded)). reflexivity.
Defined.

(** ** Yahoo: what is written back *)

Lemma yahoo_fold_singles roster o k p :
  In (k, Single p) (fold_left Yahoo.placeEntry roster o) ->
  In (k, Single p) o
  \/ exists e, In e roster /\ yahoo_writes e k /\ p = Yahoo.playerOf e.
Proof.
  revert o. induction roster as [|a roster IH]; intros o; simpl; auto.
  intros H. apply IH in H. destruct H as [H|(e & He & Hw & Hp)].
  - unfold Yahoo.placeEntry in H.
    destruct (truthy _ && negb _) eqn:Hc; auto.
    apply obj_set_In in H. destruct H as [H|H]; auto.
    injection H as -> ->. right. exists a. split; auto. split; auto.
    split; auto.
  - right. exists e. auto.
Qed.

Lemma yahoo_lineup_singles roster k p :
  In (k, Single p) (Yahoo.lineupPlayers roster) ->
  k <> "BENCH"
  /\ exists e, In e roster /\ yahoo_writes e k /\ p = Yahoo.playerOf e.
Proof.
  intros H. split.
  - intros ->. pose proof (yahoo_lineupPlayers_typed roster) as Ht.
    rewrite Forall_forall in Ht. specialize (Ht _ H).
    unfold slot_typed in Ht. simpl in Ht. discriminate Ht.
  - unfold Yahoo.lineupPlayers in H.
    assert (H' : In (k, Single p) (fold_left Yahoo.placeEntry roster [])).
    { destruct (Yahoo.benchPlayers roster); auto.
      apply obj_set_In in H. destruct H as [H|H]; [discriminate H|exact H]. }
    apply yahoo_fold_singles in H'. destruct H' as [[]|H']. exact H'.
Qed.

(** The reverse table undoes the forward table on every selected
    position that becomes a starting slot. *)
Lemma yahoo_reverse_of_forward sel k :
  In (sel, k) Yahoo.lineupPositionMap -> k <> "BENCH" ->
  Yahoo.mapYahooLineupPositionReverse k = VString sel.
Proof.
  intros H Hk.
  each_entry H ltac:(injection H as <- <-; first [reflexivity|congruence]).
Qed.

(** X3. Reading a Yahoo lineup and sending it back. Every update that
    [updateLineup] puts in its request for the players of a lineup
    read by [getTeamLineup] names a roster entry by its player id, and
    carries the selected position that entry came with (unless that
    position names a property every object inherits); no update is
    sent for the bench. *)
Theorem yahoo_updates_carry_selected_positions roster pid pos :
  In (pid, pos) (Yahoo.rosterUpdates (Yahoo.lineupPlayers roster)) ->
  exists e,
    In e roster
    /\ Yahoo.player_id e = pid
    /\ Yahoo.selected_position e <> "BN"
    /\ (pos = VString (Yahoo.selected_position e)
        \/ inherited (Yahoo.selected_position e) = true).
Proof.
  unfold Yahoo.rosterUpdates. intros H. apply in_flat_map in H.
  destruct H as ([k v] & Hin & Hv). destruct v as [p|l]; [|destruct Hv].
  destruct Hv as [Hv|[]]. injection Hv as <- <-.
  apply yahoo_lineup_singles in Hin.
  destruct Hin as (Hk & e & He & (Hc & Hkey) & ->).
  exists e. split; auto. split; [reflexivity|]. cbv zeta in Hc, Hkey.
  apply andb_prop in Hc. destruct Hc as [Ht _].
  split.
  - intros Hbn. rewrite Hbn in Hkey. simpl in Hkey. congruence.
  - unfold Yahoo.mapYahooLineupPosition, or_else in Ht, Hkey.
    destruct (lookup_cases Yahoo.lineupPositionMap (Yahoo.selected_position e))
      as [(v & Hown & E)|[(_ & Hi & E)|(_ & _ & E)]]; rewrite E in Ht, Hkey.
    + left. apply own_property_In in Hown.
      destruct v as [|c v]; [discriminate Ht|]. simpl in Hkey. subst k.
      now apply yahoo_reverse_of_forward.
    + right. exact Hi.
    + discriminate Ht.
Qed.

(** On the sample roster (RB, QB, RB, BN) two updates are sent: the
    second running back as RB and the quarterback as QB. *)
Lemma yahoo_updates_carry_selected_positions_witness :
  Yahoo.rosterUpdates (Yahoo.lineupPlayers Samples.yahooRoster)
  = [("32", VString "RB"); ("30", VString "QB")]
  /\ exists e,
      In e Samples.yahooRoster
      /\ Yahoo.player_id e = "32"
      /\ Yahoo.selected_position e <> "BN"
      /\ (VString "RB" = VString (Yahoo.selected_position e)
          \/ inherited (Yahoo.selected_position e) = true).
Proof.
  split; [vm_compute; reflexivity|].
  apply (yahoo_updates_carry_selected_positions Samples.yahooRoster "32"
           (VString "RB")).
  vm_compute. auto.
Defined.

(** ** Sleeper: the lineup is the starters array *)

Import SpecSleeper.

Lemma skipn_cons_nth_error {A} (l : list A) :
  forall a,
    match nth_error l a with
    | Some x => skipn a l = x :: skipn (S a) l
    | None => skipn a l = [] /\ skipn (S a) l = []
    end.
Proof.
  induction l as [|y l IH]; intros [|a]; simpl; auto.
  specialize (IH a). destruct (nth_error l a); auto.
Qed.

Lemma filter_by_index {A} (f : A -> bool) (l : list A) n :
  forall a,
    flat_map (fun i => match nth_error l i with
                       | Some x => if f x then [x] else []
                       | None => []
                       end) (seq a n)
    = filter f (firstn n (skipn a l)).
Proof.
  induction n as [|n IH]; intros a; simpl; auto.
  rewrite IH. pose proof (skipn_cons_nth_error l a) as H.
  destruct (nth_error l a) as [x|].
  - rewrite H. simpl. destruct (f x); reflexivity.
  - destruct H as [H1 H2]. rewrite H1, H2. now destruct n.
Qed.

Section SleeperLineup.
Variable allPlayers : string -> option Sleeper.RawPlayer.
Variable m : Sleeper.Matchup.

Lemma sleeper_placeStarter_fresh ps slot :
  ~ In (fst slot) (obj_keys ps) ->
  Sleeper.placeStarter allPlayers m ps slot
  = (ps ++ placed allPlayers m slot)%list.
Proof.
  intros Hf. destruct slot as [position index].
  unfold Sleeper.placeStarter, placed, usable. simpl.
  destruct (nth_error _ _) as [pid|]; [|now rewrite app_nil_r].
  destruct (Sleeper.isPlayerId pid); simpl; [|now rewrite app_nil_r].
  destruct (allPlayers pid); [|now rewrite app_nil_r].
  now apply obj_set_fresh.
Qed.

Lemma placed_keys slot k :
  In k (obj_keys (placed allPlayers m slot)) -> k = fst slot.
Proof.
  unfold placed. destruct (nth_error _ _) as [pid|]; [|intros []].
  destruct (usable allPlayers pid); [|intros []].
  destruct (allPlayers pid); [|intros []].
  simpl. intros [H|[]]. auto.
Qed.

Lemma sleeper_fold_fresh slots :
  forall ps,
    NoDup (map fst slots) ->
    (forall k, In k (map fst slots) -> ~ In k (obj_keys ps)) ->
    fold_left (Sleeper.placeStarter allPlayers m) slots ps
    = (ps ++ flat_map (placed allPlayers m) slots)%list.
Proof.
  induction slots as [|slot slots IH]; intros ps Hnd Hf; simpl.
  - now rewrite app_nil_r.
  - inversion Hnd as [|? ? Hnotin Hnd']; subst.
    rewrite sleeper_placeStarter_fresh by (apply Hf; now left).
    rewrite IH; auto.
    + now rewrite <- app_assoc.
    + intros k Hk Hin. unfold obj_keys in Hin. rewrite map_app in Hin.
      apply in_app_or in Hin. destruct Hin as [Hin|Hin].
      * apply (Hf k); [now right|exact Hin].
      * apply placed_keys in Hin. subst k. contradiction.
Qed.

(** The loop over the starting slots appends, slot by slot. *)
Lemma sleeper_starting_slots :
  fold_left (Sleeper.placeStarter allPlayers m)
            (combine Sleeper.lineupPositions
                     (seq 0 (List.length Sleeper.lineupPositions))) []
  = flat_map (placed allPlayers m) startingSlots.
Proof.
  fold startingSlots. rewrite sleeper_fold_fresh; auto.
  simpl. repeat (constructor; [simpl; intuition discriminate|]). constructor.
Qed.

Lemma sleeper_no_bench_slot :
  ~ In "BENCH" (obj_keys (flat_map (placed allPlayers m) startingSlots)).
Proof.
  intros Hin. unfold obj_keys in Hin. apply in_map_iff in Hin.
  destruct Hin as ([k v] & Hk & Hin). simpl in Hk. subst k.
  apply in_flat_map in Hin. destruct Hin as (slot & Hslot & Hin).
  assert (Hkey : "BENCH" = fst slot).
  { apply placed_keys. unfold obj_keys.
    change "BENCH" with (fst ("BENCH", v)). now apply in_map. }
  simpl in Hslot.
  repeat (destruct Hslot as [<-|Hslot]; [discriminate Hkey|]).
  destruct Hslot.
Qed.

Lemma sleeper_bench_ids :
  map id (Sleeper.benchPlayers allPlayers m)
  = filter (usable allPlayers) (skipn 9 (Sleeper.starters m)).
Proof.
  unfold Sleeper.benchPlayers, usable.
  induction (skipn 9 (Sleeper.starters m)) as [|pid l IH]; simpl; auto.
  destruct (Sleeper.isPlayerId pid); simpl; auto.
  destruct (allPlayers pid); simpl; auto. now rewrite IH.
Qed.

Lemma sleeper_placed_ids slots :
  map id (allPlayersOf (flat_map (placed allPlayers m) slots))
  = flat_map (fun i => match nth_error (Sleeper.starters m) i with
                       | Some x => if usable allPlayers x then [x] else []
                       | None => []
                       end) (map snd slots).
Proof.
  unfold allPlayersOf. induction slots as [|slot slots IH]; simpl; auto.
  rewrite flat_map_app, map_app, IH. f_equal.
  unfold placed. destruct (nth_error _ _) as [pid|]; auto.
  unfold usable. destruct (Sleeper.isPlayerId pid); simpl; auto.
  destruct (allPlayers pid); reflexivity.
Qed.

Lemma sleeper_placed_starters slots :
  Forall (fun slot => fst slot <> "BENCH") slots ->
  Sleeper.startersOf (flat_map (placed allPlayers m) slots)
  = flat_map (fun i => match nth_error (Sleeper.starters m) i with
                       | Some x => if usable allPlayers x then [x] else []
                       | None => []
                       end) (map snd slots).
Proof.
  unfold Sleeper.startersOf.
  induction 1 as [|[position index] slots Hp _ IH]; simpl; auto.
  rewrite flat_map_app, IH. f_equal.
  unfold placed. simpl. destruct (nth_error _ _) as [pid|]; auto.
  unfold usable. destruct (Sleeper.isPlayerId pid) eqn:Hid; simpl; auto.
  destruct (allPlayers pid); simpl; auto.
  simpl in Hp. apply String.eqb_neq in Hp. rewrite Hp. simpl.
  unfold Sleeper.isPlayerId in Hid. apply andb_prop in Hid.
  destruct Hid as [Hid _]. now rewrite Hid.
Qed.

End SleeperLineup.

Lemma startersOf_set_bench ps bench :
  Sleeper.startersOf (obj_set ps "BENCH" (Many bench)) = Sleeper.startersOf ps.
Proof.
  unfold Sleeper.startersOf. induction ps as [|[k v] ps IH]; [reflexivity|].
  cbn [obj_set]. destruct (String.eqb k "BENCH") eqn:E; cbn [flat_map].
  - rewrite E. now destruct v.
  - now rewrite IH.
Qed.

(** X4. The Sleeper lineup is the matchup's [starters] array. The ids
    of its players, the starting slots first and the bench after them,
    are the usable ids of [matchup.starters] (not empty, not ["0"],
    known to the players dictionary) in order; what it calls the bench
    is what follows the ninth entry. Without a matchup for the team
    the lineup is empty. *)
Theorem sleeper_lineup_is_the_starters_array allPlayers :
  (forall m,
      map id (allPlayersOf (Sleeper.lineupPlayers allPlayers (Some m)))
      = filter (usable allPlayers) (Sleeper.starters m))
  /\ (forall m,
      obj_get (Sleeper.lineupPlayers allPlayers (Some m)) "BENCH"
      = match Sleeper.benchPlayers allPlayers m with
        | [] => None
        | bench => Some (Many bench)
        end
      /\ map id (Sleeper.benchPlayers allPlayers m)
         = filter (usable allPlayers) (skipn 9 (Sleeper.starters m)))
  /\ Sleeper.lineupPlayers allPlayers None = [].
Proof.
  split; [|split; [|reflexivity]].
  - intros m. unfold Sleeper.lineupPlayers.
    rewrite sleeper_starting_slots.
    assert (Hstart :
              map id (allPlayersOf (flat_map (placed allPlayers m)
                                             startingSlots))
              = filter (usable allPlayers) (firstn 9 (Sleeper.starters m))).
    { rewrite sleeper_placed_ids.
      change (map snd startingSlots) with (seq 0 9).
      now rewrite (filter_by_index (usable allPlayers)). }
    transitivity (filter (usable allPlayers)
                         (firstn 9 (Sleeper.starters m)
                          ++ skipn 9 (Sleeper.starters m))%list);
      [|now rewrite firstn_skipn].
    rewrite filter_app, <- sleeper_bench_ids, <- Hstart.
    destruct (Sleeper.benchPlayers allPlayers m) as [|b bench] eqn:Eb.
    + cbn [map]. now rewrite app_nil_r.
    + rewrite obj_set_fresh by apply sleeper_no_bench_slot.
      unfold allPlayersOf. rewrite flat_map_app, map_app.
      cbn [flat_map snd playersIn]. now rewrite app_nil_r.
  - intros m. split; [|apply sleeper_bench_ids].
    unfold Sleeper.lineupPlayers. rewrite sleeper_starting_slots.
    destruct (Sleeper.benchPlayers allPlayers m) as [|b bench].
    + apply obj_get_None_keys, sleeper_no_bench_slot.
    + apply obj_get_set_same.
Qed.

(** X5. Reading a Sleeper lineup and sending it back: the [starters]
    that [updateLineup] sends for the players of a lineup read by
    [getTeamLineup] are the usable ids among the first nine entries of
    [matchup.starters], in order. *)
Theorem sleeper_sends_back_the_first_nine allPlayers m :
  Sleeper.startersOf (Sleeper.lineupPlayers allPlayers (Some m))
  = filter (usable allPlayers) (firstn 9 (Sleeper.starters m)).
Proof.
  unfold Sleeper.lineupPlayers. rewrite sleeper_starting_slots.
  assert (H : Sleeper.startersOf (flat_map (placed allPlayers m) startingSlots)
              = filter (usable allPlayers) (firstn 9 (Sleeper.starters m))).
  { rewrite sleeper_placed_starters.
    - change (map snd startingSlots) with (seq 0 9).
      now rewrite (filter_by_index (usable allPlayers)).
    - unfold startingSlots. simpl. repeat constructor; simpl; discriminate. }
  destruct (Sleeper.benchPlayers allPlayers m); [exact H|].
  now rewrite startersOf_set_bench.
Qed.

(** ** The dispatcher over the adapters *)

Lemma find_map {A B} (f : B -> bool) (g : A -> B) (l : list A) :
  find f (map g l) = option_map g (find (fun x => f (g x)) l).
Proof.
  induction l as [|x l IH]; simpl; auto. now destruct (f (g x)).
Qed.

(** X6. Connecting to ESPN through the dispatcher, over a network, for
    credentials that name a league and a team. A failed league request
    and a team that is not in the league both come back as a result
    with [success = false], the error text wrapped once by the adapter
    and once by the dispatcher; otherwise the result holds one team,
    built from the first team of the league whose id prints as the
    team id given. *)
Theorem espn_connection_outcomes
    net now platform credentials token leagueId teamId :
  Str.toLowerCase platform = "espn" ->
  obj_get credentials "leagueId" = Some leagueId -> leagueId <> "" ->
  obj_get credentials "teamId" = Some teamId -> teamId <> "" ->
  (forall cause,
      espn_league net leagueId (obj_get credentials "season") = Throw cause ->
      fst (connectPlatform (servicesOn net) now platform credentials token)
      = Ok {| success := false; cr_platform := platform; cr_teams := [];
              cr_error :=
                Some ("ESPN connection failed: Error: Failed to fetch league "
                      ++ leagueId ++ ": " ++ error_toString cause) |})
  /\ (forall data,
      espn_league net leagueId (obj_get credentials "season") = Ok data ->
      find (fun t => String.eqb (Z_toString (ESPN.team_id t)) teamId)
           (ESPN.teams data) = None ->
      fst (connectPlatform (servicesOn net) now platform credentials token)
      = Ok {| success := false; cr_platform := platform; cr_teams := [];
              cr_error :=
                Some ("ESPN connection failed: Error: Team " ++ teamId
                      ++ " not found in league " ++ leagueId) |})
  /\ (forall data team,
      espn_league net leagueId (obj_get credentials "season") = Ok data ->
      find (fun t => String.eqb (Z_toString (ESPN.team_id t)) teamId)
           (ESPN.teams data) = Some team ->
      fst (connectPlatform (servicesOn net) now platform credentials token)
      = Ok {| success := true; cr_platform := "ESPN";
              cr_teams :=
                [ {| ft_id := "espn-" ++ teamId;
                     ft_name := Some (ESPN.team_name team);
                     ft_platform := "ESPN";
                     ft_leagueId := leagueId;
                     ft_leagueName := ESPN.league_name data;
                     ft_ownerId := "user-1";
                     ft_record := ESPN.record_overall team;
                     ft_season := ESPN.seasonId data;
                     ft_isActive := true;
                     ft_lastSyncDate := now |} ];
              cr_error := None |}).
Proof.
  intros Htag HL HLne HT HTne.
  assert (Hc : fst (connect (servicesOn net) now platform credentials token)
               = connectESPN (servicesOn net) now credentials).
  { unfold connect. now rewrite Htag. }
  assert (He : connectESPN (servicesOn net) now credentials
               = try_catch
                   (bind (ESPN.getLeague
                            (espn_league net leagueId
                                         (obj_get credentials "season"))
                            leagueId)
                      (fun league =>
                         match find (fun t => String.eqb (ESPN.et_id t) teamId)
                                    (ESPN.el_teams league) with
                         | None =>
                             Throw (mkError ("Team " ++ teamId
                                             ++ " not found in league "
                                             ++ leagueId))
                         | Some team =>
                             Ok {| success := true;
                                   cr_platform := "ESPN";
                                   cr_teams :=
                                     [ {| ft_id := "espn-" ++ teamId;
                                          ft_name := Some (ESPN.et_name team);
                                          ft_platform := "ESPN";
                                          ft_leagueId := leagueId;
                                          ft_leagueName := ESPN.el_name league;
                                          ft_ownerId := "user-1";
                                          ft_record := ESPN.et_record team;
                                          ft_season := ESPN.el_season league;
                                          ft_isActive := true;
                                          ft_lastSyncDate := now |} ];
                                   cr_error := None |}
                         end))
                   (fun error =>
                      Throw (mkError ("ESPN connection failed: "
                                      ++ error_toString error)))).
  { unfold connectESPN. rewrite HL, HT.
    destruct leagueId; [congruence|]. destruct teamId; [congruence|].
    reflexivity. }
  split; [|split].
  - intros cause Hfail. rewrite connectPlatform_catches, Hc, He.
    unfold ESPN.getLeague. rewrite Hfail. reflexivity.
  - intros data Hdata Hfind. rewrite connectPlatform_catches, Hc, He.
    unfold ESPN.getLeague. rewrite Hdata. cbn [bind try_catch ESPN.el_teams].
    rewrite find_map. cbn [ESPN.et_id]. rewrite Hfind. reflexivity.
  - intros data team Hdata Hfind. rewrite connectPlatform_catches, Hc, He.
    unfold ESPN.getLeague. rewrite Hdata. cbn [bind try_catch ESPN.el_teams].
    rewrite find_map. cbn [ESPN.et_id]. rewrite Hfind. reflexivity.
Qed.

(** With the sample network down the error text carries both
    wrappers; with it up, team 7 is found. *)
Lemma espn_connection_outcomes_witness :
  fst (connectPlatform (servicesOn SamplesNet.offline) 1000 "Espn"
         [("leagueId", "1"); ("teamId", "7")] None)
  = Ok {| success := false; cr_platform := "Espn"; cr_teams := [];
          cr_error :=
            Some "ESPN connection failed: Error: Failed to fetch league 1: AxiosError: Network Error" |}
  /\ fst (connectPlatform (servicesOn SamplesNet.online) 1000 "Espn"
            [("leagueId", "1"); ("teamId", "8")] None)
     = Ok {| success := false; cr_platform := "Espn"; cr_teams := [];
             cr_error :=
               Some "ESPN connection failed: Error: Team 8 not found in league 1" |}
  /\ exists t,
      fst (connectPlatform (servicesOn SamplesNet.online) 1000 "Espn"
             [("leagueId", "1"); ("teamId", "7")] None)
      = Ok {| success := true; cr_platform := "ESPN"; cr_teams := [t];
              cr_error := None |}
      /\ ft_name t = Some "Gridiron Gang".
Proof.
  split; [|split].
  - apply (proj1 (espn_connection_outcomes SamplesNet.offline 1000%Z "Espn"
             [("leagueId", "1"); ("teamId", "7")] None "1" "7"
             eq_refl eq_refl ltac:(discriminate) eq_refl ltac:(discriminate))
             SamplesNet.networkError).
    reflexivity.
  - apply (proj1 (proj2 (espn_connection_outcomes SamplesNet.online 1000%Z
             "Espn" [("leagueId", "1"); ("teamId", "8")] None "1" "8"
             eq_refl eq_refl ltac:(discriminate) eq_refl ltac:(discriminate)))
             Samples.espnData); reflexivity.
  - eexists. split.
    + apply (proj2 (proj2 (espn_connection_outcomes SamplesNet.online 1000%Z
               "Espn" [("leagueId", "1"); ("teamId", "7")] None "1" "7"
               eq_refl eq_refl ltac:(discriminate) eq_refl
               ltac:(discriminate)))
               Samples.espnData); [reflexivity|vm_compute; reflexivity].
    + reflexivity.
Defined.

Lemma replace_prefix p s : Str.replace p "" (p ++ s) = s.
Proof.
  assert (Hs : forall q t, Str.startsWith q (q ++ t) = true).
  { induction q as [|c q IH]; intros t; simpl; auto.
    now rewrite Ascii.eqb_refl, IH. }
  assert (Hd : forall q t, Str.drop (String.length q) (q ++ t) = t).
  { induction q as [|c q IH]; intros t; simpl; auto. }
  assert (Hr : forall q r t,
             Str.replace q r t
             = if Str.startsWith q t then r ++ Str.drop (String.length q) t
               else match t with
                    | String c rest => String c (Str.replace q r rest)
                    | EmptyString => EmptyString
                    end)
    by (intros q r t; now destruct t).
  rewrite Hr, Hs. simpl. apply Hd.
Qed.

(** X7. A team the dispatcher has connected is fetched by the ids it
    was connected with. When [connectPlatform] succeeds, its result
    holds one team, and [getTeamLineup] for that team asks the adapter
    of the team's platform for the lineup of the league id and the team
    id of the credentials: the prefix the dispatcher put in front of
    the team id is taken off again, whatever the team id is. For Yahoo
    the request carries the access token of the credentials. *)
Theorem connected_team_is_fetched_by_its_ids
    svc now platform credentials token r token' week :
  connectPlatform svc now platform credentials token = (Ok r, token') ->
  success r = true ->
  exists t leagueId teamId,
    cr_teams r = [t]
    /\ obj_get credentials "leagueId" = Some leagueId
    /\ obj_get credentials "teamId" = Some teamId
    /\ ((Str.toLowerCase platform = "espn" /\ token' = token
         /\ Unified.getTeamLineup svc token' t week
            = espn_getTeamLineup svc leagueId teamId week (ft_season t))
        \/ (Str.toLowerCase platform = "yahoo"
            /\ token' = obj_get credentials "accessToken"
            /\ Unified.getTeamLineup svc token' t week
               = yahoo_getTeamLineup svc token' leagueId teamId week
                                     (ft_season t))
        \/ (Str.toLowerCase platform = "sleeper" /\ token' = token
            /\ Unified.getTeamLineup svc token' t week
               = sleeper_getTeamLineup svc leagueId teamId week)).
Proof.
  unfold connectPlatform, connect.
  destruct (String.eqb_spec (Str.toLowerCase platform) "espn") as [He|_];
    [|destruct (String.eqb_spec (Str.toLowerCase platform) "yahoo") as [Hy|_];
      [|destruct (String.eqb_spec (Str.toLowerCase platform) "sleeper")
          as [Hs|_]]].
  - unfold connectESPN.
    destruct (obj_get credentials "leagueId") as [[|c1 l1]|];
      try (intros [= <- <-]; discriminate).
    destruct (obj_get credentials "teamId") as [[|c2 t2]|];
      try (intros [= <- <-]; discriminate).
    destruct (espn_getLeague svc _ _) as [league|e]; cbn [bind try_catch];
      [|intros [= <- <-]; discriminate].
    destruct (find _ _) as [team|]; cbn [try_catch];
      [|intros [= <- <-]; discriminate].
    intros [= <- <-] _. eexists. exists (String c1 l1), (String c2 t2).
    split; [reflexivity|]. split; [reflexivity|]. split; [reflexivity|].
    left. split; [exact He|]. split; [reflexivity|].
    unfold Unified.getTeamLineup. cbn [ft_platform ft_id ft_leagueId ft_season].
    pose proof (replace_prefix "espn-" (String c2 t2)) as Hr. cbn [append] in Hr.
    now rewrite Hr.
  - unfold connectYahoo.
    destruct (obj_get credentials "accessToken") as [[|c0 a0]|];
      try (intros [= <- <-]; discriminate).
    destruct (yahoo_getUserLeagues svc _) as [leagues|e]; cbn [bind try_catch];
      [|intros [= <- <-]; discriminate].
    destruct (obj_get credentials "leagueId") as [lid|]; cbn [try_catch];
      [|intros [= <- <-]; discriminate].
    destruct (find _ leagues) as [league|]; cbn [try_catch];
      [|intros [= <- <-]; discriminate].
    destruct (obj_get credentials "teamId") as [tid|]; cbn [try_catch];
      [|intros [= <- <-]; discriminate].
    destruct (find _ (Yahoo.yl_teams league)) as [team|]; cbn [try_catch];
      [|intros [= <- <-]; discriminate].
    intros [= <- <-] _. eexists. exists lid, tid.
    split; [reflexivity|]. split; [reflexivity|]. split; [reflexivity|].
    right. left. split; [exact Hy|]. split; [reflexivity|].
    unfold Unified.getTeamLineup. cbn [ft_platform ft_id ft_leagueId ft_season].
    pose proof (replace_prefix "yahoo-" (tid)) as Hr. cbn [append] in Hr.
    now rewrite Hr.
  - unfold connectSleeper.
    destruct (obj_get credentials "leagueId") as [[|c1 l1]|];
      try (intros [= <- <-]; discriminate).
    destruct (obj_get credentials "teamId") as [[|c2 t2]|];
      try (intros [= <- <-]; discriminate).
    destruct (sleeper_getLeague svc _) as [league|e]; cbn [bind try_catch];
      [|intros [= <- <-]; discriminate].
    destruct (find _ _) as [team|]; cbn [try_catch];
      [|intros [= <- <-]; discriminate].
    intros [= <- <-] _. eexists. exists (String c1 l1), (String c2 t2).
    split; [reflexivity|]. split; [reflexivity|]. split; [reflexivity|].
    right. right. split; [exact Hs|]. split; [reflexivity|].
    unfold Unified.getTeamLineup. cbn [ft_platform ft_id ft_leagueId ft_season].
    pose proof (replace_prefix "sleeper-" (String c2 t2)) as Hr. cbn [append] in Hr.
    now rewrite Hr.
  - intros [= <- <-]. discriminate.
Qed.

(** On the sample network: team 7 of league 1 is connected, and its
    lineup is asked of the ESPN adapter for league 1 and team 7. *)
Lemma connected_team_is_fetched_by_its_ids_witness :
  Unified.getTeamLineup (servicesOn SamplesNet.online) None
                        SamplesNet.espnTeam 3
  = espn_getTeamLineup (servicesOn SamplesNet.online) "1" "7" 3
                       (ft_season SamplesNet.espnTeam).
Proof.
  destruct (connected_team_is_fetched_by_its_ids
              (servicesOn SamplesNet.online)
              1000%Z "ESPN" [("leagueId", "1"); ("teamId", "7")] None
              {| success := true; cr_platform := "ESPN";
                 cr_teams := [SamplesNet.espnTeam]; cr_error := None |}
              None 3%Z)
    as (t & leagueId & teamId & Ht & Hl & Hid
        & [(_ & _ & H)|[(H & _)|(H & _)]]).
  - vm_compute. reflexivity.
  - reflexivity.
  - injection Ht as <-. injection Hl as <-. injection Hid as <-. exact H.
  - vm_compute in H. discriminate H.
  - vm_compute in H. discriminate H.
Defined.

(** X8. The access token of Yahoo credentials is installed before
    anything is requested and stays installed: whatever the outcome of
    the connection, afterwards the Yahoo service holds the token of the
    credentials. Credentials without a token, and connections to the
    other platforms, leave the token the service holds untouched. *)
Theorem yahoo_token_survives_a_failed_connection
    svc now platform credentials token :
  (forall accessToken,
      Str.toLowerCase platform = "yahoo" ->
      obj_get credentials "accessToken" = Some accessToken ->
      accessToken <> "" ->
      snd (connectPlatform svc now platform credentials token)
      = Some accessToken)
  /\ (Str.toLowerCase platform = "yahoo" ->
      Unified.falsy (obj_get credentials "accessToken") = true ->
      connectPlatform svc now platform credentials token
      = (Ok {| success := false; cr_platform := platform; cr_teams := [];
               cr_error := Some "Yahoo requires access token" |}, token))
  /\ (Str.toLowerCase platform <> "yahoo" ->
      snd (connectPlatform svc now platform credentials token) = token).
Proof.
  unfold connectPlatform, connect. split; [|split].
  - intros accessToken Hy Ha Hne. rewrite Hy. cbn [String.eqb Ascii.eqb].
    change (("yahoo" =? "espn")%string) with false. cbv iota.
    change (("yahoo" =? "yahoo")%string) with true. cbv iota.
    unfold connectYahoo. rewrite Ha.
    destruct accessToken; [congruence|]. reflexivity.
  - intros Hy Hf. rewrite Hy.
    change (("yahoo" =? "espn")%string) with false. cbv iota.
    change (("yahoo" =? "yahoo")%string) with true. cbv iota.
    unfold connectYahoo.
    destruct (obj_get credentials "accessToken") as [[|c a]|];
      try discriminate Hf; reflexivity.
  - intros Hn. apply String.eqb_neq in Hn.
    destruct (String.eqb (Str.toLowerCase platform) "espn"); [reflexivity|].
    rewrite Hn.
    destruct (String.eqb (Str.toLowerCase platform) "sleeper"); reflexivity.
Qed.

(** With the network down the connection to Yahoo fails, and the
    token of the credentials has replaced the one held before. *)
Lemma yahoo_token_survives_a_failed_connection_witness :
  connectPlatform (servicesOn SamplesNet.offline) 1000 "Yahoo"
    [("accessToken", "fresh"); ("leagueId", "L1"); ("teamId", "7")]
    (Some "stale")
  = (Ok {| success := false; cr_platform := "Yahoo"; cr_teams := [];
           cr_error :=
             Some "Yahoo connection failed: Error: Failed to fetch Yahoo leagues" |},
     Some "fresh")
  /\ snd (connectPlatform (servicesOn SamplesNet.offline) 1000 "Yahoo"
            [("accessToken", "fresh"); ("leagueId", "L1"); ("teamId", "7")]
            (Some "stale"))
     = Some "fresh".
Proof.
  split; [vm_compute; reflexivity|].
  apply (proj1 (yahoo_token_survives_a_failed_connection
                  (servicesOn SamplesNet.offline) 1000%Z "Yahoo"
                  [("accessToken", "fresh"); ("leagueId", "L1");
                   ("teamId", "7")] (Some "stale")) "fresh");
    [reflexivity|reflexivity|discriminate].
Defined.

(** X9. When a lineup update succeeds. Over a network,
    [updateTeamLineup] returns [true] exactly when the team is on Yahoo
    or Sleeper and the PUT request, sent for the team id without its
    prefix, was answered with status 200; the request carries the
    positions (Yahoo) or the starters (Sleeper) of the lineup given.
    For a team on ESPN it returns [false], whatever the lineup. *)
Theorem lineup_update_succeeds_on_200_only net token team week lineup :
  (Unified.updateTeamLineup (servicesOn net) token team week lineup = Ok true
   <-> (ft_platform team = "Yahoo"
        /\ yahoo_put net token (ft_leagueId team)
                     (Str.replace "yahoo-" "" (ft_id team))
                     (Yahoo.rosterUpdates (Yahoo.playersOf lineup))
           = Ok 200%Z)
       \/ (ft_platform team = "Sleeper"
           /\ sleeper_put net (ft_leagueId team)
                          (Str.replace "sleeper-" "" (ft_id team))
                          (Sleeper.startersOf
                             (match lineup with Some ps => ps | None => [] end))
              = Ok 200%Z))
  /\ (ft_platform team = "ESPN" ->
      Unified.updateTeamLineup (servicesOn net) token team week lineup
      = Ok false).
Proof.
  unfold Unified.updateTeamLineup.
  destruct (String.eqb_spec (ft_platform team) "ESPN") as [He|He].
  { split; [|reflexivity]. rewrite He. split.
    - discriminate.
    - intros [(H & _)|(H & _)]; discriminate H. }
  split; [|contradiction].
  destruct (String.eqb_spec (ft_platform team) "Yahoo") as [Hy|Hy].
  { cbn [servicesOn yahoo_updateLineup]. unfold Yahoo.updateLineup.
    rewrite Hy. split.
    - intros H. left. split; [reflexivity|].
      destruct (yahoo_put net _ _ _ _) as [status|e]; [|discriminate H].
      cbn [bind try_catch] in H. injection H as H.
      apply Z.eqb_eq in H. now rewrite H.
    - intros [(_ & H)|(H & _)]; [|discriminate H]. now rewrite H. }
  destruct (String.eqb_spec (ft_platform team) "Sleeper") as [Hs|Hs].
  { cbn [servicesOn sleeper_updateLineup]. unfold Sleeper.updateLineup.
    rewrite Hs. split.
    - intros H. right. split; [reflexivity|].
      destruct (sleeper_put net _ _ _) as [status|e]; [|discriminate H].
      cbn [bind try_catch] in H. injection H as H.
      apply Z.eqb_eq in H. now rewrite H.
    - intros [(H & _)|(_ & H)]; [discriminate H|]. now rewrite H. }
  split; [discriminate|]. intros [(H & _)|(H & _)]; contradiction.
Qed.

(** The sample ESPN team: no lineup can be written back. *)
Lemma lineup_update_succeeds_on_200_only_witness :
  Unified.updateTeamLineup (servicesOn SamplesNet.online) None
    SamplesNet.espnTeam 8 (Some (ESPN.lineupPlayers Samples.espnRoster))
  = Ok false.
Proof.
  apply (proj2 (lineup_update_succeeds_on_200_only SamplesNet.online None
                  SamplesNet.espnTeam 8%Z
                  (Some (ESPN.lineupPlayers Samples.espnRoster)))).
  reflexivity.
Defined.

(** ** Scraped players and records *)

Import SpecScrape.

Lemma numbered_S n :
  numbered (S n)
  = (numbered n ++ [("espn_" ++ Z_toString (Z.of_nat n + 1))%string])%list.
Proof.
  unfold numbered. rewrite seq_S, map_app. simpl. repeat f_equal. lia.
Qed.

Lemma probeName_cases html players playerName :
  (probed html playerName = false
   /\ probeName html players playerName = players)
  \/ (probed html playerName = true
      /\ exists p,
          probeName html players playerName = (players ++ [p])%list
          /\ sp_id p = "espn_" ++ Z_toString (Z.of_nat (List.length players) + 1)
          /\ sp_name p = playerName /\ sp_status p = "active").
Proof.
  unfold probeName, probed.
  destruct (Regex.matchAll (namePattern playerName) html); [auto|].
  destruct (Regex.matchAll (contextPattern playerName) html) as [|context ?];
    [auto|].
  destruct (match Regex.matchAll decimalPattern context with
            | [] => _
            | first :: others => _
            end) as [projected actual].
  right. split; [reflexivity|]. eexists. split; [reflexivity|].
  split; [reflexivity|]. split; reflexivity.
Qed.

Lemma nameProbe_fold html names :
  forall players,
    map sp_id players = numbered (List.length players) ->
    let players' := fold_left (probeName html) names players in
    map sp_id players' = numbered (List.length players')
    /\ map sp_name players'
       = (map sp_name players ++ filter (probed html) names)%list
    /\ (Forall (fun p => sp_status p = "active") players ->
        Forall (fun p => sp_status p = "active") players').
Proof.
  induction names as [|n names IH]; intros players H; simpl.
  - rewrite app_nil_r. auto.
  - destruct (probeName_cases html players n)
      as [(Hp & ->)|(Hp & p & -> & Hid & Hname & Hstatus)]; rewrite Hp.
    + apply IH, H.
    + destruct (IH (players ++ [p])%list) as (H1 & H2 & H3).
      { rewrite map_app, length_app, H. simpl. rewrite Nat.add_1_r, numbered_S.
        now rewrite Hid. }
      split; [exact H1|]. split.
      * rewrite H2, map_app, <- app_assoc. simpl. now rewrite Hname.
      * intros Ha. apply H3. apply Forall_app. split; auto.
Qed.

Lemma readRow_cases players row :
  readRow players row = players
  \/ exists p,
      readRow players row = (players ++ [p])%list
      /\ sp_id p = "espn_" ++ Z_toString (Z.of_nat (List.length players) + 1)
      /\ sp_status p = "active".
Proof.
  unfold readRow.
  destruct (_ || _); [auto|].
  destruct (Regex.exec anchorPattern row); [|auto].
  right. eexists. split; [reflexivity|]. split; reflexivity.
Qed.

Lemma tableRows_fold rows :
  forall players,
    map sp_id players = numbered (List.length players) ->
    Forall (fun p => sp_status p = "active") players ->
    let players' := fold_left readRow rows players in
    map sp_id players' = numbered (List.length players')
    /\ Forall (fun p => sp_status p = "active") players'
    /\ (List.length players' <= List.length players + List.length rows)%nat.
Proof.
  induction rows as [|row rows IH]; intros players H Ha; simpl.
  - split; auto. split; auto. lia.
  - destruct (readRow_cases players row) as [->|(p & -> & Hid & Hstatus)].
    + destruct (IH players H Ha) as (H1 & H2 & H3).
      split; auto. split; auto. lia.
    + destruct (IH (players ++ [p])%list) as (H1 & H2 & H3).
      { rewrite map_app, length_app, H. simpl. rewrite Nat.add_1_r, numbered_S.
        now rewrite Hid. }
      { apply Forall_app. split; auto. }
      split; auto. split; auto. rewrite length_app in H3. simpl in H3. lia.
Qed.

Lemma playerNames_distinct : NoDup playerNames.
Proof.
  unfold playerNames.
  repeat (constructor; [simpl; intuition discriminate|]). constructor.
Qed.

(** X10. The players the two scraping loops of [extractPlayers] find.
    Both loops number their players [espn_1], [espn_2], ... in the
    order found and mark each one active. The name probe returns the
    known names it finds, each once and in the order of its fixed
    list, so at most ten players; the table loop returns at most one
    player per row. *)
Theorem scraped_players_are_numbered html :
  (map sp_id (nameProbePlayers html)
   = numbered (List.length (nameProbePlayers html))
   /\ map sp_name (nameProbePlayers html)
      = filter (probed html) playerNames
   /\ NoDup (map sp_name (nameProbePlayers html))
   /\ (List.length (nameProbePlayers html) <= 10)%nat
   /\ Forall (fun p => sp_status p = "active") (nameProbePlayers html))
  /\ (map sp_id (tableRowPlayers html)
      = numbered (List.length (tableRowPlayers html))
      /\ (List.length (tableRowPlayers html)
          <= List.length (Regex.matchAll tableRowPattern html))%nat
      /\ Forall (fun p => sp_status p = "active") (tableRowPlayers html)).
Proof.
  split.
  - unfold nameProbePlayers.
    pose proof (nameProbe_fold html playerNames [] eq_refl) as H.
    cbv zeta in H. destruct H as (H1 & H2 & H3).
    set (players := fold_left (probeName html) playerNames []) in *.
    cbn [map app] in H2.
    split; [exact H1|]. split; [exact H2|]. split; [|split].
    + rewrite H2. apply NoDup_filter, playerNames_distinct.
    + rewrite <- (length_map sp_name), H2.
      change 10%nat with (List.length playerNames). apply filter_length_le.
    + apply H3. constructor.
  - unfold tableRowPlayers.
    pose proof (tableRows_fold (Regex.matchAll tableRowPattern html) []
                  eq_refl (Forall_nil _)) as H.
    cbv zeta in H. destruct H as (H1 & H2 & H3).
    split; [exact H1|]. split; [exact H3|exact H2].
Qed.

Lemma number_or_zero_is_number x : is_number (number_or_zero x).
Proof.
  unfold is_number, number_or_zero, number_falsy.
  destruct (PrimFloat.eqb x 0); [reflexivity|]. simpl.
  destruct (PrimFloat.is_nan x) eqn:E; [reflexivity|exact E].
Qed.

Lemma count_of_is_number s : is_number (count_of s).
Proof.
  destruct s as [text|]; [apply number_or_zero_is_number|reflexivity].
Qed.

(** X11. [extractRecord] returns numbers: whatever the page, none of
    [wins], [losses] and [ties] is [NaN], for each count is read with
    [parseInt(...) || 0] or is a constant. *)
Theorem extracted_record_has_no_NaN html :
  record_of_numbers (extractRecord html).
Proof.
  unfold extractRecord.
  induction recordPatterns as [|pattern rest IH]; cbn [firstRecord].
  - repeat split.
  - destruct (Regex.exec pattern html) as [m|]; [|exact IH].
    destruct (Nat.eqb (S (Regex.group_count pattern)) 4).
    + repeat split; apply count_of_is_number.
    + destruct (Regex.group m 1) as [[|c text]|]; try exact IH.
      destruct (2 <=? List.length _)%nat; [|exact IH].
      repeat split; try apply count_of_is_number. cbn [ties].
      destruct (nth_error _ 2) as [[|c' t]|]; try reflexivity.
      apply count_of_is_number.
Qed.

(** ** The ESPN adapter: the other session methods *)

Import ESPNSession SpecSession.

Lemma follows_refl w : follows 0 w w.
Proof.
  repeat split; auto. exists []. rewrite app_nil_r. auto.
Qed.

Lemma follows_trans a b w w1 w2 :
  follows a w w1 -> follows b w1 w2 -> follows (a + b) w w2.
Proof.
  intros (H1 & H2 & H3 & l1 & H4 & H5 & H6) (G1 & G2 & G3 & l2 & G4 & G5 & G6).
  split; [congruence|]. split; [congruence|]. split; [lia|].
  exists (l1 ++ l2)%list. split; [now rewrite G4, H4, app_assoc|].
  split; [rewrite length_app; lia|]. now rewrite forallb_app, H6, G6.
Qed.

Lemma follows_weaken a b w w' : (a <= b)%nat -> follows a w w' -> follows b w w'.
Proof.
  intros Hab (H1 & H2 & H3 & l & H4 & H5 & H6).
  repeat split; auto. exists l. repeat split; auto. lia.
Qed.

Lemma follows_ticked w : follows 0 w (ticked w).
Proof.
  repeat split; simpl; auto. exists []. rewrite app_nil_r. auto.
Qed.

Lemma Date_now_follows env w :
  exists now, Date_now env w = (Ok now, ticked w).
Proof. eexists. reflexivity. Qed.

Lemma seasonOf_follows env teamUrl w :
  exists season w', seasonOf env teamUrl w = (Ok season, w') /\ follows 0 w w'.
Proof.
  unfold seasonOf. destruct (urlParam teamUrl "season") as [[|c s]|].
  - eexists. eexists. split; [reflexivity|apply follows_ticked].
  - eexists. eexists. split; [reflexivity|apply follows_refl].
  - eexists. eexists. split; [reflexivity|apply follows_ticked].
Qed.

(** [parseTeamPage] returns team data, whatever the page. *)
Lemma parseTeamPage_returns env html leagueId teamId season w :
  exists t w',
    parseTeamPage env html leagueId teamId season w = (Ok t, w')
    /\ follows 0 w w'.
Proof.
  unfold parseTeamPage. destruct (extractJSONData html).
  - eexists. eexists. split; [reflexivity|apply follows_refl].
  - destruct (_ && _).
    + eexists. eexists. split; [reflexivity|].
      apply (follows_trans 0 0 w (ticked w)); apply follows_ticked.
    + eexists. eexists. split; [reflexivity|apply follows_refl].
Qed.

Lemma axios_get_follows env url headers timeout w :
  exists w',
    axios_get env url headers timeout w
    = (http_get env url headers timeout, w')
    /\ follows 1 w w'.
Proof.
  eexists. split; [reflexivity|]. repeat split; simpl; auto.
  eexists. split; [reflexivity|]. split; simpl; auto.
Qed.

(** The [try] block of [getTeamFromUrl] sends at most two requests. *)
Lemma fetchAndParse_follows env teamUrl w :
  exists r w', fetchAndParse env teamUrl w = (r, w') /\ follows 2 w w'.
Proof.
  unfold fetchAndParse, bindM.
  destruct (seasonOf_follows env teamUrl w) as (season & w1 & -> & H1).
  destruct (urlParam teamUrl "leagueId") as [[|c1 l1]|];
    try (eexists; eexists; split; [reflexivity|];
         now apply (follows_weaken 0 2); [lia|]).
  destruct (urlParam teamUrl "teamId") as [[|c2 t2]|];
    try (eexists; eexists; split; [reflexivity|];
         now apply (follows_weaken 0 2); [lia|]).
  unfold sessionCookies.
  destruct (authSession w1) as [s|];
    [|eexists; eexists; split; [reflexivity|];
      now apply (follows_weaken 0 2); [lia|]].
  unfold ret at 1. unfold tryM.
  match goal with
  | |- context [axios_get env ?u ?h ?t w1] =>
      destruct (axios_get_follows env u h t w1) as (w2 & E2 & H2); rewrite E2
  end.
  assert (Hparse : forall response w3,
             follows 2 w w3 ->
             exists r w',
               (if Str.includes "<!DOCTYPE" (data response)
                   && (Str.includes "login" (data response)
                       || Str.includes "signin" (data response))
                then throw (mkError
                       "Authentication failed - got login page instead of team data")
                else parseTeamPage env (data response) (String c1 l1)
                                   (String c2 t2) season) w3 = (r, w')
               /\ follows 2 w w').
  { intros response w3 H3. destruct (_ && _).
    - eexists. eexists. split; [reflexivity|exact H3].
    - destruct (parseTeamPage_returns env (data response) (String c1 l1)
                  (String c2 t2) season w3) as (t & w' & -> & H4).
      eexists. eexists. split; [reflexivity|].
      apply (follows_trans 2 0 w w3 w' H3 H4). }
  destruct (http_get env _ _ _) as [response|e].
  - apply Hparse. apply (follows_trans 0 1 w w1 w2 H1) in H2.
    now apply (follows_weaken 1 2); [lia|].
  - match goal with
    | |- context [axios_get env ?u ?h ?t w2] =>
        destruct (axios_get_follows env u h t w2) as (w3 & E3 & H3); rewrite E3
    end.
    assert (H13 : follows 2 w w3).
    { apply (follows_trans 0 2 w w1 w3 H1).
      apply (follows_trans 1 1 w1 w2 w3 H2 H3). }
    destruct (http_get env _ _ _) as [response|e'].
    + now apply Hparse.
    + eexists. eexists. split; [reflexivity|exact H13].
Qed.

Lemma fallBack_returns env teamUrl e w :
  exists t w', fallBack env teamUrl e w = (Ok (Mock t), w') /\ follows 0 w w'.
Proof.
  unfold fallBack, bindM.
  destruct (seasonOf_follows env teamUrl w) as (season & w1 & -> & H1).
  eexists. eexists. split; [reflexivity|exact H1].
Qed.

Lemma validFor_ticked env k w s :
  validFor env (S k) w s ->
  isAuthenticated env w = (Ok true, ticked w) /\ validFor env k (ticked w) s.
Proof.
  intros (Hs & Hflag & Hv). split.
  - rewrite (isAuthenticated_valid env w s Hs).
    + now rewrite Hflag.
    + specialize (Hv 0%nat). rewrite Nat.add_0_r in Hv. apply Hv. lia.
  - split; [exact Hs|]. split; [exact Hflag|]. intros i Hi. simpl.
    replace (S (ticks w + i)) with (ticks w + S i)%nat by lia. apply Hv. lia.
Qed.

(** Once both session checks of [getTeamFromUrl] have passed, it
    returns. *)
Lemma getTeamFromUrl_checked env teamUrl w :
  isAuthenticated env w = (Ok true, ticked w) ->
  isAuthenticated env (ticked w) = (Ok true, ticked (ticked w)) ->
  exists t w',
    getTeamFromUrl env teamUrl w = (Ok t, w') /\ follows 2 w w'.
Proof.
  intros E1 E2. unfold getTeamFromUrl, bindM. rewrite E1, E2.
  cbn [negb]. unfold tryM.
  destruct (fetchAndParse_follows env teamUrl (ticked (ticked w)))
    as (r & w1 & -> & H1).
  assert (H0 : follows 0 w (ticked (ticked w))).
  { apply (follows_trans 0 0 w (ticked w)); apply follows_ticked. }
  destruct r as [t|e].
  - exists t, w1. split; [reflexivity|].
    apply (follows_trans 0 2 w _ w1 H0 H1).
  - destruct (fallBack_returns env teamUrl e w1) as (t & w2 & -> & H2).
    exists (Mock t), w2. split; [reflexivity|].
    apply (follows_weaken (0 + 2 + 0) 2); [lia|].
    apply (follows_trans (0 + 2) 0 w w1 w2); [|exact H2].
    apply (follows_trans 0 2 w _ w1 H0 H1).
Qed.

(** X12. With a valid session [getTeamFromUrl] never throws. Whatever
    the address and whatever the proxies answer, it returns team data,
    be it scraped or the mock team; it sends at most two requests,
    all of them after the session checks, and leaves the session and
    the storage as they were. *)
Theorem getTeamFromUrl_always_answers env teamUrl w s :
  validFor env 2 w s ->
  exists t w',
    getTeamFromUrl env teamUrl w = (Ok t, w') /\ follows 2 w w'.
Proof.
  intros Hv.
  destruct (validFor_ticked env 1 w s Hv) as (E1 & Hv1).
  destruct (validFor_ticked env 0 (ticked w) s Hv1) as (E2 & _).
  exact (getTeamFromUrl_checked env teamUrl w E1 E2).
Qed.

(** A session that lasts until 5000, at clock readings from 1000 on:
    an address that names no league still gets an answer. *)
Lemma getTeamFromUrl_always_answers_witness :
  exists t w',
    getTeamFromUrl (SamplesWeb.envWith 1000 SamplesWeb.emptyPage)
                   "not an address" SamplesWeb.loggedIn = (Ok t, w')
    /\ follows 2 SamplesWeb.loggedIn w'.
Proof.
  apply (getTeamFromUrl_always_answers
           (SamplesWeb.envWith 1000 SamplesWeb.emptyPage) "not an address"
           SamplesWeb.loggedIn SamplesWeb.session).
  split; [reflexivity|]. split; [reflexivity|].
  intros i Hi. change (1000 + Z.of_nat (0 + i) <= 5000)%Z. lia.
Defined.

(** X13. [refreshTeamData] with a session that is valid at three
    readings of the clock is [getTeamFromUrl] after one reading, and so
    returns team data and never throws; without a session, or with an
    expired one, it throws the not-authenticated error and has sent no
    request. *)
Theorem refreshTeamData_outcomes env teamUrl w :
  (forall s,
      validFor env 3 w s ->
      refreshTeamData env teamUrl w = getTeamFromUrl env teamUrl (ticked w)
      /\ exists t w',
          refreshTeamData env teamUrl w = (Ok t, w') /\ follows 2 w w')
  /\ (authSession w = None
      \/ (exists s, authSession w = Some s
                    /\ (expiresAt s < clock env (ticks w))%Z) ->
      exists w',
        refreshTeamData env teamUrl w
        = (Throw (mkError "Not authenticated with ESPN. Please log in first."),
           w')
        /\ requests w' = requests w).
Proof.
  split.
  - intros s Hv. unfold refreshTeamData, bindM.
    destruct (validFor_ticked env 2 w s Hv) as (-> & Hv1). cbn [negb].
    destruct (validFor_ticked env 1 (ticked w) s Hv1) as (E1 & Hv2).
    destruct (validFor_ticked env 0 (ticked (ticked w)) s Hv2) as (E2 & _).
    destruct (getTeamFromUrl_checked env teamUrl (ticked w) E1 E2)
      as (t & w' & E & H).
    unfold tryM. rewrite E. split; [reflexivity|].
    exists t, w'. split; [reflexivity|].
    apply (follows_trans 0 2 w (ticked w) w' (follows_ticked w) H).
  - intros [H|(s & H & Hexp)]; unfold refreshTeamData, bindM.
    + rewrite (isAuthenticated_no_session env w H). simpl.
      exists w. split; reflexivity.
    + rewrite (isAuthenticated_expired env w s H Hexp). simpl.
      exists (cleared w). split; [reflexivity|].
      unfold requests, cleared. simpl. rewrite filter_app. simpl.
      now rewrite app_nil_r.
Qed.

(** The sample session, valid at readings from 1000 on and expired
    at readings from 9000 on. *)
Lemma refreshTeamData_outcomes_witness :
  (exists t w',
      refreshTeamData (SamplesWeb.envWith 1000 SamplesWeb.teamPage)
                      SamplesWeb.teamUrl SamplesWeb.loggedIn = (Ok t, w')
      /\ follows 2 SamplesWeb.loggedIn w')
  /\ (exists w',
      refreshTeamData (SamplesWeb.envWith 9000 SamplesWeb.teamPage)
                      SamplesWeb.teamUrl SamplesWeb.loggedIn
      = (Throw (mkError "Not authenticated with ESPN. Please log in first."),
         w')
      /\ requests w' = requests SamplesWeb.loggedIn).
Proof.
  split.
  - apply (proj1 (refreshTeamData_outcomes
                    (SamplesWeb.envWith 1000 SamplesWeb.teamPage)
                    SamplesWeb.teamUrl SamplesWeb.loggedIn)
                 SamplesWeb.session).
    split; [reflexivity|]. split; [reflexivity|].
    intros i Hi. change (1000 + Z.of_nat (0 + i) <= 5000)%Z. lia.
  - apply (proj2 (refreshTeamData_outcomes
                    (SamplesWeb.envWith 9000 SamplesWeb.teamPage)
                    SamplesWeb.teamUrl SamplesWeb.loggedIn)).
    right. exists SamplesWeb.session. split; reflexivity.
Defined.



(** X15. [createTeamFromHTML] reports success for every page: it never
    throws, and its result has [success = true], no error and exactly
    one team, which is the mock team when the page gives neither a
    state blob nor a team name. [testParseHTML] is [parseTeamPage] with
    the defaults filled in. *)
Theorem createTeamFromHTML_always_succeeds
    env html leagueId teamId season w :
  (exists t w',
      createTeamFromHTML env html leagueId teamId season w
      = (Ok {| hc_success := true; hc_platform := "ESPN"; hc_teams := [t];
               hc_error := None |}, w')
      /\ testParseHTML env html leagueId teamId season w = (Ok t, w')
      /\ follows 0 w w')
  /\ (extractJSONData html = None ->
      extractTeamName html = "ESPN Team" ->
      createTeamFromHTML env html leagueId teamId season w
      = (Ok {| hc_success := true; hc_platform := "ESPN";
               hc_teams :=
                 [ Mock (createMockTeamData
                           (Some (or_default leagueId "45107891"))
                           (Some (or_default teamId "7"))
                           (or_default season "2025")) ];
               hc_error := None |}, w)).
Proof.
  split.
  - unfold createTeamFromHTML, testParseHTML, bindM.
    destruct (parseTeamPage_returns env html (or_default leagueId "45107891")
                (or_default teamId "7") (or_default season "2025") w)
      as (t & w' & -> & H).
    exists t, w'. auto.
  - intros Hj Hn. unfold createTeamFromHTML, bindM, parseTeamPage.
    rewrite Hj, Hn. rewrite andb_false_r. cbn [negb String.eqb].
    unfold ret. now rewrite rename_same.
Qed.

(** A page with nothing to extract gives the mock team of the
    default league. *)
Lemma createTeamFromHTML_always_succeeds_witness :
  createTeamFromHTML (SamplesWeb.envWith 1000 SamplesWeb.emptyPage)
                     SamplesWeb.emptyPage None None None SamplesWeb.loggedIn
  = (Ok {| hc_success := true; hc_platform := "ESPN";
           hc_teams :=
             [ Mock (createMockTeamData (Some "45107891") (Some "7") "2025") ];
           hc_error := None |}, SamplesWeb.loggedIn).
Proof.
  apply (proj2 (createTeamFromHTML_always_succeeds
                  (SamplesWeb.envWith 1000 SamplesWeb.emptyPage)
                  SamplesWeb.emptyPage None None None SamplesWeb.loggedIn));
    vm_compute; reflexivity.
Defined.

(** ** Yahoo: the authorization address *)

Import YahooAuth SpecText.

Lemma all_chars_app p a b :
  all_chars p (a ++ b) = all_chars p a && all_chars p b.
Proof.
  induction a as [|c a IH]; simpl; auto. now rewrite IH, andb_assoc.
Qed.

Lemma all_chars_weaken (p q : ascii -> bool) s :
  (forall c, p c = true -> q c = true) ->
  all_chars p s = true -> all_chars q s = true.
Proof.
  intros Hpq. induction s as [|c s IH]; simpl; auto.
  intros H. apply andb_prop in H. destruct H as [Hc Hs].
  now rewrite (Hpq c Hc), IH.
Qed.

Lemma split_without sep a :
  all_chars (is_not sep) a = true -> Str.split sep a = [a].
Proof.
  induction a as [|c a IH]; simpl; auto.
  intros H. apply andb_prop in H. destruct H as [Hc Ha].
  unfold is_not in Hc. apply negb_true_iff in Hc. rewrite Hc.
  now rewrite IH.
Qed.

Lemma split_at sep a b :
  all_chars (is_not sep) a = true ->
  Str.split sep (a ++ String sep b) = a :: Str.split sep b.
Proof.
  induction a as [|c a IH]; simpl.
  - intros _. now rewrite Ascii.eqb_refl.
  - intros H. apply andb_prop in H. destruct H as [Hc Ha].
    unfold is_not in Hc. apply negb_true_iff in Hc. rewrite Hc.
    now rewrite IH.
Qed.

Lemma cut_at sep a b :
  all_chars (is_not sep) a = true ->
  Str.cut sep (a ++ String sep b) = (a, Some b).
Proof.
  induction a as [|c a IH]; simpl.
  - intros _. now rewrite Ascii.eqb_refl.
  - intros H. apply andb_prop in H. destruct H as [Hc Ha].
    unfold is_not in Hc. apply negb_true_iff in Hc. rewrite Hc.
    now rewrite IH.
Qed.

Lemma form_decode_plain s :
  all_chars (fun c => negb (Ascii.eqb c "%") && negb (Ascii.eqb c "+")) s = true ->
  Web.form_decode s = s.
Proof.
  induction s as [|c s IH]; [reflexivity|].
  intros H. cbn [all_chars] in H. apply andb_prop in H. destruct H as [Hc Hs].
  apply andb_prop in Hc. destruct Hc as [H1 H2].
  apply negb_true_iff in H1, H2. specialize (IH Hs).
  destruct c as [[] [] [] [] [] [] [] []]; try discriminate;
    simpl; now rewrite IH.
Qed.

Import SpecQuery.

Lemma form_unit_round c rest :
  (nat_of_ascii c <? 128)%nat = true ->
  Web.form_decode (form_encode_unit c ++ rest) = String c (Web.form_decode rest).
Proof.
  destruct c as [[] [] [] [] [] [] [] []]; intros H;
    try discriminate H; reflexivity.
Qed.

Lemma form_unit_chars c : all_chars query_char (form_encode_unit c) = true.
Proof. destruct c as [[] [] [] [] [] [] [] []]; reflexivity. Qed.

Lemma query_char_is_no_separator c :
  query_char c = true ->
  is_not "&" c = true /\ is_not "=" c = true /\ is_not "?" c = true.
Proof.
  destruct c as [[] [] [] [] [] [] [] []]; intros H;
    try discriminate H; repeat split.
Qed.

Lemma form_encode_round s :
  ascii_only s = true -> Web.form_decode (form_encode s) = s.
Proof.
  unfold ascii_only. induction s as [|c s IH]; [reflexivity|].
  intros H. cbn [all_chars] in H. apply andb_prop in H. destruct H as [Hc Hs].
  cbn [form_encode]. rewrite (form_unit_round c _ Hc). now rewrite IH.
Qed.

Lemma form_encode_chars s : all_chars query_char (form_encode s) = true.
Proof.
  induction s as [|c s IH]; [reflexivity|].
  cbn [form_encode]. now rewrite all_chars_app, form_unit_chars, IH.
Qed.

Lemma form_encode_without sep s :
  sep = "&"%char \/ sep = "="%char \/ sep = "?"%char ->
  all_chars (is_not sep) (form_encode s) = true.
Proof.
  intros Hsep. apply (all_chars_weaken query_char); [|apply form_encode_chars].
  intros c Hc. destruct (query_char_is_no_separator c Hc) as (H1 & H2 & H3).
  destruct Hsep as [->|[->| ->]]; assumption.
Qed.

(** One serialized pair, parsed. *)
Lemma pair_round n v :
  ascii_only n = true -> ascii_only v = true ->
  let piece := form_encode n ++ "=" ++ form_encode v in
  piece <> ""
  /\ all_chars (is_not "&") piece = true
  /\ (let '(a, b) := Str.cut "=" piece in
      (Web.form_decode a,
       Web.form_decode (match b with Some b => b | None => "" end)))
     = (n, v).
Proof.
  intros Hn Hv piece. unfold piece. split; [|split].
  - destruct (form_encode n); discriminate.
  - rewrite all_chars_app. rewrite form_encode_without by auto.
    cbn [append all_chars]. now rewrite form_encode_without by auto.
  - change (form_encode n ++ "=" ++ form_encode v)
      with (form_encode n ++ String "=" (form_encode v)).
    rewrite cut_at by (apply form_encode_without; auto).
    now rewrite !form_encode_round.
Qed.

Lemma piece_round n v :
  ascii_only n = true -> ascii_only v = true ->
  parsed_piece (form_encode n ++ "=" ++ form_encode v) = [(n, v)].
Proof.
  intros Hn Hv. destruct (pair_round n v Hn Hv) as (Hne & _ & Hcut).
  unfold parsed_piece.
  destruct (form_encode n ++ "=" ++ form_encode v) eqn:E; [congruence|].
  rewrite <- Hcut. now destruct (Str.cut "=" _).
Qed.

Lemma join_cons sep p q rest :
  join sep (p :: q :: rest) = p ++ sep ++ join sep (q :: rest).
Proof. reflexivity. Qed.

Lemma split_join pieces :
  pieces <> [] ->
  Forall (fun piece => all_chars (is_not "&") piece = true) pieces ->
  Str.split "&" (join "&" pieces) = pieces.
Proof.
  induction pieces as [|p pieces IH]; [congruence|].
  intros _ H. inversion H as [|? ? Hp Hrest]; subst.
  destruct pieces as [|q pieces].
  - now apply split_without.
  - rewrite join_cons.
    change (p ++ "&" ++ join "&" (q :: pieces))
      with (p ++ String "&" (join "&" (q :: pieces))).
    rewrite split_at by exact Hp. f_equal. apply IH; [discriminate|exact Hrest].
Qed.

Lemma join_chars (p : ascii -> bool) pieces :
  p "&"%char = true ->
  Forall (fun piece => all_chars p piece = true) pieces ->
  all_chars p (join "&" pieces) = true.
Proof.
  intros Hsep. induction 1 as [|piece pieces Hp Hrest IH]; [reflexivity|].
  destruct pieces as [|q pieces]; [exact Hp|].
  rewrite join_cons, all_chars_app, Hp. cbn [append all_chars].
  now rewrite Hsep, IH.
Qed.

Lemma pieces_round pairs :
  Forall (fun nv => ascii_only (fst nv) = true /\ ascii_only (snd nv) = true)
         pairs ->
  pairs <> [] ->
  let text := params_toString pairs in
  all_chars (is_not "?") text = true
  /\ flat_map parsed_piece (Str.split "&" text) = pairs.
Proof.
  intros Hp Hne. cbv zeta. unfold params_toString.
  set (serialized := fun '(n, v) => form_encode n ++ "=" ++ form_encode v).
  assert (Hpieces : Forall (fun piece => all_chars (is_not "&") piece = true
                                         /\ all_chars (is_not "?") piece = true)
                           (map serialized pairs)).
  { apply Forall_map. rewrite Forall_forall in *. intros [n v] Hin.
    destruct (Hp _ Hin) as [Hn Hv]. cbn [fst snd] in Hn, Hv. unfold serialized.
    split; rewrite all_chars_app; rewrite form_encode_without by auto;
      cbn [append all_chars]; now rewrite form_encode_without by auto. }
  split.
  - apply join_chars; [reflexivity|].
    rewrite Forall_forall in *. intros piece Hin. now apply Hpieces.
  - rewrite split_join.
    + clear Hne Hpieces. induction Hp as [|[n v] pairs [Hn Hv] _ IH];
        [reflexivity|].
      cbn [fst snd] in Hn, Hv. cbn [map flat_map]. rewrite IH.
      change (serialized (n, v))
        with (form_encode n ++ "=" ++ form_encode v).
      now rewrite (piece_round n v Hn Hv).
    + destruct pairs; [congruence|discriminate].
    + rewrite Forall_forall in *. intros piece Hin. now apply Hpieces.
Qed.

(** X16. What the form serializer writes, the query parser reads back.
    For names and values of ASCII characters,
    [new URLSearchParams(text)] of the text
    [new URLSearchParams(object).toString()] gives has the pairs of the
    object, in order. In particular the address [getAuthUrl] builds
    carries the client id and the redirect address unchanged, whatever
    characters they contain. *)
Theorem query_round_trip :
  (forall pairs,
      Forall (fun nv => ascii_only (fst nv) = true /\ ascii_only (snd nv) = true)
             pairs ->
      Web.URLSearchParams (Some (params_toString pairs)) = pairs)
  /\ (forall clientId redirectUri,
      ascii_only clientId = true -> ascii_only redirectUri = true ->
      exists query,
        getAuthUrl clientId redirectUri
        = "https://api.login.yahoo.com/oauth2/request_auth?" ++ query
        /\ Web.URLSearchParams (Some query)
           = [ ("client_id", clientId); ("redirect_uri", redirectUri);
               ("response_type", "code"); ("scope", "fspt-r") ]).
Proof.
  assert (Hround : forall pairs,
             Forall (fun nv => ascii_only (fst nv) = true
                               /\ ascii_only (snd nv) = true) pairs ->
             Web.URLSearchParams (Some (params_toString pairs)) = pairs).
  { intros pairs Hp. destruct pairs as [|nv pairs]; [reflexivity|].
    destruct (pieces_round (nv :: pairs) Hp) as (Hq & Hr); [discriminate|].
    unfold Web.URLSearchParams. fold parsed_piece.
    destruct (params_toString (nv :: pairs)) as [|c text] eqn:E; [exact Hr|].
    cbn [all_chars] in Hq. apply andb_prop in Hq. destruct Hq as [Hc _].
    destruct c as [[] [] [] [] [] [] [] []]; try discriminate Hc; exact Hr. }
  split; [exact Hround|].
  intros clientId redirectUri Hc Hr. eexists. split; [reflexivity|].
  apply Hround. repeat constructor; assumption.
Qed.

(** A client id and a redirect address with every kind of character
    that needs care. *)
Lemma query_round_trip_witness :
  getAuthUrl "a b&c" "https://app.example/cb?x=1+1"
  = "https://api.login.yahoo.com/oauth2/request_auth?client_id=a+b%26c&redirect_uri=https%3A%2F%2Fapp.example%2Fcb%3Fx%3D1%2B1&response_type=code&scope=fspt-r"
  /\ exists query,
      getAuthUrl "a b&c" "https://app.example/cb?x=1+1"
      = "https://api.login.yahoo.com/oauth2/request_auth?" ++ query
      /\ Web.URLSearchParams (Some query)
         = [ ("client_id", "a b&c");
             ("redirect_uri", "https://app.example/cb?x=1+1");
             ("response_type", "code"); ("scope", "fspt-r") ].
Proof.
  split; [vm_compute; reflexivity|].
  apply (proj2 query_round_trip "a b&c" "https://app.example/cb?x=1+1");
    reflexivity.
Defined.

(** ** The team page address *)

Lemma plain_facts s :
  plain s = true ->
  all_chars (is_not "?") s = true
  /\ all_chars (is_not "&") s = true
  /\ all_chars (fun c => negb (Ascii.eqb c "%") && negb (Ascii.eqb c "+")) s
     = true.
Proof.
  intros H. unfold plain in H.
  split; [|split]; (eapply all_chars_weaken; [|exact H]);
    intros c; destruct c as [[] [] [] [] [] [] [] []]; intros Hc;
    try discriminate Hc; reflexivity.
Qed.

Lemma parsed_named name v :
  all_chars (is_not "=") name = true ->
  all_chars (fun c => negb (Ascii.eqb c "%") && negb (Ascii.eqb c "+")) name
  = true ->
  all_chars (fun c => negb (Ascii.eqb c "%") && negb (Ascii.eqb c "+")) v
  = true ->
  parsed_piece (name ++ String "=" v) = [(name, v)].
Proof.
  intros H1 H2 H3. unfold parsed_piece.
  destruct (name ++ String "=" v) eqn:E; [destruct name; discriminate|].
  rewrite <- E, cut_at by exact H1. now rewrite !form_decode_plain.
Qed.

(** X17. The address [getTeamFromUrl] builds for the team page reads
    back as the ids it was built from: for a league id, a team id and
    a season without [?], [&], [%] and [+], parsing the built address
    the way [getTeamFromUrl] parses its argument gives these three
    again. So the built address can be passed to [getTeamFromUrl] and
    [refreshTeamData] in place of the original one. *)
Theorem team_page_address_round_trip leagueId teamId season :
  plain leagueId = true -> plain teamId = true -> plain season = true ->
  urlParam (teamPageUrl leagueId teamId season) "leagueId" = Some leagueId
  /\ urlParam (teamPageUrl leagueId teamId season) "teamId" = Some teamId
  /\ urlParam (teamPageUrl leagueId teamId season) "season" = Some season.
Proof.
  intros HL HT HS.
  destruct (plain_facts _ HL) as (HL1 & HL2 & HL3).
  destruct (plain_facts _ HT) as (HT1 & HT2 & HT3).
  destruct (plain_facts _ HS) as (HS1 & HS2 & HS3).
  set (query := ("leagueId" ++ String "=" leagueId)
                ++ String "&" (("teamId" ++ String "=" teamId)
                               ++ String "&" ("season" ++ String "=" season))).
  assert (Hurl : teamPageUrl leagueId teamId season
                 = "https://fantasy.espn.com/football/team" ++ String "?" query).
  { unfold teamPageUrl, query. cbn [append]. repeat f_equal. }
  assert (Hq : all_chars (is_not "?") query = true).
  { unfold query. rewrite !all_chars_app. cbn [all_chars append].
    rewrite !all_chars_app. cbn [all_chars append].
    now rewrite HL1, HT1, HS1. }
  assert (Hsplit : nth_error (Str.split "?" (teamPageUrl leagueId teamId season))
                             1 = Some query).
  { rewrite Hurl, split_at by reflexivity.
    now rewrite split_without by exact Hq. }
  assert (Hparams :
            Web.URLSearchParams (Some query)
            = [("leagueId", leagueId); ("teamId", teamId); ("season", season)]).
  { unfold Web.URLSearchParams. fold parsed_piece.
    change (match query with
            | String "?" q => q
            | _ => query
            end) with query.
    unfold query. rewrite split_at.
    2:{ change ("leagueId" ++ String "=" leagueId)
          with (String "l" (String "e" (String "a" (String "g" (String "u"
               (String "e" (String "I" (String "d" (String "=" leagueId))))))))).
        cbn [all_chars]. exact HL2. }
    rewrite split_at.
    2:{ change ("teamId" ++ String "=" teamId)
          with (String "t" (String "e" (String "a" (String "m" (String "I"
               (String "d" (String "=" teamId))))))).
        cbn [all_chars]. exact HT2. }
    rewrite split_without.
    2:{ change ("season" ++ String "=" season)
          with (String "s" (String "e" (String "a" (String "s" (String "o"
               (String "n" (String "=" season))))))).
        cbn [all_chars]. exact HS2. }
    cbn [flat_map].
    rewrite !parsed_named by (first [reflexivity|assumption]).
    reflexivity. }
  unfold urlParam. rewrite Hsplit, Hparams.
  split; [reflexivity|]. split; reflexivity.
Qed.

(** The ids of the mock team; a league id with a space in it is
    plain, too. *)
Lemma team_page_address_round_trip_witness :
  (urlParam (teamPageUrl "45107891" "7" "2025") "leagueId" = Some "45107891"
   /\ urlParam (teamPageUrl "45107891" "7" "2025") "teamId" = Some "7"
   /\ urlParam (teamPageUrl "45107891" "7" "2025") "season" = Some "2025")
  /\ urlParam (teamPageUrl "my league" "7" "2025") "leagueId"
     = Some "my league".
Proof.
  split.
  - apply (team_page_address_round_trip "45107891" "7" "2025"); reflexivity.
  - apply (team_page_address_round_trip "my league" "7" "2025"); reflexivity.
Defined.

(** ** Sleeper: the leagues of a user *)

Import SleeperLeagues.

Lemma all_results_Ok {A} (outcomes : list (result A)) values :
  all_results outcomes = Ok values -> outcomes = map Ok values.
Proof.
  revert values. induction outcomes as [|o outcomes IH]; simpl.
  - now intros values [= <-].
  - intros values. destruct o as [a|e]; simpl; [|discriminate].
    destruct (all_results outcomes) as [l|e]; simpl; [|discriminate].
    intros [= <-]. simpl. f_equal. now apply IH.
Qed.

Lemma sleeper_getLeague_id lru pn leagueId league :
  Sleeper.getLeague lru pn leagueId = Ok league ->
  Sleeper.lg_league_id league = leagueId.
Proof.
  unfold Sleeper.getLeague.
  destruct lru as [[[lg rosters] users]|e]; simpl; [|discriminate].
  destruct pn as [allPlayers|e]; simpl; [|discriminate].
  now intros [= <-].
Qed.

(** X18. [getUserLeagues] of the Sleeper adapter returns one league per
    league of the user, in the order of the response, each carrying
    the id it was requested by; this needs every one of the league
    requests to succeed. Whatever fails, the error thrown is
    [Failed to fetch user leagues] and nothing of the cause is left. *)
Theorem sleeper_user_leagues_in_order response lru pn :
  (forall leagues,
      getUserLeagues response
        (fun leagueId => Sleeper.getLeague (lru leagueId) pn leagueId)
      = Ok leagues ->
      exists ids,
        response = Ok ids
        /\ map Sleeper.lg_league_id leagues = ids
        /\ map (fun leagueId => Sleeper.getLeague (lru leagueId) pn leagueId) ids
           = map Ok leagues)
  /\ (forall e,
      getUserLeagues response
        (fun leagueId => Sleeper.getLeague (lru leagueId) pn leagueId)
      = Throw e ->
      e = mkError "Failed to fetch user leagues").
Proof.
  unfold getUserLeagues. split.
  - intros leagues H. destruct response as [ids|e]; simpl in H; [|discriminate].
    destruct (all_results _) as [l|e] eqn:E; simpl in H; [|discriminate].
    injection H as ->. apply all_results_Ok in E.
    exists ids. split; [reflexivity|]. split; [|exact E].
    revert leagues E. induction ids as [|i ids IH]; intros [|l leagues];
      simpl; try discriminate; auto.
    intros [= H1 H2]. f_equal; [|now apply IH].
    now apply sleeper_getLeague_id in H1.
  - intros e H. destruct response as [ids|e']; simpl in H.
    + destruct (all_results _); simpl in H; congruence.
    + congruence.
Qed.

(** Two leagues of a user on the sample network come back in the
    order of the response. *)
Lemma sleeper_user_leagues_in_order_witness :
  exists leagues,
    getUserLeagues (Ok ["L1"; "L2"])
      (fun leagueId =>
         Sleeper.getLeague
           (sleeper_league_rosters_users SamplesNet.online leagueId)
           (sleeper_players SamplesNet.online) leagueId)
    = Ok leagues
    /\ map Sleeper.lg_league_id leagues = ["L1"; "L2"].
Proof.
  destruct (getUserLeagues (Ok ["L1"; "L2"])
              (fun leagueId =>
                 Sleeper.getLeague
                   (sleeper_league_rosters_users SamplesNet.online leagueId)
                   (sleeper_players SamplesNet.online) leagueId))
    as [leagues|e] eqn:E; [|discriminate E].
  exists leagues. split; [reflexivity|].
  destruct (proj1 (sleeper_user_leagues_in_order
                     (Ok ["L1"; "L2"])
                     (sleeper_league_rosters_users SamplesNet.online)
                     (sleeper_players SamplesNet.online)) leagues E)
    as (ids & Hr & Hm & _).
  injection Hr as <-. exact Hm.
Defined.

Lemma or_zero_is_number x : is_number (or_zero x).
Proof.
  destruct x as [v|]; [|reflexivity]. unfold is_number, or_zero, number_falsy.
  destruct (PrimFloat.eqb v 0); [reflexivity|]. simpl.
  destruct (PrimFloat.is_nan v) eqn:E; [reflexivity|exact E].
Qed.

(** X19. The teams of a Sleeper league. When [getLeague] returns, all
    four requests succeeded and the league has one team per roster, in
    order, with the roster's id; the players of a team are the ids of
    the roster that the players dictionary knows, in order; no count of
    a record is [NaN]; and every team has exactly one owner label,
    which is not empty. A roster whose owner is not among the users
    gives the team [Team <roster_id>] with the owner label [Unknown].
    When [getLeague] throws, the message is
    [Failed to fetch league <leagueId>: ] followed by the text of the
    cause. *)
Theorem sleeper_league_has_a_team_per_roster lru pn leagueId :
  (forall league,
      Sleeper.getLeague lru pn leagueId = Ok league ->
      exists lg rosters users allPlayers,
        lru = Ok (lg, rosters, users)
        /\ pn = Ok allPlayers
        /\ map Sleeper.tm_team_id (Sleeper.lg_teams league)
           = map Sleeper.roster_id rosters
        /\ map (fun t => map Sleeper.pl_player_id (Sleeper.tm_roster t))
               (Sleeper.lg_teams league)
           = map (fun r =>
                    filter (fun playerId =>
                              match allPlayers playerId with
                              | Some _ => true
                              | None => false
                              end)
                           (Sleeper.roster_players r))
                 rosters
        /\ Forall (fun t =>
                     record_of_numbers (Sleeper.tm_record t)
                     /\ exists owner,
                         Sleeper.tm_owners t = [owner] /\ owner <> "")
                  (Sleeper.lg_teams league)
        /\ (forall r,
               In r rosters ->
               find (fun u => String.eqb (Sleeper.user_id u)
                                         (Sleeper.owner_id r)) users = None ->
               exists t,
                 In t (Sleeper.lg_teams league)
                 /\ Sleeper.tm_team_id t = Sleeper.roster_id r
                 /\ Sleeper.tm_name t = Some ("Team " ++ Sleeper.roster_id r)
                 /\ Sleeper.tm_owners t = ["Unknown"]))
  /\ (forall e,
      Sleeper.getLeague lru pn leagueId = Throw e ->
      exists cause,
        e = mkError ("Failed to fetch league " ++ leagueId ++ ": "
                     ++ error_toString cause)).
Proof.
  unfold Sleeper.getLeague. split.
  - intros league H.
    destruct lru as [[[lg rosters] users]|e]; cbn [bind try_catch] in H;
      [|discriminate H].
    destruct pn as [allPlayers|e]; cbn [bind try_catch] in H;
      [|discriminate H].
    injection H as <-. exists lg, rosters, users, allPlayers.
    split; [reflexivity|]. split; [reflexivity|].
    cbn [Sleeper.lg_teams]. split; [|split; [|split]].
    + rewrite map_map. reflexivity.
    + rewrite map_map. apply map_ext. intros r. cbn [Sleeper.tm_roster].
      induction (Sleeper.roster_players r) as [|pid l IH]; [reflexivity|].
      cbn [flat_map filter]. destruct (allPlayers pid); [|exact IH].
      cbn [app map Sleeper.pl_player_id]. now rewrite IH.
    + apply Forall_map. apply Forall_forall. intros r _.
      cbn [Sleeper.tm_record Sleeper.tm_owners]. split.
      * repeat split; apply or_zero_is_number.
      * eexists. split; [reflexivity|].
        destruct (find _ users) as [u|]; [|discriminate].
        unfold string_or.
        destruct (Sleeper.first_truthy _ _) as [[|c s']|]; discriminate.
    + intros r Hr Hfind. eexists. split; [apply in_map; exact Hr|].
      cbn [Sleeper.tm_team_id Sleeper.tm_name Sleeper.tm_owners].
      rewrite Hfind. auto.
  - intros e H.
    destruct lru as [[[lg rosters] users]|cause]; cbn [bind try_catch] in H.
    + destruct pn as [allPlayers|cause]; cbn [bind try_catch] in H;
        [discriminate H|].
      injection H as <-. now exists cause.
    + injection H as <-. now exists cause.
Qed.

(** The sample league: its two rosters give two teams, and with the
    network down the error names the league. *)
Lemma sleeper_league_has_a_team_per_roster_witness :
  (exists league,
      Sleeper.getLeague (sleeper_league_rosters_users SamplesNet.online "L1")
                        (sleeper_players SamplesNet.online) "L1" = Ok league
      /\ map Sleeper.tm_team_id (Sleeper.lg_teams league) = ["1"; "2"])
  /\ Sleeper.getLeague (sleeper_league_rosters_users SamplesNet.offline "L1")
                       (sleeper_players SamplesNet.offline) "L1"
     = Throw (mkError
                "Failed to fetch league L1: AxiosError: Network Error").
Proof.
  split.
  - destruct (Sleeper.getLeague
                (sleeper_league_rosters_users SamplesNet.online "L1")
                (sleeper_players SamplesNet.online) "L1")
      as [league|e] eqn:E; [|discriminate E].
    exists league. split; [reflexivity|].
    destruct (proj1 (sleeper_league_has_a_team_per_roster
                       (sleeper_league_rosters_users SamplesNet.online "L1")
                       (sleeper_players SamplesNet.online) "L1") league E)
      as (lg & rosters & users & allPlayers & Hl & _ & Hids & _).
    rewrite Hids. injection Hl as _ <- _. reflexivity.
  - destruct (Sleeper.getLeague
                (sleeper_league_rosters_users SamplesNet.offline "L1")
                (sleeper_players SamplesNet.offline) "L1")
      as [league|e] eqn:E; [discriminate E|].
    destruct (proj2 (sleeper_league_has_a_team_per_roster
                       (sleeper_league_rosters_users SamplesNet.offline "L1")
                       (sleeper_players SamplesNet.offline) "L1") e E)
      as (cause & ->).
    rewrite <- E. reflexivity.
Defined.

(** ** The store ([useStore]) *)

Import Store.

Lemma stampTeams_ids clock n teamId ts :
  map ft_id (stampTeams clock n teamId ts) = map ft_id ts.
Proof.
  revert n. induction ts as [|t ts IH]; intros n; simpl; auto.
  destruct (String.eqb (ft_id t) teamId); simpl; now rewrite IH.
Qed.

Lemma filter_other_ids (ls : list Lineup) lid :
  filter (fun l => String.eqb (lineup_id l) lid)
         (filter (fun l => negb (String.eqb (lineup_id l) lid)) ls) = [].
Proof.
  induction ls as [|l ls IH]; simpl; auto.
  destruct (String.eqb (lineup_id l) lid) eqn:E; simpl; auto. now rewrite E.
Qed.

(** X20. What [syncTeam] leaves in the store once the lineup request
    has settled, whatever happened to the store in the meantime. It
    never leaves the store loading. When the request failed, the error
    of the store is [Failed to sync team], whatever the cause, and
    teams and lineups are untouched. When it succeeded, the fresh
    lineup is the last of the lineups and the only one with its id,
    the other lineups are kept in order, lineup ids that were distinct
    stay distinct, and the teams keep their ids and order. *)
Theorem syncTeam_settles clock teamId n outcome s :
  let s' := syncTeam_resume clock teamId n outcome s in
  isLoading s' = false
  /\ (forall e,
      outcome = Throw e ->
      error s' = Some "Failed to sync team"
      /\ teams s' = teams s /\ lineups s' = lineups s)
  /\ (forall lineup,
      outcome = Ok lineup ->
      error s' = error s
      /\ map ft_id (teams s') = map ft_id (teams s)
      /\ lineups s'
         = (filter (fun l => negb (String.eqb (lineup_id l) (lineup_id lineup)))
                   (lineups s) ++ [lineup])%list
      /\ filter (fun l => String.eqb (lineup_id l) (lineup_id lineup))
                (lineups s') = [lineup]
      /\ (NoDup (map lineup_id (lineups s)) ->
          NoDup (map lineup_id (lineups s')))).
Proof.
  cbv zeta. split; [now destruct outcome|]. split.
  - intros e ->. simpl. auto.
  - intros lineup ->. simpl. split; [reflexivity|].
    split; [apply stampTeams_ids|]. split; [reflexivity|]. split.
    + rewrite filter_app, filter_other_ids. simpl.
      now rewrite String.eqb_refl.
    + intros Hnd. rewrite map_app. simpl.
      apply NoDup_app.
      * clear - Hnd. induction (lineups s) as [|l ls IH]; simpl; auto.
        inversion Hnd as [|? ? Hnotin Hnd']; subst.
        destruct (String.eqb (lineup_id l) (lineup_id lineup)); simpl; auto.
        constructor; auto. intros Hin. apply Hnotin.
        apply in_map_iff in Hin. destruct Hin as (x & Hx & Hin).
        apply filter_In in Hin. rewrite <- Hx. now apply in_map.
      * constructor; [intros []|constructor].
      * intros x Hin [<-|[]]. apply in_map_iff in Hin.
        destruct Hin as (l & Hl & Hin). apply filter_In in Hin.
        destruct Hin as [_ Hne]. rewrite Hl, String.eqb_refl in Hne.
        discriminate Hne.
Qed.

(** A sync of the sample store whose request failed, and one whose
    request gave the lineup the store already holds. *)
Lemma syncTeam_settles_witness :
  (let s' := syncTeam_resume (fun n => (1000 + Z.of_nat n)%Z) "espn-7" 0
                             (Throw SamplesNet.networkError)
                             SamplesStore.store in
   error s' = Some "Failed to sync team"
   /\ teams s' = teams SamplesStore.store
   /\ lineups s' = lineups SamplesStore.store)
  /\ lineups (syncTeam_resume (fun n => (1000 + Z.of_nat n)%Z) "espn-7" 0
                              (Ok SamplesStore.lineup) SamplesStore.store)
     = [ SamplesStore.lineup ].
Proof.
  split.
  - exact (proj1 (proj2 (syncTeam_settles (fun n => (1000 + Z.of_nat n)%Z)
                           "espn-7" 0 (Throw SamplesNet.networkError)
                           SamplesStore.store))
                 SamplesNet.networkError eq_refl).
  - destruct (proj2 (proj2 (syncTeam_settles (fun n => (1000 + Z.of_nat n)%Z)
                              "espn-7" 0 (Ok SamplesStore.lineup)
                              SamplesStore.store))
                    SamplesStore.lineup eq_refl) as (_ & _ & H & _).
    rewrite H. reflexivity.
Defined.

(** X21. [syncTeam] as a whole, when nothing else touches the store in
    between. It turns every failure into the state of the store: for a
    team id the store does not hold, and for a team whose platform has
    no adapter (CBS, for one, which the type of a team allows), the
    store ends up not loading, with the error [Failed to sync team]
    and with its teams and lineups as before. *)
Theorem syncTeam_reports_failures svc token clock teamId n s :
  isLoading (syncTeam svc token clock teamId n s) = false
  /\ (find (fun t => String.eqb (ft_id t) teamId) (teams s) = None ->
      syncTeam svc token clock teamId n s
      = setLoading false (setError (Some "Failed to sync team") s))
  /\ (forall team,
      find (fun t => String.eqb (ft_id t) teamId) (teams s) = Some team ->
      ft_platform team <> "ESPN" -> ft_platform team <> "Yahoo" ->
      ft_platform team <> "Sleeper" ->
      syncTeam svc token clock teamId n s
      = setLoading false (setError (Some "Failed to sync team") s))
  /\ (forall team e,
      find (fun t => String.eqb (ft_id t) teamId) (teams s) = Some team ->
      Unified.getTeamLineup svc token team 8 = Throw e ->
      syncTeam svc token clock teamId n s
      = setLoading false (setError (Some "Failed to sync team") s)).
Proof.
  assert (Hfail : forall team e,
             find (fun t => String.eqb (ft_id t) teamId) (teams s) = Some team ->
             Unified.getTeamLineup svc token team 8 = Throw e ->
             syncTeam svc token clock teamId n s
             = setLoading false (setError (Some "Failed to sync team") s)).
  { intros team e Hfind Hthrow. unfold syncTeam, syncTeam_begin. simpl.
    rewrite Hfind, Hthrow. reflexivity. }
  split; [|split; [|split; [|exact Hfail]]].
  - unfold syncTeam, syncTeam_begin. simpl.
    destruct (find _ (teams s)) as [team|]; [|reflexivity].
    now destruct (Unified.getTeamLineup svc token team 8).
  - intros Hfind. unfold syncTeam, syncTeam_begin. simpl. now rewrite Hfind.
  - intros team Hfind H1 H2 H3.
    apply (Hfail team (mkError ("Unsupported platform: " ++ ft_platform team)));
      auto.
    unfold Unified.getTeamLineup. apply String.eqb_neq in H1, H2, H3.
    now rewrite H1, H2, H3.
Qed.

(** Syncing the team on CBS, with every service answering. *)
Lemma syncTeam_reports_failures_witness :
  syncTeam (servicesOn SamplesNet.online) None
           (fun n => (1000 + Z.of_nat n)%Z) "cbs-7" 0 SamplesStore.store
  = setLoading false (setError (Some "Failed to sync team") SamplesStore.store).
Proof.
  apply (proj1 (proj2 (proj2 (syncTeam_reports_failures
                                (servicesOn SamplesNet.online) None
                                (fun n => (1000 + Z.of_nat n)%Z) "cbs-7" 0
                                SamplesStore.store)))
               SamplesNet.cbsTeam);
    [reflexivity|discriminate|discriminate|discriminate].
Defined.

Lemma placePlayer_keeps clock lineupId position player ls :
  forall n,
    map lineup_id (placePlayer clock n lineupId position player ls)
    = map lineup_id ls
    /\ map totalProjectedPoints
           (placePlayer clock n lineupId position player ls)
       = map totalProjectedPoints ls
    /\ Forall (fun l =>
                 if String.eqb (lineup_id l) lineupId
                 then obj_get (players l) position = Some player
                 else In l ls)
              (placePlayer clock n lineupId position player ls).
Proof.
  induction ls as [|l ls IH]; intros n; simpl; auto.
  destruct (String.eqb (lineup_id l) lineupId) eqn:E.
  - destruct (IH (S n)) as (H1 & H2 & H3). simpl. rewrite H1, H2.
    split; auto. split; auto. constructor.
    + simpl. rewrite E. apply obj_get_set_same.
    + eapply Forall_impl; [|exact H3]. intros x Hx. cbv beta in Hx.
      destruct (String.eqb (lineup_id x) lineupId); [exact Hx|now right].
  - destruct (IH n) as (H1 & H2 & H3). simpl. rewrite H1, H2.
    split; auto. split; auto. constructor.
    + rewrite E. now left.
    + eapply Forall_impl; [|exact H3]. intros x Hx. cbv beta in Hx.
      destruct (String.eqb (lineup_id x) lineupId); [exact Hx|now right].
Qed.

(** X22. [updateLineupPlayer] puts the player in the slot of every
    lineup with the id and leaves the other lineups alone; it keeps
    the ids and the order of the lineups. It does not touch
    [totalProjectedPoints]: after a player has been replaced, the
    total of the lineup is still the one computed when the lineup was
    fetched. *)
Theorem updateLineupPlayer_keeps_the_total
    clock n lineupId position player s :
  let s' := updateLineupPlayer clock n lineupId position player s in
  map lineup_id (lineups s') = map lineup_id (lineups s)
  /\ map totalProjectedPoints (lineups s')
     = map totalProjectedPoints (lineups s)
  /\ (forall l,
      In l (lineups s') -> lineup_id l = lineupId ->
      obj_get (players l) position = Some player)
  /\ (forall l,
      In l (lineups s') -> lineup_id l <> lineupId -> In l (lineups s))
  /\ teams s' = teams s.
Proof.
  cbv zeta. unfold updateLineupPlayer. simpl.
  destruct (placePlayer_keeps clock lineupId position player (lineups s) n)
    as (H1 & H2 & H3).
  split; [exact H1|]. split; [exact H2|]. rewrite Forall_forall in H3.
  split; [|split; [|reflexivity]].
  - intros l Hin Hid. specialize (H3 l Hin).
    apply String.eqb_eq in Hid. now rewrite Hid in H3.
  - intros l Hin Hid. specialize (H3 l Hin).
    apply String.eqb_neq in Hid. now rewrite Hid in H3.
Qed.

(** Putting another quarterback in the sample lineup: the slot holds
    him, the total is the old one. *)
Lemma updateLineupPlayer_keeps_the_total_witness :
  let s' := updateLineupPlayer (fun n => (1000 + Z.of_nat n)%Z) 0 "espn-7-8"
                               "QB" (Single SamplesStore.replacement)
                               SamplesStore.store in
  map totalProjectedPoints (lineups s')
  = [ totalProjectedPoints SamplesStore.lineup ]
  /\ forall l,
      In l (lineups s') -> lineup_id l = "espn-7-8" ->
      obj_get (players l) "QB" = Some (Single SamplesStore.replacement).
Proof.
  destruct (updateLineupPlayer_keeps_the_total
              (fun n => (1000 + Z.of_nat n)%Z) 0 "espn-7-8" "QB"
              (Single SamplesStore.replacement) SamplesStore.store)
    as (_ & Htotal & Hslot & _).
  split; [exact Htotal|exact Hslot].
Defined.

Lemma filter_other_seasons (rs : list LeagueRecord) y :
  filter (fun r => negb (Z.eqb (lr_season r) y))
         (filter (fun r => negb (Z.eqb (lr_season r) y)) rs)
  = filter (fun r => negb (Z.eqb (lr_season r) y)) rs.
Proof.
  induction rs as [|r rs IH]; simpl; auto.
  destruct (Z.eqb (lr_season r) y) eqn:E; simpl; auto.
  now rewrite E, IH.
Qed.

Lemma filter_this_season (rs : list LeagueRecord) y :
  filter (fun r => Z.eqb (lr_season r) y)
         (filter (fun r => negb (Z.eqb (lr_season r) y)) rs) = [].
Proof.
  induction rs as [|r rs IH]; simpl; auto.
  destruct (Z.eqb (lr_season r) y) eqn:E; simpl; auto. now rewrite E.
Qed.

(** X23. [calculateWinLoss] keeps one record per season: afterwards the
    store holds exactly one record of the current season, the new one,
    in last place, and the records of other seasons as before. The new
    record lists one league per team of the store, in order, and its
    [winPercentage] is a number even when the store has no team or
    only teams without games (0/0). Doing it twice is doing it
    once. *)
Theorem calculateWinLoss_one_record_per_season currentSeason s :
  let s' := calculateWinLoss currentSeason s in
  filter (fun r => Z.eqb (lr_season r) currentSeason) (leagueRecords s')
  = [leagueRecordOf currentSeason s]
  /\ filter (fun r => negb (Z.eqb (lr_season r) currentSeason))
            (leagueRecords s')
     = filter (fun r => negb (Z.eqb (lr_season r) currentSeason))
              (leagueRecords s)
  /\ map le_teamId (lr_leagues (leagueRecordOf currentSeason s))
     = map ft_id (teams s)
  /\ is_number (lr_winPercentage (leagueRecordOf currentSeason s))
  /\ (teams s = [] ->
      lr_winPercentage (leagueRecordOf currentSeason s) = 0%float)
  /\ calculateWinLoss currentSeason s' = s'.
Proof.
  cbv zeta. unfold calculateWinLoss. simpl.
  split; [|split; [|split; [|split; [|split]]]].
  - rewrite filter_app, filter_this_season. simpl. now rewrite Z.eqb_refl.
  - rewrite filter_app, filter_other_seasons. simpl. rewrite Z.eqb_refl.
    simpl. apply app_nil_r.
  - now rewrite map_map.
  - apply number_or_zero_is_number.
  - intros Ht. unfold leagueRecordOf. rewrite Ht. reflexivity.
  - unfold setLeagueRecords. simpl. f_equal.
    rewrite filter_app, filter_other_seasons. simpl. rewrite Z.eqb_refl.
    simpl. rewrite app_nil_r. reflexivity.
Qed.

(** In the initial store, without teams, the win percentage is 0. *)
Lemma calculateWinLoss_one_record_per_season_witness :
  lr_winPercentage (leagueRecordOf 2025 initial) = 0%float.
Proof.
  destruct (calculateWinLoss_one_record_per_season 2025%Z initial)
    as (_ & _ & _ & _ & H & _).
  exact (H eq_refl).
Defined.

(** ** The ESPN adapter: logging in *)

Import ESPNLogin.

Import SpecLogin.

(** [authenticate], path by path. *)
Lemma authenticate_paths env poster quota username password o :
  authenticate env poster quota username password o
  = match http_get env loginAddress [ ("User-Agent", userAgent) ] 0 with
    | Throw cause => (Throw (loginFailure cause), pageRequested o)
    | Ok page =>
        match poster loginAddress (loginBody username password (data page))
                     loginHeaders with
        | Throw cause =>
            (Throw (loginFailure cause),
             loginPosted username password (data page) o)
        | Ok response =>
            if (login_status response <? 400)%Z then
              if (login_status response =? 302)%Z
                 || (login_status response =? 200)%Z
              then
                let session :=
                  sessionAt (clock env (ticks (world o))) username response in
                match quota (localStorage (world o)) storageKey
                            (stringifySession session) with
                | None =>
                    (Ok session,
                     sessionSaved username password (data page) session o)
                | Some refusal =>
                    (Throw (loginFailure refusal),
                     sessionHeld username password (data page) session o)
                end
              else
                (Throw (loginFailure
                          (mkError
                             "Login failed - invalid credentials or ESPN error")),
                 loginPosted username password (data page) o)
            else
              (Throw (loginFailure
                        (Error_ "AxiosError"
                           ("Request failed with status code "
                            ++ Z_toString (login_status response)))),
               loginPosted username password (data page) o)
        end
    end.
Proof.
  unfold authenticate, tryL, bindL, lift, axios_get, axios_post.
  fold loginAddress. cbn [world posts].
  destruct (http_get env loginAddress _ 0) as [page|cause]; [|reflexivity].
  change (params_toString
            (fold_left (fun o0 kv => obj_set o0 (fst kv) (snd kv))
               (extractFormData (data page)
                ++ [("_token", extractCSRFToken (data page))])%list
               [("username", username); ("password", password)]))
    with (loginBody username password (data page)).
  change (proxyUrl ++ Web.encodeURIComponent "https://fantasy.espn.com/login")
    with loginAddress.
  fold loginHeaders.
  destruct (poster loginAddress _ loginHeaders) as [response|cause];
    [|reflexivity].
  destruct (login_status response <? 400)%Z; [|reflexivity].
  destruct ((login_status response =? 302)%Z
            || (login_status response =? 200)%Z); [|reflexivity].
  cbv zeta. unfold Date_now, setSession, saveSession, retL.
  cbn [world posts authSession localStorage ticks trace].
  change (7 * 24 * 60 * 60 * 1000)%Z with sevenDays.
  fold (sessionAt (clock env (ticks (world o))) username response).
  destruct (quota (localStorage (world o)) storageKey _); reflexivity.
Qed.

(** What a returned session says about the run. *)
Lemma authenticate_returned env poster quota username password o session o' :
  authenticate env poster quota username password o = (Ok session, o') ->
  exists page response,
    http_get env loginAddress [ ("User-Agent", userAgent) ] 0 = Ok page
    /\ poster loginAddress (loginBody username password (data page))
              loginHeaders = Ok response
    /\ (login_status response = 200%Z \/ login_status response = 302%Z)
    /\ session = sessionAt (clock env (ticks (world o))) username response
    /\ quota (localStorage (world o)) storageKey (stringifySession session)
       = None
    /\ o' = sessionSaved username password (data page) session o.
Proof.
  rewrite authenticate_paths.
  destruct (http_get env loginAddress _ 0) as [page|cause] eqn:Hget;
    [|discriminate].
  destruct (poster loginAddress _ loginHeaders) as [response|cause] eqn:Hpost;
    [|discriminate].
  destruct (login_status response <? 400)%Z; [|discriminate].
  destruct ((login_status response =? 302)%Z
            || (login_status response =? 200)%Z) eqn:Hstatus; [|discriminate].
  cbv zeta.
  destruct (quota (localStorage (world o)) storageKey _) eqn:Hquota;
    [discriminate|].
  intros H. injection H as <- <-. exists page, response.
  split; [reflexivity|]. split; [exact Hpost|]. split.
  - apply orb_prop in Hstatus.
    destruct Hstatus as [H|H]; apply Z.eqb_eq in H; [now right|now left].
  - split; [reflexivity|]. split; [exact Hquota|reflexivity].
Qed.


(** X25. How [authenticate] fails. Whatever [authenticate] does: if it
    returns a session, the login page was fetched, the login request
    was answered with status 200 or 302 and the session was written to
    the storage; if it throws, the error is an [Error] whose message
    is [ESPN authentication failed: ] followed by the text of the
    cause, and the storage is as it was. The session the service held
    before and the clock are then as they were, too, with one
    exception: when the login was accepted and only the write to the
    storage threw, the clock has been read and the service holds the
    new session, which is saved nowhere. *)
Theorem authenticate_failure_modes
    env poster quota username password o r o' :
  authenticate env poster quota username password o = (r, o') ->
  match r with
  | Ok session =>
      exists page response,
        http_get env loginAddress [ ("User-Agent", userAgent) ] 0 = Ok page
        /\ poster loginAddress (loginBody username password (data page))
                  loginHeaders = Ok response
        /\ (login_status response = 200%Z \/ login_status response = 302%Z)
        /\ session = sessionAt (clock env (ticks (world o))) username response
        /\ quota (localStorage (world o)) storageKey
                 (stringifySession session) = None
  | Throw e =>
      (exists cause,
          e = mkError ("ESPN authentication failed: " ++ error_toString cause))
      /\ localStorage (world o') = localStorage (world o)
      /\ ((authSession (world o') = authSession (world o)
           /\ ticks (world o') = ticks (world o))
          \/ exists page response refusal,
              http_get env loginAddress [ ("User-Agent", userAgent) ] 0
              = Ok page
              /\ poster loginAddress
                        (loginBody username password (data page))
                        loginHeaders = Ok response
              /\ (login_status response = 200%Z
                  \/ login_status response = 302%Z)
              /\ quota (localStorage (world o)) storageKey
                       (stringifySession
                          (sessionAt (clock env (ticks (world o))) username
                                     response))
                 = Some refusal
              /\ e = mkError ("ESPN authentication failed: "
                              ++ error_toString refusal)
              /\ authSession (world o')
                 = Some (sessionAt (clock env (ticks (world o))) username
                                   response)
              /\ ticks (world o') = S (ticks (world o)))
  end.
Proof.
  destruct r as [session|e].
  - intros H. apply authenticate_returned in H.
    destruct H as (page & response & Hget & Hpost & Hstatus & Hs & Hq & _).
    exists page, response. auto.
  - rewrite authenticate_paths.
    destruct (http_get env loginAddress _ 0) as [page|cause] eqn:Hget.
    2:{ intros H. injection H as <- <-. split; [now exists cause|].
        split; [reflexivity|]. left. split; reflexivity. }
    destruct (poster loginAddress _ loginHeaders) as [response|cause]
      eqn:Hpost.
    2:{ intros H. injection H as <- <-. split; [now exists cause|].
        split; [reflexivity|]. left. split; reflexivity. }
    destruct (login_status response <? 400)%Z.
    2:{ intros H. injection H as <- <-. split; [eexists; reflexivity|].
        split; [reflexivity|]. left. split; reflexivity. }
    destruct ((login_status response =? 302)%Z
              || (login_status response =? 200)%Z) eqn:Hstatus.
    2:{ intros H. injection H as <- <-. split; [eexists; reflexivity|].
        split; [reflexivity|]. left. split; reflexivity. }
    cbv zeta.
    destruct (quota (localStorage (world o)) storageKey _) as [refusal|]
      eqn:Hquota; [|discriminate].
    intros H. injection H as <- <-. split; [now exists refusal|].
    split; [reflexivity|]. right. exists page, response, refusal.
    split; [reflexivity|]. split; [exact Hpost|]. split.
    + apply orb_prop in Hstatus.
      destruct Hstatus as [H|H]; apply Z.eqb_eq in H; [now right|now left].
    + split; [exact Hquota|]. split; [reflexivity|]. split; reflexivity.
Qed.

(** X26. A login lasts seven days. The session [authenticate] returns
    is accepted by [isAuthenticated] at every clock reading up to
    seven days (604800000 ms) after the reading of the login,
    inclusive, and at any later reading [isAuthenticated] answers
    [false] and clears the session and its stored copy. *)
Theorem login_lasts_seven_days
    env poster quota username password o session o' w :
  authenticate env poster quota username password o = (Ok session, o') ->
  authSession w = Some session ->
  isAuthenticated env w
  = if (clock env (ticks w) <=? clock env (ticks (world o)) + 604800000)%Z
    then (Ok true, ticked w)
    else (Ok false, cleared w).
Proof.
  intros Hlogin Hw. apply authenticate_returned in Hlogin.
  destruct Hlogin as (page & response & _ & _ & _ & Hs & _).
  assert (Hauth : session_isAuthenticated session = true)
    by (rewrite Hs; reflexivity).
  assert (Hexp : expiresAt session
                 = (clock env (ticks (world o)) + 604800000)%Z)
    by (rewrite Hs; reflexivity).
  destruct (Z.leb_spec (clock env (ticks w))
                       (clock env (ticks (world o)) + 604800000)) as [Hle|Hgt].
  - rewrite (isAuthenticated_valid env w session Hw) by lia.
    now rewrite Hauth.
  - apply (isAuthenticated_expired env w session Hw). lia.
Qed.


(** A refused login (status 401) throws with the text of the axios
    error and leaves the session the service held. An accepted login
    into a full storage throws with the text of the storage's error,
    and the service holds the new session, the storage the old
    entry. *)
Lemma authenticate_failure_modes_witness :
  (fst (authenticate (SamplesLogin.envAt 1000 0) SamplesLogin.rejecting
                     SamplesLogin.roomy "manager" "wrong" SamplesLogin.start)
   = Throw (mkError
              "ESPN authentication failed: AxiosError: Request failed with status code 401")
   /\ authSession
        (world (snd (authenticate (SamplesLogin.envAt 1000 0)
                                  SamplesLogin.rejecting SamplesLogin.roomy
                                  "manager" "wrong" SamplesLogin.start)))
      = Some SamplesWeb.session)
  /\ (fst (authenticate (SamplesLogin.envAt 1000 0) SamplesLogin.accepting
                        SamplesLogin.full "manager" "s3cret"
                        SamplesLogin.start)
      = Throw (mkError
                 "ESPN authentication failed: QuotaExceededError: The quota has been exceeded.")
      /\ authSession
           (world (snd (authenticate (SamplesLogin.envAt 1000 0)
                                     SamplesLogin.accepting SamplesLogin.full
                                     "manager" "s3cret" SamplesLogin.start)))
         = Some (sessionAt 1000 "manager" SamplesLogin.accepted)
      /\ localStorage
           (world (snd (authenticate (SamplesLogin.envAt 1000 0)
                                     SamplesLogin.accepting SamplesLogin.full
                                     "manager" "s3cret" SamplesLogin.start)))
         = [("espn_auth_session", "saved")]).
Proof.
  split.
  - split; [vm_compute; reflexivity|].
    assert (E : authenticate (SamplesLogin.envAt 1000 0)
                             SamplesLogin.rejecting SamplesLogin.roomy
                             "manager" "wrong" SamplesLogin.start
                = (Throw (mkError
                            "ESPN authentication failed: AxiosError: Request failed with status code 401"),
                   snd (authenticate (SamplesLogin.envAt 1000 0)
                                     SamplesLogin.rejecting SamplesLogin.roomy
                                     "manager" "wrong" SamplesLogin.start)))
      by (vm_compute; reflexivity).
    destruct (authenticate_failure_modes _ _ _ _ _ _ _ _ E)
      as (_ & _ & [(Hs & _)|(page & response & refusal & _ & _ & _ & Hq & _)]).
    + exact Hs.
    + discriminate Hq.
  - split; [vm_compute; reflexivity|].
    assert (E : authenticate (SamplesLogin.envAt 1000 0)
                             SamplesLogin.accepting SamplesLogin.full
                             "manager" "s3cret" SamplesLogin.start
                = (Throw (mkError
                            "ESPN authentication failed: QuotaExceededError: The quota has been exceeded."),
                   snd (authenticate (SamplesLogin.envAt 1000 0)
                                     SamplesLogin.accepting SamplesLogin.full
                                     "manager" "s3cret" SamplesLogin.start)))
      by (vm_compute; reflexivity).
    destruct (authenticate_failure_modes _ _ _ _ _ _ _ _ E)
      as (_ & Hstore
          & [(Hs & Ht)|(page & response & refusal & Hget & Hpost & _ & _ & _
                        & Hs & _)]).
    + vm_compute in Ht. discriminate Ht.
    + split; [|exact Hstore].
      rewrite Hs. injection Hget as <-. injection Hpost as <-. reflexivity.
Defined.

(** A login at instant 1000: a check right after it passes, a check
    seven days and a millisecond later fails and clears the
    session. *)
Lemma login_lasts_seven_days_witness :
  (let w := world (snd (authenticate (SamplesLogin.envAt 1000 0)
                                     SamplesLogin.accepting SamplesLogin.roomy
                                     "manager" "s3cret" SamplesLogin.start)) in
   isAuthenticated (SamplesLogin.envAt 1000 0) w = (Ok true, ticked w))
  /\ (let w := world (snd (authenticate (SamplesLogin.envAt 1000 604800000)
                                        SamplesLogin.accepting
                                        SamplesLogin.roomy
                                        "manager" "s3cret"
                                        SamplesLogin.start)) in
      isAuthenticated (SamplesLogin.envAt 1000 604800000) w
      = (Ok false, cleared w)).
Proof.
  assert (Hlogin : forall later,
             authenticate (SamplesLogin.envAt 1000 later)
                          SamplesLogin.accepting SamplesLogin.roomy
                          "manager" "s3cret" SamplesLogin.start
             = (Ok (sessionAt 1000 "manager" SamplesLogin.accepted),
                snd (authenticate (SamplesLogin.envAt 1000 later)
                                  SamplesLogin.accepting SamplesLogin.roomy
                                  "manager" "s3cret" SamplesLogin.start)))
    by (intros later; rewrite authenticate_paths; reflexivity).
  split; cbv zeta.
  - exact (login_lasts_seven_days
             (SamplesLogin.envAt 1000 0) SamplesLogin.accepting
             SamplesLogin.roomy "manager" "s3cret" SamplesLogin.start _ _
             (world (snd (authenticate (SamplesLogin.envAt 1000 0)
                                       SamplesLogin.accepting
                                       SamplesLogin.roomy
                                       "manager" "s3cret"
                                       SamplesLogin.start)))
             (Hlogin 0%Z) eq_refl).
  - exact (login_lasts_seven_days
             (SamplesLogin.envAt 1000 604800000) SamplesLogin.accepting
             SamplesLogin.roomy "manager" "s3cret" SamplesLogin.start _ _
             (world (snd (authenticate (SamplesLogin.envAt 1000 604800000)
                                       SamplesLogin.accepting
                                       SamplesLogin.roomy
                                       "manager" "s3cret"
                                       SamplesLogin.start)))
             (Hlogin 604800000%Z) eq_refl).
Defined.

Lemma other_keys_stay (o : obj string) key k :
  k <> key ->
  obj_get (filter (fun kv => negb (String.eqb (fst kv) key)) o) k = obj_get o k.
Proof.
  intros Hk. induction o as [|[k0 v] o IH]; simpl; auto.
  destruct (String.eqb_spec k0 key) as [->|Hne]; simpl.
  - apply String.eqb_neq in Hk. rewrite String.eqb_sym in Hk. now rewrite Hk.
  - now rewrite IH.
Qed.

(** X27. Logging out undoes logging in. After a successful
    [authenticate], [clearSession] leaves the service without a
    session and the storage without the [espn_auth_session] entry,
    so that [isAuthenticated] answers [false] without reading the
    clock; every other entry of the storage is as it was before the
    login. *)
Theorem clearSession_undoes_login
    env poster quota username password o session o' :
  authenticate env poster quota username password o = (Ok session, o') ->
  exists w,
    clearSession (world o') = (Ok tt, w)
    /\ authSession w = None
    /\ obj_get (localStorage w) storageKey = None
    /\ (forall k, k <> storageKey ->
                  obj_get (localStorage w) k
                  = obj_get (localStorage (world o)) k)
    /\ isAuthenticated env w = (Ok false, w).
Proof.
  intros Hlogin. apply authenticate_returned in Hlogin.
  destruct Hlogin as (page & response & _ & _ & _ & _ & _ & Ho).
  assert (Hs : localStorage (world o')
               = obj_set (localStorage (world o)) storageKey
                         (stringifySession session))
    by (rewrite Ho; reflexivity).
  eexists. split; [reflexivity|]. cbn [authSession localStorage].
  split; [reflexivity|]. split; [apply removed_key_absent|]. split.
  - intros k Hk. rewrite other_keys_stay by exact Hk. rewrite Hs.
    apply obj_get_set_other. congruence.
  - now apply isAuthenticated_no_session.
Qed.

(** The sample login and a logout: the storage has no entry left. *)
Lemma clearSession_undoes_login_witness :
  exists w,
    clearSession
      (world (snd (authenticate (SamplesLogin.envAt 1000 0)
                                SamplesLogin.accepting SamplesLogin.roomy
                                "manager" "s3cret" SamplesLogin.start)))
    = (Ok tt, w)
    /\ authSession w = None
    /\ localStorage w = [].
Proof.
  assert (Hlogin :
            authenticate (SamplesLogin.envAt 1000 0) SamplesLogin.accepting
                         SamplesLogin.roomy
                         "manager" "s3cret" SamplesLogin.start
            = (Ok (sessionAt 1000 "manager" SamplesLogin.accepted),
               snd (authenticate (SamplesLogin.envAt 1000 0)
                                 SamplesLogin.accepting SamplesLogin.roomy
                                 "manager" "s3cret" SamplesLogin.start)))
    by (rewrite authenticate_paths; reflexivity).
  destruct (clearSession_undoes_login _ _ _ _ _ _ _ _ Hlogin)
    as (w & E & Hs & _).
  exists w. split; [exact E|]. split; [exact Hs|].
  injection E as <-. reflexivity.
Defined.

(** ** The statistics view *)

Import StatsView.

(** The order [<] of numbers is transitive and irreflexive, and
    nothing compares with [NaN]. *)
Lemma SFcompare_Lt_trans a b c :
  SFcompare a b = Some Lt -> SFcompare b c = Some Lt -> SFcompare a c = Some Lt.
Proof.
  destruct a as [[]|[]| |[] ma ea], b as [[]|[]| |[] mb eb],
           c as [[]|[]| |[] mc ec]; simpl;
    try discriminate; try reflexivity;
    change (PosDef.Pos.compare_cont Eq ma mb) with (Pos.compare ma mb);
    change (PosDef.Pos.compare_cont Eq mb mc) with (Pos.compare mb mc);
    change (PosDef.Pos.compare_cont Eq ma mc) with (Pos.compare ma mc);
    destruct (Z.compare_spec ea eb), (Z.compare_spec eb ec),
             (Z.compare_spec ea ec);
    try discriminate; try lia; try reflexivity;
    destruct (Pos.compare_spec ma mb), (Pos.compare_spec mb mc),
             (Pos.compare_spec ma mc);
    simpl; try discriminate; try lia; try reflexivity.
Qed.

Lemma SFcompare_irrefl a : SFcompare a a <> Some Lt.
Proof.
  destruct a as [s|s| |s m e]; simpl; try discriminate.
  - destruct s; discriminate.
  - change (PosDef.Pos.compare_cont Eq m m) with (Pos.compare m m).
    rewrite Z.compare_refl, Pos.compare_refl. destruct s; discriminate.
Qed.

Lemma ltb_trans x y z :
  PrimFloat.ltb x y = true -> PrimFloat.ltb y z = true ->
  PrimFloat.ltb x z = true.
Proof.
  rewrite !ltb_spec. unfold SFltb.
  destruct (SFcompare (Prim2SF x) (Prim2SF y)) as [[]|] eqn:E1;
    try discriminate.
  destruct (SFcompare (Prim2SF y) (Prim2SF z)) as [[]|] eqn:E2;
    try discriminate.
  now rewrite (SFcompare_Lt_trans _ _ _ E1 E2).
Qed.

Lemma ltb_irrefl x : PrimFloat.ltb x x = false.
Proof.
  rewrite ltb_spec. unfold SFltb.
  pose proof (SFcompare_irrefl (Prim2SF x)) as H.
  destruct (SFcompare (Prim2SF x) (Prim2SF x)) as [[]|]; congruence.
Qed.

Lemma is_nan_Prim2SF x : PrimFloat.is_nan x = true -> Prim2SF x = S754_nan.
Proof.
  unfold PrimFloat.is_nan. rewrite eqb_spec. unfold SFeqb.
  destruct (Prim2SF x) as [s|s| |s m e]; simpl; auto.
  - discriminate.
  - destruct s; discriminate.
  - change (PosDef.Pos.compare_cont Eq m m) with (Pos.compare m m).
    rewrite Z.compare_refl, Pos.compare_refl. destruct s; discriminate.
Qed.

Lemma ltb_nan_l x y : PrimFloat.is_nan x = true -> PrimFloat.ltb x y = false.
Proof.
  intros H. rewrite ltb_spec, (is_nan_Prim2SF x H). reflexivity.
Qed.

Lemma ltb_nan_r x y : PrimFloat.is_nan y = true -> PrimFloat.ltb x y = false.
Proof.
  intros H. rewrite ltb_spec, (is_nan_Prim2SF y H). unfold SFltb.
  now destruct (Prim2SF x).
Qed.

(** A [reduce] that keeps the accumulator unless the current element
    is strictly beyond it, for a transitive and irreflexive [beyond]:
    the result is an element, and no element is beyond it. *)
Lemma reduce_extremum {A} (beyond : A -> A -> bool) (rest : list A) :
  (forall x, beyond x x = false) ->
  (forall x y z, beyond x y = true -> beyond y z = true -> beyond x z = true) ->
  forall first,
    let chosen :=
      fold_left (fun acc current => if beyond acc current then current else acc)
                rest first in
    In chosen (first :: rest)
    /\ (beyond first chosen = true \/ chosen = first)
    /\ forall x, In x (first :: rest) -> beyond chosen x = false.
Proof.
  intros Hirr Htrans. induction rest as [|c rest IH]; intros first; cbv zeta.
  - simpl. split; [now left|]. split; [now right|].
    intros x [<-|[]]. apply Hirr.
  - cbn [fold_left]. destruct (beyond first c) eqn:E.
    + specialize (IH c). cbv zeta in IH. revert IH.
      set (chosen := fold_left _ rest c). intros (Hin & Hfrom & Hmax).
      assert (Hfirst : beyond first chosen = true).
      { destruct Hfrom as [H|Heq]; [exact (Htrans _ _ _ E H)|].
        rewrite Heq. exact E. }
      split; [now right|]. split; [now left|].
      intros x [<-|Hx]; [|now apply Hmax].
      destruct (beyond chosen first) eqn:E2; [|reflexivity].
      pose proof (Htrans _ _ _ Hfirst E2) as H3.
      rewrite Hirr in H3. discriminate H3.
    + specialize (IH first). cbv zeta in IH. revert IH.
      set (chosen := fold_left _ rest first). intros (Hin & Hfrom & Hmax).
      split.
      * destruct Hin as [H|H]; [left; exact H|right; now right].
      * split; [exact Hfrom|].
        intros x [Hx|[Hx|Hx]].
        -- apply Hmax. now left.
        -- subst x. destruct Hfrom as [H|Heq].
           ++ destruct (beyond chosen c) eqn:E2; [|reflexivity].
              pose proof (Htrans _ _ _ H E2) as H3. congruence.
           ++ rewrite Heq. exact E.
        -- apply Hmax. now right.
Qed.

(** X28. The best and the worst team of the statistics view.
    [getBestTeam] and [getWorstTeam] return [null] exactly when the
    store has no team; otherwise each returns a team of the store, and
    no team has a win rate greater than the best team's, none a win
    rate smaller than the worst team's (in the order of [>] and [<]).
    A team whose win rate is [NaN] (no games: 0/0) is compared with
    nothing: listed first, it is both the best and the worst team,
    whatever the records of the others. *)
Theorem best_and_worst_team teams :
  (getBestTeam teams = None <-> teams = [])
  /\ (getWorstTeam teams = None <-> teams = [])
  /\ (forall best,
      getBestTeam teams = Some best ->
      In best teams
      /\ forall team,
          In team teams -> PrimFloat.ltb (winRate best) (winRate team) = false)
  /\ (forall worst,
      getWorstTeam teams = Some worst ->
      In worst teams
      /\ forall team,
          In team teams -> PrimFloat.ltb (winRate team) (winRate worst) = false)
  /\ (forall first rest,
      teams = first :: rest ->
      PrimFloat.is_nan (winRate first) = true ->
      getBestTeam teams = Some first /\ getWorstTeam teams = Some first).
Proof.
  split; [|split; [|split; [|split]]].
  - destruct teams; simpl; split; congruence.
  - destruct teams; simpl; split; congruence.
  - intros best H. destruct teams as [|first rest]; [discriminate H|].
    injection H as <-.
    destruct (reduce_extremum
                (fun a b => PrimFloat.ltb (winRate a) (winRate b)) rest
                (fun x => ltb_irrefl _)
                (fun x y z => ltb_trans _ _ _) first) as (Hin & _ & Hmax).
    split; [exact Hin|exact Hmax].
  - intros worst H. destruct teams as [|first rest]; [discriminate H|].
    injection H as <-.
    destruct (reduce_extremum
                (fun a b => PrimFloat.ltb (winRate b) (winRate a)) rest
                (fun x => ltb_irrefl _)
                (fun x y z Hxy Hyz => ltb_trans _ _ _ Hyz Hxy) first)
      as (Hin & _ & Hmin).
    split; [exact Hin|exact Hmin].
  - intros first rest -> Hnan. unfold getBestTeam, getWorstTeam.
    split; f_equal.
    + induction rest as [|c rest IH]; [reflexivity|].
      cbn [fold_left]. cbv zeta. now rewrite (ltb_nan_l _ _ Hnan).
    + induction rest as [|c rest IH]; [reflexivity|].
      cbn [fold_left]. cbv zeta. now rewrite (ltb_nan_r _ _ Hnan).
Qed.

(** A team that has not played, listed before the sample team (5-2):
    it is the best team and the worst team. *)
Lemma best_and_worst_team_witness :
  getBestTeam [SamplesStats.newTeam; SamplesNet.espnTeam]
  = Some SamplesStats.newTeam
  /\ getWorstTeam [SamplesStats.newTeam; SamplesNet.espnTeam]
     = Some SamplesStats.newTeam.
Proof.
  apply (proj2 (proj2 (proj2 (proj2
           (best_and_worst_team [SamplesStats.newTeam; SamplesNet.espnTeam]))))
           SamplesStats.newTeam [SamplesNet.espnTeam] eq_refl).
  vm_compute. reflexivity.
Defined.
